(** * Producer/consumer message exchange over pipe, FIFO and POSIX shared memory

    A shallow embedding of the three IPC demonstrations of the repository
    (anonymous pipe, named FIFO, POSIX shared memory) and of their common
    [write_all]/[read_all] loops, together with the properties that the
    design document states about them.

    Conventions.
    - A C [int] is a [Z] in [-2^31, 2^31); a [size_t] is a [Z] in [0, 2^64)
      and its arithmetic wraps; an [ssize_t] is a [Z] in [-2^63, 2^63).
    - A byte is a [Z] in [0, 256); a buffer is a [list Z] of bytes.
    - A process is a function from a [world] to a result and a new world.
      [exit] is a result of its own, as is undefined behaviour ([Fault]).
    - System calls whose result the program cannot predict take it from an
      environment record [env]. *)

From Stdlib Require Import ZArith Lia ZifyBool Bool String.
From stdpp Require Import base list strings gmap.

Local Open Scope Z_scope.

(** ** Machine integers *)

Module CInt.

Definition INT_MOD : Z := 2 ^ 32.
Definition SIZE_MOD : Z := 2 ^ 64.
Definition SSIZE_MAX : Z := 2 ^ 63 - 1.
Definition sizeof_int : Z := 4.

Definition int_range (v : Z) : Prop := - 2 ^ 31 <= v < 2 ^ 31.

(** Conversion of an unsigned 32-bit pattern to [int]. *)
Definition to_int (u : Z) : Z :=
  let u := u mod INT_MOD in
  if u <? 2 ^ 31 then u else u - INT_MOD.

(** [(size_t) v] for an [int] or [ssize_t] value [v]. *)
Definition to_size (v : Z) : Z := v mod SIZE_MOD.

(** [(ssize_t) u] for a [size_t] value [u], as [return total] does. *)
Definition to_ssize (u : Z) : Z :=
  let u := u mod SIZE_MOD in
  if u <? 2 ^ 63 then u else u - SIZE_MOD.

(** [num * sizeof(int)]: [num] is converted to [size_t], the product wraps. *)
Definition size_mul_int (num : Z) : Z := (to_size num * sizeof_int) mod SIZE_MOD.

(** The object representation of an [int]: four bytes in host byte order
    ([be = true] for a big-endian host). *)
Definition int_to_bytes (be : bool) (v : Z) : list Z :=
  let u := v mod INT_MOD in
  let le := [u mod 256; (u / 2 ^ 8) mod 256; (u / 2 ^ 16) mod 256; (u / 2 ^ 24) mod 256] in
  if be then rev le else le.

Definition bytes_to_int (be : bool) (bs : list Z) : Z :=
  match (if be then rev bs else bs) with
  | [b0; b1; b2; b3] => to_int (b0 + 2 ^ 8 * b1 + 2 ^ 16 * b2 + 2 ^ 24 * b3)
  | _ => 0
  end.

(** An [int] array as bytes, and back ([n] elements). *)
Definition ints_to_bytes (be : bool) (l : list Z) : list Z :=
  flat_map (int_to_bytes be) l.

Fixpoint bytes_to_ints (be : bool) (n : nat) (bs : list Z) : list Z :=
  match n with
  | O => []
  | S n' => bytes_to_int be (take 4 bs) :: bytes_to_ints be n' (drop 4 bs)
  end.

End CInt.

(** ** The transfer loop shared by [write_all] and [read_all]

    Both functions are the same loop around a different primitive:
<<
      size_t total = 0;
      while (total < bytes) {
        ssize_t r = prim(fd, ptr + total, bytes - total);
        if (r <= 0) return -1;
        total += r;
      }
      return total;
>>
    The primitive is a parameter: it receives the state, the offset
    [total] and the length [bytes - total], and returns its result and
    the new state. *)

Module Channel.
Import CInt.

Inductive loop_exit :=
  | LoopBroken            (* left through [return -1] *)
  | LoopDone (total : Z). (* left through [return total] *)

Section Loop.
Context {St : Type}.
Variable prim : St -> Z -> Z -> Z * St.

Fixpoint xfer_loop (fuel : nat) (s : St) (total bytes : Z)
  : option (loop_exit * St) :=
  match fuel with
  | O => None
  | S fuel' =>
      if total <? bytes then
        let '(r, s') := prim s total (bytes - total) in
        if r <=? 0 then Some (LoopBroken, s')
        else xfer_loop fuel' s' ((total + r) mod SIZE_MOD) bytes
      else Some (LoopDone total, s)
  end.

(** The value the function returns; [None] only if the loop has
    not ended after [bytes + 1] iterations. *)
Definition xfer_all (s : St) (bytes : Z) : option (Z * St) :=
  match xfer_loop (S (Z.to_nat bytes)) s 0 bytes with
  | Some (LoopBroken, s') => Some (-1, s')
  | Some (LoopDone total, s') => Some (to_ssize total, s')
  | None => None
  end.

(** A recording stub around the primitive: the state is paired with
    the list of the results of the single calls made so far. *)
Definition recording (sl : St * list Z) (off len : Z) : Z * (St * list Z) :=
  let '(r, s') := prim (fst sl) off len in
  (r, (s', snd sl ++ [r])).

(** The primitive never reports more than it was asked for, as
    read(2) and write(2) promise. *)
Definition bounded_prim : Prop :=
  forall s off len, 0 < len -> fst (prim s off len) <= len.

(** Whatever is asked, the primitive moves at least one byte. *)
Definition progressing_prim : Prop :=
  forall s off len, 0 < len -> 1 <= fst (prim s off len).

(** A stub that records each request with its result: the offset, the
    length asked for and what the primitive returned. *)
Definition recording_requests (sl : St * list (Z * Z * Z)) (off len : Z)
  : Z * (St * list (Z * Z * Z)) :=
  let '(r, s') := prim (fst sl) off len in
  (r, (s', snd sl ++ [(off, len, r)])).

End Loop.

Definition positive_call (c : Z) : Prop := 0 < c.

(** The requests tile the buffer: each one starts where the results so
    far end and asks for all that is left of [bytes]. *)
Fixpoint contiguous (total bytes : Z) (l : list (Z * Z * Z)) : Prop :=
  match l with
  | [] => True
  | (off, len, r) :: l' =>
      off = total /\ len = bytes - total /\ 0 < len
      /\ contiguous (total + r) bytes l'
  end.

Definition sumZ (l : list Z) : Z := foldr Z.add 0 l.

(** The bytes a request names, [len] of them from offset [off], lie
    inside a buffer of [bytes] bytes. *)
Definition inside_buffer (bytes : Z) (q : Z * Z * Z) : Prop :=
  let '(off, len, _) := q in 0 <= off /\ 0 < len /\ off + len <= bytes.

End Channel.

(** ** Processes: worlds, environments and the process monad *)

Module Proc.
Import CInt.

Definition EXIT_SUCCESS : Z := 0.
Definition EXIT_FAILURE : Z := 1.
Definition EEXIST : Z := 17.

(** What a process does that another party can observe, in program order. *)
Inductive event :=
  | EvStore (idx v : Z)          (* shm_data[idx] = v *)
  | EvLoad (idx : Z)             (* ... = shm_data[idx] *)
  | EvPrint (v : Z)              (* printf("%d ", v) *)
  | EvNewline                    (* putchar('\n') *)
  | EvStderr (msg : string)      (* perror(msg) or fprintf(stderr, msg) *)
  | EvMalloc (size : Z)
  | EvFree
  | EvWrite (fd r : Z)           (* one write(2) call and its result *)
  | EvRead (fd r : Z)            (* one read(2) call and its result *)
  | EvOpen (path : string) (r : Z)
  | EvClose (fd : Z)
  | EvMunmap
  | EvShmUnlink (name : string)
  | EvUnlink (path : string)
  | EvMkfifo (path : string) (r : Z)
  | EvFork (r : Z)
  | EvWait (r : Z).

(** The value of a [void*] that came from [mmap]. *)
Inductive pointer := PNull | PMapFailed | PMapped.

Record world := World {
  w_stdin : list (option Z);   (* tokens [scanf("%d")] will meet; [None]: not a number *)
  w_seg : list Z;              (* the shared-memory object, as [int] slots *)
  w_chan : list Z;             (* bytes in flight in the pipe or FIFO *)
  w_ncalls : nat;              (* read/write calls issued so far *)
  w_names : gset string;       (* names present in the file and shm namespaces *)
  w_trace : list event         (* events of the running process *)
}.

Record env := Env {
  e_big_endian : bool;         (* host byte order *)
  e_kernel : nat -> Z -> Z;    (* bytes call number k may move when len are asked; <= 0: error *)
  e_malloc : Z -> bool;        (* does malloc(size) return non-NULL *)
  e_fork : Z;                  (* what fork() returns in this process *)
  e_wait : Z;                  (* what wait(NULL) returns *)
  e_open : Z;                  (* what open(FIFO_PATH, ...) returns *)
  e_close : Z -> Z;
  e_munmap : Z;
  e_shm_unlink : Z;
  e_unlink : Z;
  e_mkfifo : Z;
  e_errno : Z;                 (* errno after a failed mkfifo *)
  e_pipe : Z;
  e_shm_open : Z;
  e_ftruncate : Z;
  e_mmap : pointer
}.

Inductive res (A : Type) :=
  | Ret (a : A)          (* the statement sequence ran to its end *)
  | Exit (status : Z)    (* exit(status) was called *)
  | Fault                (* undefined behaviour: access outside an object *)
  | Stuck.               (* a transfer loop did not end *)
Arguments Ret {A} a.
Arguments Exit {A} status.
Arguments Fault {A}.
Arguments Stuck {A}.

Definition M (A : Type) : Type := world -> res A * world.

Definition ret {A} (a : A) : M A := fun w => (Ret a, w).

Definition bind {A B} (m : M A) (k : A -> M B) : M B :=
  fun w =>
    match m w with
    | (Ret a, w') => k a w'
    | (Exit st, w') => (Exit st, w')
    | (Fault, w') => (Fault, w')
    | (Stuck, w') => (Stuck, w')
    end.

Definition exit {A} (status : Z) : M A := fun w => (Exit status, w).
Definition fault {A} : M A := fun w => (Fault, w).

Declare Scope proc_scope.
Delimit Scope proc_scope with proc.
Notation "'do' x <- m ; k" := (bind m (fun x => k))
  (at level 10, x name, m at level 100, k at level 200) : proc_scope.
Notation "'run' m ; k" := (bind m (fun _ => k))
  (at level 10, m at level 100, k at level 200) : proc_scope.
Local Open Scope proc_scope.

Definition when (b : bool) (m : M unit) : M unit := if b then m else ret tt.

(** [for (i = i0; i < i0 + n; i++) acc = body(i, acc);] *)
Fixpoint for_fold {A} (n : nat) (i : Z) (acc : A) (body : Z -> A -> M A) : M A :=
  match n with
  | O => ret acc
  | S n' => do acc' <- body i acc; for_fold n' (i + 1) acc' body
  end.

(** *** World updates *)

Definition set_stdin (l : list (option Z)) (w : world) : world :=
  World l (w_seg w) (w_chan w) (w_ncalls w) (w_names w) (w_trace w).
Definition set_seg (l : list Z) (w : world) : world :=
  World (w_stdin w) l (w_chan w) (w_ncalls w) (w_names w) (w_trace w).
Definition set_chan (l : list Z) (w : world) : world :=
  World (w_stdin w) (w_seg w) l (w_ncalls w) (w_names w) (w_trace w).
Definition tick (w : world) : world :=
  World (w_stdin w) (w_seg w) (w_chan w) (S (w_ncalls w)) (w_names w) (w_trace w).
Definition set_names (n : gset string) (w : world) : world :=
  World (w_stdin w) (w_seg w) (w_chan w) (w_ncalls w) n (w_trace w).
Definition set_trace (t : list event) (w : world) : world :=
  World (w_stdin w) (w_seg w) (w_chan w) (w_ncalls w) (w_names w) t.
Definition log (e : event) (w : world) : world := set_trace (w_trace w ++ [e]) w.

Definition emit (e : event) : M unit := fun w => (Ret tt, log e w).

(** *** Library and system calls *)

(** [scanf("%d", &x) == 1]: [Some x], otherwise [None]. A token [Some v]
    of the input stands for the value the conversion leaves in the [int]
    object [x]; it is that value when [int_range v], and the statements
    that depend on the value read carry this condition. *)
Definition scanf_d : M (option Z) := fun w =>
  match w_stdin w with
  | Some v :: rest => (Ret (Some v), set_stdin rest w)
  | _ => (Ret None, w)
  end.

Definition eprint (msg : string) : M unit := emit (EvStderr msg).

Definition handle_error {A} (msg : string) : M A :=
  run eprint msg; exit EXIT_FAILURE.

(** [check_result(result, msg)]: the parameter is an [int]. *)
Definition check_result (result : Z) (msg : string) : M unit :=
  if to_int result =? -1 then handle_error msg else ret tt.

Definition malloc (E : env) (size : Z) : M bool :=
  run emit (EvMalloc size); ret (e_malloc E size).

Definition free : M unit := emit EvFree.

Definition sys_close (E : env) (fd : Z) : M Z :=
  run emit (EvClose fd); ret (e_close E fd).

Definition sys_wait (E : env) : M Z :=
  run emit (EvWait (e_wait E)); ret (e_wait E).

(** [unlink(path)] and [shm_unlink(name)]: on success the name leaves
    the namespace; objects already opened or mapped are not affected. *)
Definition sys_unlink (E : env) (path : string) : M Z := fun w =>
  let w1 := log (EvUnlink path) w in
  if e_unlink E =? 0 then (Ret 0, set_names (w_names w1 ∖ {[ path ]}) w1)
  else (Ret (e_unlink E), w1).

Definition shm_unlink (E : env) (name : string) : M Z := fun w =>
  let w1 := log (EvShmUnlink name) w in
  if e_shm_unlink E =? 0 then (Ret 0, set_names (w_names w1 ∖ {[ name ]}) w1)
  else (Ret (e_shm_unlink E), w1).

Definition munmap (E : env) : M Z :=
  run emit EvMunmap; ret (e_munmap E).

(** *** The byte stream of a pipe or FIFO

    [write(fd, ptr + off, len)] with [ptr] pointing to [buf]: the kernel
    accepts at most [len] bytes and appends them to the stream. *)
Definition sys_write (E : env) (fd : Z) (buf : list Z)
    (w : world) (off len : Z) : Z * world :=
  let k := e_kernel E (w_ncalls w) len in
  let n := if k <=? 0 then k else Z.min k len in
  let w1 := log (EvWrite fd n) (tick w) in
  if n <=? 0 then (n, w1)
  else (n, set_chan (w_chan w1 ++ take (Z.to_nat n) (drop (Z.to_nat off) buf)) w1).

(** [buf] with [chunk] copied in at byte offset [off]. *)
Definition splice (buf : list Z) (off : Z) (chunk : list Z) : list Z :=
  take (Z.to_nat off) buf ++ chunk ++ drop (Z.to_nat off + length chunk) buf.

(** [read(fd, ptr + off, len)] with [ptr] pointing to [buf]: at most
    [len] bytes, at most what the stream holds; 0 (end of stream) when
    the stream is empty, the writer having finished. *)
Definition sys_read (E : env) (fd : Z)
    (wb : world * list Z) (off len : Z) : Z * (world * list Z) :=
  let w := fst wb in
  let buf := snd wb in
  let k := e_kernel E (w_ncalls w) len in
  let n := if k <=? 0 then k
           else Z.min (Z.min k len) (Z.of_nat (length (w_chan w))) in
  let w1 := log (EvRead fd n) (tick w) in
  if n <=? 0 then (n, (w1, buf))
  else
    let chunk := take (Z.to_nat n) (w_chan w1) in
    (n, (set_chan (drop (Z.to_nat n) (w_chan w1)) w1, splice buf off chunk)).

Definition write_all (E : env) (fd : Z) (buffer : list Z) (bytes : Z) : M Z :=
  fun w =>
    match Channel.xfer_all (sys_write E fd buffer) w bytes with
    | Some (r, w') => (Ret r, w')
    | None => (Stuck, w)
    end.

(** Returns the result together with the buffer as the call left it. *)
Definition read_all (E : env) (fd : Z) (buffer : list Z) (bytes : Z)
  : M (Z * list Z) :=
  fun w =>
    match Channel.xfer_all (sys_read E fd) (w, buffer) bytes with
    | Some (r, (w', buffer')) => (Ret (r, buffer'), w')
    | None => (Stuck, w)
    end.

(** [arr[i]] for an [int] array stored in the byte buffer [buf]. *)
Definition int_at (E : env) (buf : list Z) (i : Z) : M Z :=
  if (0 <=? i) && (sizeof_int * i + sizeof_int <=? Z.of_nat (length buf)) then
    ret (bytes_to_int (e_big_endian E)
           (take 4 (drop (Z.to_nat (sizeof_int * i)) buf)))
  else fault.

(** *** Sessions

    One session: the creating process runs the setup; [fork] splits it;
    the child (in which [fork] returned 0) runs to its end, then the
    parent (in which [fork] returned [fork_ret], the child's pid) runs.
    Both see the same shared object, stream and namespace; each has its
    own trace, which starts with the events of the setup. When [fork]
    fails there is no child. *)
Record outcome := Outcome {
  o_child : option (res Z * list event);
  o_parent : res Z * list event;
  o_world : world
}.

Definition session {S : Type} (setup : M S) (fork_ret : Z)
    (child parent : S -> M Z) (w0 : world) : outcome :=
  match setup w0 with
  | (Ret s, w1) =>
      if fork_ret =? -1 then
        let '(rp, wp) := parent s w1 in
        Outcome None (rp, w_trace wp) wp
      else
        let '(rc, wc) := child s w1 in
        let '(rp, wp) := parent s (set_trace (w_trace w1) wc) in
        Outcome (Some (rc, w_trace wc)) (rp, w_trace wp) wp
  | (Exit st, w1) => Outcome None (Exit st, w_trace w1) w1
  | (Fault, w1) => Outcome None (Fault, w_trace w1) w1
  | (Stuck, w1) => Outcome None (Stuck, w_trace w1) w1
  end.

(** What a trace printed on standard output. *)
Definition printed (t : list event) : list Z :=
  omap (fun e => match e with EvPrint v => Some v | _ => None end) t.

End Proc.

(** ** POSIX shared memory (6 (IPC)/c_shared_memory.c)

    The repository holds this program twice; the two copies differ in
    comments and in the explicit [return EXIT_SUCCESS] of [main] only. *)

Module Shm.
Import CInt Proc.
Local Open Scope proc_scope.

Definition SHM_NAME : string := "/my_shared_memory".
Definition BUFFER_SIZE : Z := 1024.

(** [ptr != NULL && ptr != MAP_FAILED] *)
Definition mapped (ptr : pointer) : bool :=
  match ptr with PMapped => true | _ => false end.

(** [shm_open(SHM_NAME, O_CREAT | O_RDWR, 0666)] *)
Definition shm_open (E : env) : M Z := fun w =>
  if e_shm_open E =? -1 then (Ret (-1), w)
  else (Ret (e_shm_open E), set_names (w_names w ∪ {[ SHM_NAME ]}) w).

(** [ftruncate(shm_fd, BUFFER_SIZE)]: the object gets [BUFFER_SIZE]
    bytes, new bytes read as zero. *)
Definition ftruncate (E : env) : M Z := fun w =>
  if e_ftruncate E =? -1 then (Ret (-1), w)
  else (Ret (e_ftruncate E),
        set_seg (resize (Z.to_nat (BUFFER_SIZE / sizeof_int)) 0 (w_seg w)) w).

Definition mmap (E : env) : M pointer := ret (e_mmap E).

Definition check_pointer (ptr : pointer) (msg : string) : M unit :=
  match ptr with PMapFailed => handle_error msg | _ => ret tt end.

(** [shm_data[idx] = v] and [shm_data[idx]] with [shm_data = (int* )ptr];
    an access outside the mapping is a fault. *)
Definition store (ptr : pointer) (idx v : Z) : M unit := fun w =>
  let w1 := log (EvStore idx v) w in
  if mapped ptr && (0 <=? idx) && (idx <? Z.of_nat (length (w_seg w)))
  then (Ret tt, set_seg (<[Z.to_nat idx := v]> (w_seg w1)) w1)
  else (Fault, w1).

Definition load (ptr : pointer) (idx : Z) : M Z := fun w =>
  let w1 := log (EvLoad idx) w in
  if mapped ptr && (0 <=? idx) then
    match w_seg w !! Z.to_nat idx with
    | Some v => (Ret v, w1)
    | None => (Fault, w1)
    end
  else (Fault, w1).

Definition cleanup_shm (E : env) (ptr : pointer) (shm_fd unlink_shm : Z) : M unit :=
  run when (mapped ptr)
        (do r <- munmap E; when (negb (r =? 0)) (eprint "munmap"));
  run when (negb (shm_fd =? -1))
        (do r <- sys_close E shm_fd; when (negb (r =? 0)) (eprint "close"));
  when (negb (unlink_shm =? 0))
    (do r <- shm_unlink E SHM_NAME; when (negb (r =? 0)) (eprint "shm_unlink")).

(** [num <= 0 || num > (int)(BUFFER_SIZE / sizeof(int)) - 1] *)
Definition bad_count (num : Z) : bool :=
  (num <=? 0) || (num >? BUFFER_SIZE / sizeof_int - 1).

Definition child_process (E : env) (ptr : pointer) (shm_fd : Z) : M unit :=
  do t <- scanf_d;
  match t with
  | None =>
      run eprint "Invalid input.";
      run cleanup_shm E ptr shm_fd 0;
      exit EXIT_FAILURE
  | Some num =>
      if bad_count num then
        run eprint "0 < num < 256";
        run cleanup_shm E ptr shm_fd 0;
        exit EXIT_FAILURE
      else
        run store ptr 0 num;
        run for_fold (Z.to_nat num) 0 tt (fun i _ =>
              do t <- scanf_d;
              match t with
              | None =>
                  run eprint "Invalid input.";
                  run cleanup_shm E ptr shm_fd 0;
                  exit EXIT_FAILURE
              | Some v => store ptr (i + 1) v
              end);
        cleanup_shm E ptr shm_fd 0
  end.

(** The statements of [parent_process] that follow the wait. *)
Definition parent_read (E : env) (ptr : pointer) (shm_fd : Z) : M unit :=
  do num <- load ptr 0;
  if bad_count num then
    run eprint "Invalid number of elements in shared memory";
    run cleanup_shm E ptr shm_fd 1;
    exit EXIT_FAILURE
  else
    run for_fold (Z.to_nat num) 0 tt (fun i _ =>
          do v <- load ptr (i + 1); emit (EvPrint v));
    run emit EvNewline;
    cleanup_shm E ptr shm_fd 1.

Definition parent_process (E : env) (ptr : pointer) (shm_fd : Z) : M unit :=
  do r <- sys_wait E;
  if negb (r =? 0) then
    run eprint "wait";
    run cleanup_shm E ptr shm_fd 1;
    exit EXIT_FAILURE
  else parent_read E ptr shm_fd.

(** [main] up to and including the mapping. *)
Definition main_setup (E : env) : M (pointer * Z) :=
  do shm_fd <- shm_open E;
  if shm_fd =? -1 then handle_error "shm_open"
  else
    do r <- ftruncate E;
    if r =? -1 then
      run eprint "ftruncate";
      run cleanup_shm E PNull shm_fd 1;
      exit EXIT_FAILURE
    else
      do ptr <- mmap E;
      run check_pointer ptr "mmap";
      ret (ptr, shm_fd).

(** [main] from the result [pid] of [fork()] on. *)
Definition main_role (E : env) (ptr : pointer) (shm_fd : Z) (pid : Z) : M Z :=
  run emit (EvFork pid);
  if pid =? -1 then
    run eprint "fork";
    run cleanup_shm E ptr shm_fd 1;
    exit EXIT_FAILURE
  else if pid =? 0 then
    run child_process E ptr shm_fd; ret 0
  else
    run parent_process E ptr shm_fd; ret 0.

Definition main (E : env) : M Z :=
  do pf <- main_setup E;
  main_role E (fst pf) (snd pf) (e_fork E).

Definition session (E : env) (w0 : world) : outcome :=
  Proc.session (main_setup E) (e_fork E)
    (fun pf => main_role E (fst pf) (snd pf) 0)
    (fun pf => main_role E (fst pf) (snd pf) (e_fork E)) w0.

End Shm.

(** ** Anonymous pipe (second program of 6 (IPC)/c_shared_memory.c)

    The repository also holds a copy with the statements of
    [child_process] and [parent_process] written out in [main]; its
    [write_all], [read_all], count check and order of calls are the
    same. *)

Module Pipe.
Import CInt Proc.
Local Open Scope proc_scope.

Definition BUFFER_SIZE : Z := 1024.
(** The descriptors that [pipe(fd)] stored in [fd[READ_END]] and
    [fd[WRITE_END]]. *)
Definition fd_read : Z := 3.
Definition fd_write : Z := 4.

(** [check_pointer(ptr, msg)] for the result of [malloc]. *)
Definition check_pointer (non_null : bool) (msg : string) : M unit :=
  if non_null then ret tt else handle_error msg.

(** [num <= 0 || num > (int)(BUFFER_SIZE / sizeof(int))] *)
Definition bad_count (num : Z) : bool :=
  (num <=? 0) || (num >? BUFFER_SIZE / sizeof_int).

Definition child_process (E : env) (write_fd : Z) : M unit :=
  do t <- scanf_d;
  match t with
  | None => run eprint "Invalid input."; exit EXIT_FAILURE
  | Some num =>
      if bad_count num then
        run eprint "0 < num < 257"; exit EXIT_FAILURE
      else
        do p <- malloc E (size_mul_int num);
        run check_pointer p "malloc";
        do arr <- for_fold (Z.to_nat (to_size num)) 0
                    (replicate (Z.to_nat num) 0) (fun i arr =>
              do t <- scanf_d;
              match t with
              | None => run eprint "Invalid input."; run free; exit EXIT_FAILURE
              | Some v => ret (<[Z.to_nat i := v]> arr)
              end);
        do r <- write_all E write_fd (int_to_bytes (e_big_endian E) num) sizeof_int;
        if r =? -1 then run free; handle_error "write_all"
        else
          do r <- write_all E write_fd (ints_to_bytes (e_big_endian E) arr)
                    (size_mul_int num);
          if r =? -1 then run free; handle_error "write_all"
          else free
  end.

Definition parent_process (E : env) (read_fd : Z) : M unit :=
  do rb <- read_all E read_fd (replicate 4 0) sizeof_int;
  run check_result (fst rb) "read_all";
  let num := bytes_to_int (e_big_endian E) (snd rb) in
  do p <- malloc E (size_mul_int num);
  run check_pointer p "malloc";
  do rb <- read_all E read_fd (replicate (Z.to_nat (size_mul_int num)) 0)
             (size_mul_int num);
  run check_result (fst rb) "read_all";
  run for_fold (Z.to_nat (to_size num)) 0 tt (fun i _ =>
        do v <- int_at E (snd rb) i; emit (EvPrint v));
  run emit EvNewline;
  run free;
  do r <- sys_wait E;
  check_result r "wait".

Definition main_setup (E : env) : M unit :=
  check_result (e_pipe E) "pipe".

Definition main_role (E : env) (pid : Z) : M Z :=
  run emit (EvFork pid);
  run check_result pid "fork";
  if pid =? 0 then
    do r <- sys_close E fd_read;
    run check_result r "close";
    run child_process E fd_write;
    do r <- sys_close E fd_write;
    run check_result r "close";
    ret 0
  else
    do r <- sys_close E fd_write;
    run check_result r "close";
    run parent_process E fd_read;
    do r <- sys_close E fd_read;
    run check_result r "close";
    ret 0.

Definition main (E : env) : M Z :=
  run main_setup E; main_role E (e_fork E).

Definition session (E : env) (w0 : world) : outcome :=
  Proc.session (main_setup E) (e_fork E)
    (fun _ => main_role E 0) (fun _ => main_role E (e_fork E)) w0.

End Pipe.

(** ** Anonymous pipe, the copy with everything in [main]

    The same program with the statements of both roles written out in
    [main]: the results of [close] and [wait] are not looked at, the
    results of [read_all] and [write_all] are compared with -1 as they
    are, and a failed [scanf] in the loop exits without [free]. *)

Module PipeInline.
Import CInt Proc.
Local Open Scope proc_scope.

Definition BUFFER_SIZE : Z := 1024.

Definition bad_count (num : Z) : bool :=
  (num <=? 0) || (num >? BUFFER_SIZE / sizeof_int).

Definition main_setup (E : env) : M unit :=
  if e_pipe E =? -1 then run eprint "pipe"; exit EXIT_FAILURE else ret tt.

(** The branch [pid == 0]. *)
Definition child_branch (E : env) : M unit :=
  do _ <- sys_close E Pipe.fd_read;
  do t <- scanf_d;
  match t with
  | None => run eprint "Invalid input."; exit EXIT_FAILURE
  | Some num =>
      if bad_count num then
        run eprint "0 < num < 257"; exit EXIT_FAILURE
      else
        do p <- malloc E (size_mul_int num);
        if negb p then run eprint "malloc"; exit EXIT_FAILURE
        else
          do arr <- for_fold (Z.to_nat (to_size num)) 0
                      (replicate (Z.to_nat num) 0) (fun i arr =>
                do t <- scanf_d;
                match t with
                | None => run eprint "Invalid input."; exit EXIT_FAILURE
                | Some v => ret (<[Z.to_nat i := v]> arr)
                end);
          do r <- write_all E Pipe.fd_write (int_to_bytes (e_big_endian E) num)
                    sizeof_int;
          if r =? -1 then
            run eprint "write_all"; run free; exit EXIT_FAILURE
          else
            do bytes_written <-
              write_all E Pipe.fd_write (ints_to_bytes (e_big_endian E) arr)
                (size_mul_int num);
            if bytes_written =? -1 then
              run eprint "write_all"; run free; exit EXIT_FAILURE
            else
              run free;
              do _ <- sys_close E Pipe.fd_write;
              ret tt
  end.

(** The branch [pid != 0]. *)
Definition parent_branch (E : env) : M unit :=
  do _ <- sys_close E Pipe.fd_write;
  do rb <- read_all E Pipe.fd_read (replicate 4 0) sizeof_int;
  if fst rb =? -1 then run eprint "read_all"; exit EXIT_FAILURE
  else
    let num := bytes_to_int (e_big_endian E) (snd rb) in
    do p <- malloc E (size_mul_int num);
    if negb p then run eprint "malloc"; exit EXIT_FAILURE
    else
      do rb <- read_all E Pipe.fd_read
                 (replicate (Z.to_nat (size_mul_int num)) 0) (size_mul_int num);
      if fst rb =? -1 then run eprint "read_all"; exit EXIT_FAILURE
      else
        run for_fold (Z.to_nat (to_size num)) 0 tt (fun i _ =>
              do v <- int_at E (snd rb) i; emit (EvPrint v));
        run emit EvNewline;
        run free;
        do _ <- sys_close E Pipe.fd_read;
        do _ <- sys_wait E;
        ret tt.

Definition main_role (E : env) (pid : Z) : M Z :=
  run emit (EvFork pid);
  if pid =? -1 then run eprint "fork"; exit EXIT_FAILURE
  else
    run (if pid =? 0 then child_branch E else parent_branch E);
    ret 0.

Definition main (E : env) : M Z :=
  run main_setup E; main_role E (e_fork E).

Definition session (E : env) (w0 : world) : outcome :=
  Proc.session (main_setup E) (e_fork E)
    (fun _ => main_role E 0) (fun _ => main_role E (e_fork E)) w0.

End PipeInline.

(** ** Named FIFO (third program of 6 (IPC)/c_shared_memory.c) *)

Module Fifo.
Import CInt Proc.
Local Open Scope proc_scope.

Definition FIFO_PATH : string := "/tmp/my_named_pipe".
Definition BUFFER_SIZE : Z := 1024.

Definition bad_count (num : Z) : bool :=
  (num <=? 0) || (num >? BUFFER_SIZE / sizeof_int).

(** [check_pointer(ptr, msg)] for the result of [malloc]. *)
Definition check_pointer (non_null : bool) (msg : string) : M unit :=
  if non_null then ret tt else handle_error msg.

(** [mkfifo(FIFO_PATH, 0666)] *)
Definition mkfifo (E : env) : M Z := fun w =>
  let w1 := log (EvMkfifo FIFO_PATH (e_mkfifo E)) w in
  if e_mkfifo E =? -1 then (Ret (-1), w1)
  else (Ret (e_mkfifo E), set_names (w_names w1 ∪ {[ FIFO_PATH ]}) w1).

(** [open(FIFO_PATH, flags)] *)
Definition sys_open (E : env) : M Z :=
  run emit (EvOpen FIFO_PATH (e_open E)); ret (e_open E).

Definition cleanup_fifo (E : env) : M unit :=
  do r <- sys_unlink E FIFO_PATH;
  when (negb (r =? 0)) (eprint "unlink").

Definition close_fd (E : env) (fd : Z) : M unit :=
  do r <- sys_close E fd;
  when (negb (r =? 0)) (eprint "close").

Definition child_process (E : env) : M unit :=
  do fd <- sys_open E;
  if fd =? -1 then handle_error "open (child)"
  else
    do t <- scanf_d;
    match t with
    | None =>
        run eprint "Invalid input."; run close_fd E fd; exit EXIT_FAILURE
    | Some num =>
        if bad_count num then
          run eprint "0 < num < 257"; run close_fd E fd; exit EXIT_FAILURE
        else
          do p <- malloc E (size_mul_int num);
          run check_pointer p "malloc";
          do arr <- for_fold (Z.to_nat (to_size num)) 0
                      (replicate (Z.to_nat num) 0) (fun i arr =>
                do t <- scanf_d;
                match t with
                | None =>
                    run eprint "Invalid input."; run free;
                    run close_fd E fd; exit EXIT_FAILURE
                | Some v => ret (<[Z.to_nat i := v]> arr)
                end);
          let broken : M unit :=
            run eprint "write_all"; run free; run close_fd E fd;
            exit EXIT_FAILURE in
          do r <- write_all E fd (int_to_bytes (e_big_endian E) num) sizeof_int;
          if r =? -1 then broken
          else
            do r <- write_all E fd (ints_to_bytes (e_big_endian E) arr)
                      (size_mul_int num);
            if r =? -1 then broken
            else run free; close_fd E fd
    end.

Definition parent_process (E : env) : M unit :=
  do fd <- sys_open E;
  if fd =? -1 then
    run eprint "open (parent)"; run cleanup_fifo E; exit EXIT_FAILURE
  else
    do rb <- read_all E fd (replicate 4 0) sizeof_int;
    if fst rb =? -1 then
      run eprint "read_all"; run close_fd E fd; run cleanup_fifo E;
      exit EXIT_FAILURE
    else
      let num := bytes_to_int (e_big_endian E) (snd rb) in
      do p <- malloc E (size_mul_int num);
      if negb p then
        run eprint "malloc"; run close_fd E fd; run cleanup_fifo E;
        exit EXIT_FAILURE
      else
        do rb <- read_all E fd (replicate (Z.to_nat (size_mul_int num)) 0)
                   (size_mul_int num);
        if fst rb =? -1 then
          run eprint "read_all"; run free; run close_fd E fd;
          run cleanup_fifo E; exit EXIT_FAILURE
        else
          run for_fold (Z.to_nat (to_size num)) 0 tt (fun i _ =>
                do v <- int_at E (snd rb) i; emit (EvPrint v));
          run emit EvNewline;
          run free;
          run close_fd E fd;
          run cleanup_fifo E;
          do r <- sys_wait E;
          when (r =? -1) (eprint "wait").

Definition main_setup (E : env) : M unit :=
  do r <- mkfifo E;
  if r =? -1 then
    if negb (e_errno E =? EEXIST) then handle_error "mkfifo" else ret tt
  else ret tt.

Definition main_role (E : env) (pid : Z) : M Z :=
  run emit (EvFork pid);
  if pid =? -1 then
    run eprint "fork"; run cleanup_fifo E; exit EXIT_FAILURE
  else
    run (if pid =? 0 then child_process E else parent_process E);
    ret EXIT_SUCCESS.

Definition main (E : env) : M Z :=
  run main_setup E; main_role E (e_fork E).

Definition session (E : env) (w0 : world) : outcome :=
  Proc.session (main_setup E) (e_fork E)
    (fun _ => main_role E 0) (fun _ => main_role E (e_fork E)) w0.

End Fifo.

(** ** Fixtures: the environments and worlds of the worked examples *)

Module Fixture.
Import CInt Proc.

(** A little-endian host on which every call succeeds; [fork] returns
    the pid 4321 to the parent and [wait] reports [wait_ret]; the kernel
    moves at most [chunk] bytes per read or write. *)
Definition env_ok (chunk wait_ret : Z) : env :=
  Env false (fun _ _ => chunk) (fun _ => true) 4321 wait_ret 5
      (fun _ => 0) 0 0 0 0 0 0 3 0 PMapped.

(** The same, but [mkfifo] fails with the given [errno]. *)
Definition env_mkfifo (errno : Z) : env :=
  Env false (fun _ _ => 1) (fun _ => true) 4321 4321 5
      (fun _ => 0) 0 0 0 (-1) errno 0 3 0 PMapped.

Definition world_of (inp : list Z) : world :=
  World (map Some inp) [] [] 0 ∅ [].

(** A world with the given terminal input and a zero-filled segment of
    256 slots. *)
Definition world_seg (inp : list Z) : world :=
  World (map Some inp) (replicate 256 0) [] 0 ∅ [].

(** A world whose stream holds the given bytes. *)
Definition world_chan (bytes : list Z) : world :=
  World [] [] bytes 0 ∅ [].

(** A stub primitive that moves one byte per call. *)
Definition one_byte (s : unit) (off len : Z) : Z * unit := (1, s).

(** A stub primitive that follows a script of results, none above
    what is asked; 0 when the script is over. *)
Definition scripted (s : list Z) (off len : Z) : Z * list Z :=
  match s with
  | r :: s' => (Z.min r len, s')
  | [] => (0, [])
  end.

End Fixture.

(** ** Observations on runs *)

Module Obs.
Import CInt Proc.

(** Removal of a name: [unlink] or [shm_unlink]. *)
Definition is_unlink (e : event) : bool :=
  match e with EvUnlink _ | EvShmUnlink _ => true | _ => false end.

Definition is_load (e : event) : bool :=
  match e with EvLoad _ => true | _ => false end.

(** A transfer into the transport: a store to the segment or a
    write(2) call. *)
Definition is_transfer (e : event) : bool :=
  match e with EvStore _ _ | EvWrite _ _ => true | _ => false end.

(** Use of the decoded count or payload by the consumer: an allocation,
    a load of a payload slot, or a print. *)
Definition uses_message (e : event) : bool :=
  match e with
  | EvMalloc _ | EvPrint _ => true
  | EvLoad idx => negb (idx =? 0)
  | _ => false
  end.

(** The bytes of [int] slot [idx] lie inside a region of [size] bytes. *)
Definition slot_inside (size idx : Z) : bool :=
  (0 <=? sizeof_int * idx) && (sizeof_int * idx + sizeof_int <=? size).

(** Every access of the event to the segment is inside the mapping. *)
Definition access_inside (size : Z) (e : event) : bool :=
  match e with
  | EvStore idx _ | EvLoad idx => slot_inside size idx
  | _ => true
  end.

Definition any_event (e : event) : bool := true.

(** [w'] comes from [w] by appending events that all satisfy [P]. *)
Definition grows (P : event -> bool) (w w' : world) : Prop :=
  exists evs, w_trace w' = w_trace w ++ evs /\ Forall (fun e => P e = true) evs.

(** The segment and the stream are as they were. *)
Definition same_transport (w w' : world) : Prop :=
  w_seg w' = w_seg w /\ w_chan w' = w_chan w.

(** Every run of [m] relates the world before to the world after. *)
Definition steps {A} (R : world -> world -> Prop) (m : M A) : Prop :=
  forall w, R w (snd (m w)).

(** In the trace every load comes after a wait. *)
Fixpoint loads_after_wait (waited : bool) (t : list event) : bool :=
  match t with
  | [] => true
  | EvWait _ :: t' => loads_after_wait true t'
  | EvLoad _ :: t' => waited && loads_after_wait waited t'
  | _ :: t' => loads_after_wait waited t'
  end.

(** [w'] comes from [w] by appending events among which every load
    comes after a wait. *)
Definition wait_first (w w' : world) : Prop :=
  exists evs, w_trace w' = w_trace w ++ evs /\ loads_after_wait false evs = true.

(** No read or write call fails: asked for [len > 0] bytes, the kernel
    is ready to move at least one. *)
Definition kernel_ok (E : env) : Prop :=
  forall k len, 0 < len -> 0 < e_kernel E k len.

(** [w'] differs from [w] at most in the stream, the call counter and
    the trace, and nothing was printed in between. *)
Definition io_only (w w' : world) : Prop :=
  w_stdin w' = w_stdin w /\ w_seg w' = w_seg w /\ w_names w' = w_names w
  /\ printed (w_trace w') = printed (w_trace w).

(** The stores that write the values [l] to the slots [i], [i + 1], ... *)
Fixpoint store_events (i : Z) (l : list Z) : list event :=
  match l with
  | [] => []
  | v :: l' => EvStore i v :: store_events (i + 1) l'
  end.

(** A call that gives a resource back: [munmap], [close], [shm_unlink]
    or [unlink]. *)
Definition is_release (e : event) : bool :=
  match e with
  | EvMunmap | EvClose _ | EvShmUnlink _ | EvUnlink _ => true
  | _ => false
  end.

Definition releases (t : list event) : list event :=
  filter (fun e => is_release e = true) t.

Definition unlinks (t : list event) : list event :=
  filter (fun e => is_unlink e = true) t.

(** The next [scanf("%d")] does not return 1: the input is at its end or
    the next token is not a number. *)
Definition scanf_fails (inp : list (option Z)) : Prop :=
  match inp with
  | Some _ :: _ => False
  | _ => True
  end.

Definition is_fork (e : event) : bool :=
  match e with EvFork _ => true | _ => false end.

(** An access to the segment. *)
Definition touches_segment (e : event) : bool :=
  match e with EvStore _ _ | EvLoad _ => true | _ => false end.

(** [capacity_limit = transport_buffer_bytes / sizeof(i32) - reserved_header_slots] *)
Definition capacity_limit (buffer_bytes reserved_slots : Z) : Z :=
  buffer_bytes / sizeof_int - reserved_slots.

End Obs.

(** * Properties *)

Import CInt Proc Obs.

(** ** Machine integers *)

Lemma int_to_bytes_length be v : length (int_to_bytes be v) = 4%nat.
Proof. unfold int_to_bytes. destruct be; reflexivity. Qed.

Lemma le_bytes_value (u : Z) :
  0 <= u < 2 ^ 32 ->
  u mod 256 + 2 ^ 8 * ((u / 2 ^ 8) mod 256) + 2 ^ 16 * ((u / 2 ^ 16) mod 256)
    + 2 ^ 24 * ((u / 2 ^ 24) mod 256) = u.
Proof.
  intros Hu.
  change (2 ^ 16) with (2 ^ 8 * 2 ^ 8).
  change (2 ^ 24) with (2 ^ 8 * 2 ^ 8 * 2 ^ 8).
  rewrite <- !Z.div_div by lia.
  change (2 ^ 8) with 256.
  pose proof (Z.div_mod u 256 ltac:(lia)) as H0.
  pose proof (Z.div_mod (u / 256) 256 ltac:(lia)) as H1.
  pose proof (Z.div_mod (u / 256 / 256) 256 ltac:(lia)) as H2.
  pose proof (Z.div_mod (u / 256 / 256 / 256) 256 ltac:(lia)) as H3.
  assert (u / 256 / 256 / 256 / 256 = 0) as H4.
  { rewrite !Z.div_div by lia. apply Z.div_small. lia. }
  lia.
Qed.

Lemma to_int_wrap v : int_range v -> to_int (v mod INT_MOD) = v.
Proof.
  unfold int_range, to_int, INT_MOD. intros Hv.
  rewrite Z.mod_mod by lia.
  destruct (Z.ltb_spec (v mod 2 ^ 32) (2 ^ 31)) as [H|H].
  - destruct (Z.le_gt_cases 0 v) as [Hp|Hn].
    + apply Z.mod_small; lia.
    + rewrite <- (Z.mod_add v 1 (2 ^ 32)) in H by lia.
      rewrite Z.mod_small in H by lia. lia.
  - destruct (Z.le_gt_cases 0 v) as [Hp|Hn].
    + rewrite Z.mod_small in H by lia. lia.
    + rewrite <- (Z.mod_add v 1 (2 ^ 32)) by lia.
      rewrite Z.mod_small by lia. lia.
Qed.

Lemma bytes_to_int_to_bytes be v :
  int_range v -> bytes_to_int be (int_to_bytes be v) = v.
Proof.
  intros Hv. unfold bytes_to_int, int_to_bytes.
  assert (0 <= v mod INT_MOD < 2 ^ 32) as Hu
    by (apply Z.mod_pos_bound; reflexivity).
  destruct be; cbn [rev app]; rewrite le_bytes_value by exact Hu;
    apply to_int_wrap; exact Hv.
Qed.

Lemma ints_to_bytes_length be l :
  length (ints_to_bytes be l) = (4 * length l)%nat.
Proof.
  induction l as [|v l IH]; [reflexivity|].
  unfold ints_to_bytes in *. cbn [flat_map].
  rewrite length_app, int_to_bytes_length, IH. simpl. lia.
Qed.

Lemma bytes_to_ints_to_bytes be l :
  Forall int_range l ->
  bytes_to_ints be (length l) (ints_to_bytes be l) = l.
Proof.
  induction 1 as [|v l Hv Hl IH]; [reflexivity|].
  cbn [length bytes_to_ints ints_to_bytes flat_map].
  rewrite take_app_length' by (symmetry; apply int_to_bytes_length).
  rewrite drop_app_length' by (symmetry; apply int_to_bytes_length).
  rewrite bytes_to_int_to_bytes by exact Hv.
  f_equal. exact IH.
Qed.

(** ** The transfer loop *)

Section LoopFacts.
Import Channel.
Context {St : Type}.
Variable prim : St -> Z -> Z -> Z * St.

Lemma sumZ_app l1 l2 : sumZ (l1 ++ l2) = sumZ l1 + sumZ l2.
Proof.
  unfold sumZ. induction l1 as [|x l1 IH]; cbn [foldr app]; [lia|].
  rewrite IH. lia.
Qed.

Lemma sumZ_positive l : Forall positive_call l -> Z.of_nat (length l) <= sumZ l.
Proof.
  unfold sumZ, positive_call.
  induction 1 as [|x l Hx Hl IH]; cbn [foldr length]; lia.
Qed.

(** The run of the loop with the recording stub, from any iteration on. *)
Lemma xfer_loop_recording fuel :
  bounded_prim prim ->
  forall s calls total bytes,
    0 <= total <= bytes -> bytes < SIZE_MOD ->
    (Z.to_nat (bytes - total) < fuel)%nat ->
    exists ex s' more,
      xfer_loop (recording prim) fuel (s, calls) total bytes
        = Some (ex, (s', calls ++ more))
      /\ Forall (fun c => exists s off len, 0 < len /\ fst (prim s off len) = c) more
      /\ match ex with
         | LoopDone t =>
             t = bytes /\ Forall positive_call more /\ total + sumZ more = bytes
         | LoopBroken =>
             exists pre c, more = pre ++ [c] /\ Forall positive_call pre
                           /\ c <= 0 /\ total + sumZ pre < bytes
         end.
Proof.
  unfold positive_call.
  intros Hb. induction fuel as [|fuel IH]; intros s calls total bytes Ht Hsz Hf;
    [lia|].
  cbn [xfer_loop]. destruct (Z.ltb_spec total bytes) as [Hlt|Hge].
  - unfold recording at 1. cbn [fst snd].
    pose proof (Hb s total (bytes - total) ltac:(lia)) as Hle.
    assert (exists s0 off len, 0 < len /\ fst (prim s0 off len)
                                        = fst (prim s total (bytes - total))) as Hres
      by (exists s, total, (bytes - total); split; [lia|reflexivity]).
    destruct (prim s total (bytes - total)) as [r s1] eqn:Hp.
    cbn [fst] in Hle, Hres.
    destruct (Z.leb_spec r 0) as [Hr|Hr].
    + exists LoopBroken, s1, [r]. split; [reflexivity|].
      split; [constructor; [exact Hres|constructor]|].
      exists [], r. repeat split; try constructor; try lia.
      cbn. lia.
    + assert ((total + r) mod SIZE_MOD = total + r) as Hm
        by (apply Z.mod_small; lia).
      rewrite Hm.
      destruct (IH s1 (calls ++ [r]) (total + r) bytes)
        as (ex & s' & more & Hrun & Hall & Hex); [lia|lia|lia|].
      exists ex, s', (r :: more). split.
      { rewrite Hrun. rewrite <- app_assoc. reflexivity. }
      split; [constructor; [exact Hres|exact Hall]|].
      destruct ex as [|t].
      * destruct Hex as (pre & c & -> & Hpre & Hc & Hs).
        exists (r :: pre), c. repeat split; try assumption.
        -- constructor; [exact Hr|exact Hpre].
        -- change (sumZ (r :: pre)) with (r + sumZ pre). lia.
      * destruct Hex as (-> & Hmore & Hs). repeat split.
        -- constructor; [exact Hr|exact Hmore].
        -- change (sumZ (r :: more)) with (r + sumZ more). lia.
  - exists (LoopDone total), s, []. split.
    { rewrite app_nil_r. reflexivity. }
    split; [constructor|].
    repeat split; [lia|constructor|cbn; lia].
Qed.

(** The recording stub does not change what the loop does. *)
Lemma xfer_loop_erase fuel :
  forall s calls total bytes,
    xfer_loop prim fuel s total bytes
    = match xfer_loop (recording prim) fuel (s, calls) total bytes with
      | Some (ex, sl) => Some (ex, fst sl)
      | None => None
      end.
Proof.
  induction fuel as [|fuel IH]; intros s calls total bytes; [reflexivity|].
  cbn [xfer_loop]. destruct (total <? bytes); [|reflexivity].
  unfold recording at 1. cbn [fst snd].
  destruct (prim s total (bytes - total)) as [r s1].
  destruct (r <=? 0); [reflexivity|]. apply IH.
Qed.

Lemma to_ssize_small u : 0 <= u <= SSIZE_MAX -> to_ssize u = u.
Proof.
  unfold to_ssize, SSIZE_MAX, SIZE_MOD. intros Hu.
  rewrite Z.mod_small by lia.
  destruct (Z.ltb_spec u (2 ^ 63)); lia.
Qed.

End LoopFacts.

(** C6. [write_all] and [read_all] (the loop [xfer_all] around a write or
    read primitive that never reports more than it was asked for) return
    -1 exactly when one single call of the primitive gave a zero or
    negative result while fewer bytes than requested had been moved, all
    calls before it having given positive results; positive partial
    results are added up, and when no call fails the value returned is
    the requested byte count, which is the sum of the partial results. *)
Theorem xfer_all_fails_iff_call_fails :
  forall (St : Type) (prim : St -> Z -> Z -> Z * St) (s : St) (bytes : Z),
    0 <= bytes <= SSIZE_MAX ->
    Channel.bounded_prim prim ->
    exists r s' calls,
      Channel.xfer_all prim s bytes = Some (r, s')
      /\ Channel.xfer_all (Channel.recording prim) (s, []) bytes
           = Some (r, (s', calls))
      /\ (r = -1 <->
          exists pre c, calls = pre ++ [c] /\ Forall Channel.positive_call pre
                        /\ c <= 0 /\ Channel.sumZ pre < bytes)
      /\ (r <> -1 ->
          r = bytes /\ Forall Channel.positive_call calls
          /\ Channel.sumZ calls = bytes).
Proof.
  intros St prim s bytes Hb Hprim.
  assert (bytes < SIZE_MOD) as Hsz by (unfold SSIZE_MAX, SIZE_MOD in *; lia).
  destruct (xfer_loop_recording prim (S (Z.to_nat bytes)) Hprim s [] 0 bytes)
    as (ex & s' & calls & Hrun & _ & Hex); [lia|exact Hsz|lia|].
  cbn [app] in Hrun.
  pose proof (xfer_loop_erase prim (S (Z.to_nat bytes)) s [] 0 bytes) as Her.
  rewrite Hrun in Her. cbn [fst] in Her.
  unfold Channel.xfer_all. rewrite Her, Hrun.
  destruct ex as [|t].
  - exists (-1), s', calls.
    split; [reflexivity|]. split; [reflexivity|]. split.
    + split; [intros _|reflexivity].
      destruct Hex as (pre & c & -> & Hpre & Hc & Hs).
      exists pre, c. repeat split; try assumption; lia.
    + intros Hne. contradiction.
  - destruct Hex as (-> & Hpos & Hsum).
    rewrite to_ssize_small by exact Hb.
    exists bytes, s', calls.
    split; [reflexivity|]. split; [reflexivity|]. split.
    + split; [intros ->; lia|].
      intros (pre & c & -> & Hpre & Hc & Hs).
      apply Forall_app in Hpos. destruct Hpos as [_ Hc'].
      inversion Hc' as [|? ? Hc0 _]; subst. unfold Channel.positive_call in Hc0. lia.
    + intros _. repeat split; [exact Hpos|lia].
Qed.

(** Two runs for C6 with a scripted primitive and 8 bytes requested: the
    results 3, 2, 0 make the function return -1 at the third call; the
    results 3, 2, 3 make it return 8. *)
Lemma xfer_all_fails_iff_call_fails_witness :
  Channel.xfer_all Fixture.scripted [3; 2; 0; 5] 8 = Some (-1, [5])
  /\ Channel.xfer_all Fixture.scripted [3; 2; 3; 5] 8 = Some (8, [5])
  /\ exists r s' calls,
      Channel.xfer_all Fixture.scripted [3; 2; 0; 5] 8 = Some (r, s')
      /\ Channel.xfer_all (Channel.recording Fixture.scripted) ([3; 2; 0; 5], []) 8
           = Some (r, (s', calls))
      /\ (r = -1 <->
          exists pre c, calls = pre ++ [c] /\ Forall Channel.positive_call pre
                        /\ c <= 0 /\ Channel.sumZ pre < 8)
      /\ (r <> -1 ->
          r = 8 /\ Forall Channel.positive_call calls
          /\ Channel.sumZ calls = 8).
Proof.
  split; [reflexivity|]. split; [reflexivity|].
  apply (xfer_all_fails_iff_call_fails (list Z) Fixture.scripted [3; 2; 0; 5] 8).
  - unfold SSIZE_MAX. lia.
  - intros s off len Hlen. destruct s; cbn [Fixture.scripted fst]; lia.
Defined.

(** C7. For every requested byte count, when every call of the primitive
    moves at least one byte (and never more than asked), the loop ends
    within [bytes + 1] iterations through [return total] with
    [total = bytes]: the partial results are all positive, they add up to
    the request, and there are at most [bytes] of them. In particular the
    primitive that moves exactly one byte per call completes the
    transfer. *)
Theorem xfer_all_completes_under_progress :
  forall (St : Type) (prim : St -> Z -> Z -> Z * St) (s : St) (bytes : Z),
    0 <= bytes < SIZE_MOD ->
    Channel.bounded_prim prim ->
    Channel.progressing_prim prim ->
    (exists s' calls,
        Channel.xfer_loop prim (S (Z.to_nat bytes)) s 0 bytes
          = Some (Channel.LoopDone bytes, s')
        /\ Channel.xfer_all prim s bytes = Some (to_ssize bytes, s')
        /\ Channel.xfer_loop (Channel.recording prim) (S (Z.to_nat bytes)) (s, []) 0 bytes
             = Some (Channel.LoopDone bytes, (s', calls))
        /\ Forall Channel.positive_call calls
        /\ Channel.sumZ calls = bytes
        /\ Z.of_nat (length calls) <= bytes)
    /\ Channel.xfer_loop Fixture.one_byte (S (Z.to_nat bytes)) tt 0 bytes
         = Some (Channel.LoopDone bytes, tt).
Proof.
  assert (forall (St : Type) (prim : St -> Z -> Z -> Z * St) (s : St) (bytes : Z),
    0 <= bytes < SIZE_MOD ->
    Channel.bounded_prim prim ->
    Channel.progressing_prim prim ->
    exists s' calls,
        Channel.xfer_loop prim (S (Z.to_nat bytes)) s 0 bytes
          = Some (Channel.LoopDone bytes, s')
        /\ Channel.xfer_all prim s bytes = Some (to_ssize bytes, s')
        /\ Channel.xfer_loop (Channel.recording prim) (S (Z.to_nat bytes)) (s, []) 0 bytes
             = Some (Channel.LoopDone bytes, (s', calls))
        /\ Forall Channel.positive_call calls
        /\ Channel.sumZ calls = bytes
        /\ Z.of_nat (length calls) <= bytes) as General.
  { intros St prim s bytes Hb Hbound Hprog.
    destruct (xfer_loop_recording prim (S (Z.to_nat bytes)) Hbound s [] 0 bytes)
      as (ex & s' & calls & Hrun & Hall & Hex); [lia|lia|lia|].
    cbn [app] in Hrun.
    pose proof (xfer_loop_erase prim (S (Z.to_nat bytes)) s [] 0 bytes) as Her.
    rewrite Hrun in Her. cbn [fst] in Her.
    destruct ex as [|t].
    - exfalso. destruct Hex as (pre & c & -> & _ & Hc & _).
      apply Forall_app in Hall. destruct Hall as [_ Hc'].
      inversion Hc' as [|? ? (s0 & off & len & Hlen & Hres) _]; subst.
      pose proof (Hprog s0 off len Hlen). lia.
    - destruct Hex as (-> & Hpos & Hsum).
      exists s', calls. unfold Channel.xfer_all. rewrite Her.
      repeat split; try assumption; try lia.
      pose proof (sumZ_positive calls Hpos). lia. }
  intros St prim s bytes Hb Hbound Hprog. split.
  - apply General; assumption.
  - destruct (General unit Fixture.one_byte tt bytes Hb) as ([] & calls & Hrun & _).
    + intros s0 off len Hlen. cbn. lia.
    + intros s0 off len Hlen. cbn. lia.
    + exact Hrun.
Qed.

(** Two runs for C7: a primitive that moves at most 3 bytes per call, and
    one that moves 1 byte per call, complete a request of 1024 bytes. *)
Lemma xfer_all_completes_under_progress_witness :
  Channel.xfer_all (fun (s : unit) (off len : Z) => (Z.min 3 len, s)) tt 1024
    = Some (1024, tt)
  /\ Channel.xfer_loop Fixture.one_byte (S (Z.to_nat 1024)) tt 0 1024
       = Some (Channel.LoopDone 1024, tt).
Proof.
  pose proof (xfer_all_completes_under_progress unit
                (fun (s : unit) (off len : Z) => (Z.min 3 len, s)) tt 1024) as H.
  destruct H as [(s' & calls & _ & Hall & _) Hone].
  - unfold SIZE_MOD. lia.
  - intros s off len Hlen. cbn [fst]. lia.
  - intros s off len Hlen. cbn [fst]. lia.
  - split; [|exact Hone]. destruct s'. exact Hall.
Defined.

(** The loop always ends within [bytes + 1] iterations when the primitive
    keeps to its contract; so do [write_all] and [read_all], whose
    primitives keep to it whatever the kernel does. *)
Lemma xfer_all_total {St : Type} (prim : St -> Z -> Z -> Z * St) s bytes :
  Channel.bounded_prim prim -> 0 <= bytes < SIZE_MOD ->
  exists r s', Channel.xfer_all prim s bytes = Some (r, s').
Proof.
  intros Hb Hbytes.
  destruct (xfer_loop_recording prim (S (Z.to_nat bytes)) Hb s [] 0 bytes)
    as (ex & s' & calls & Hrun & _); [lia|lia|lia|].
  pose proof (xfer_loop_erase prim (S (Z.to_nat bytes)) s [] 0 bytes) as Her.
  rewrite Hrun in Her. unfold Channel.xfer_all. rewrite Her.
  destruct ex; eexists; eexists; reflexivity.
Qed.

Lemma write_all_never_stuck E fd buf bytes w :
  0 <= bytes < SIZE_MOD -> fst (write_all E fd buf bytes w) <> Stuck.
Proof.
  intros Hbytes. unfold write_all.
  destruct (xfer_all_total (sys_write E fd buf) w bytes) as (r & w' & ->);
    [|exact Hbytes|discriminate].
  intros s off len Hlen. unfold sys_write. cbv zeta.
  destruct (Z.leb_spec (e_kernel E (w_ncalls s) len) 0);
    match goal with
    | |- context [if ?c then (_, _) else (_, _)] => destruct c
    end; cbn [fst]; lia.
Qed.

Lemma read_all_never_stuck E fd buf bytes w :
  0 <= bytes < SIZE_MOD -> fst (read_all E fd buf bytes w) <> Stuck.
Proof.
  intros Hbytes. unfold read_all.
  destruct (xfer_all_total (sys_read E fd) (w, buf) bytes) as (r & [w' b'] & ->);
    [|exact Hbytes|discriminate].
  intros [s b] off len Hlen. unfold sys_read. cbv zeta. cbn [fst snd].
  destruct (Z.leb_spec (e_kernel E (w_ncalls s) len) 0);
    match goal with
    | |- context [if ?c then (_, _) else (_, _)] => destruct c
    end; cbn [fst]; lia.
Qed.

(** ** Reasoning about runs *)

Section Steps.
Local Open Scope proc_scope.
Variable R : world -> world -> Prop.
Context `{!Reflexive R} `{!Transitive R}.

Lemma steps_ret {A} (a : A) : steps R (ret a).
Proof. intros w. cbn. reflexivity. Qed.

Lemma steps_exit {A} st : steps R (@exit A st).
Proof. intros w. cbn. reflexivity. Qed.

Lemma steps_fault {A} : steps R (@fault A).
Proof. intros w. cbn. reflexivity. Qed.

Lemma steps_bind {A B} (m : M A) (k : A -> M B) :
  steps R m -> (forall a, steps R (k a)) -> steps R (bind m k).
Proof.
  intros Hm Hk w. unfold bind. specialize (Hm w).
  destruct (m w) as [[a| | |] w1]; cbn [snd] in *; try exact Hm.
  etransitivity; [exact Hm|apply Hk].
Qed.

Lemma steps_when b (m : M unit) : steps R m -> steps R (when b m).
Proof. intros Hm. destruct b; [exact Hm|apply steps_ret]. Qed.

Lemma steps_for_fold {A} (body : Z -> A -> M A) n :
  forall i acc,
    (forall j a, i <= j < i + Z.of_nat n -> steps R (body j a)) ->
    steps R (for_fold n i acc body).
Proof.
  induction n as [|n IH]; intros i acc Hbody; cbn [for_fold].
  - apply steps_ret.
  - apply steps_bind; [apply Hbody; lia|].
    intros a. apply IH. intros j a' Hj. apply Hbody. lia.
Qed.

(** The transfer loop: what holds of each call of the primitive holds
    of the loop. *)
Lemma steps_xfer_loop {St} (prim : St -> Z -> Z -> Z * St) (proj : St -> world) :
  (forall s off len, R (proj s) (proj (snd (prim s off len)))) ->
  forall fuel s total bytes ex s',
    Channel.xfer_loop prim fuel s total bytes = Some (ex, s') ->
    R (proj s) (proj s').
Proof.
  intros Hprim. induction fuel as [|fuel IH]; intros s total bytes ex s' Hrun;
    [discriminate|].
  cbn [Channel.xfer_loop] in Hrun. destruct (total <? bytes).
  - specialize (Hprim s total (bytes - total)).
    destruct (prim s total (bytes - total)) as [r s1]. cbn [snd] in Hprim.
    destruct (r <=? 0).
    + injection Hrun as _ <-. exact Hprim.
    + etransitivity; [exact Hprim|]. eapply IH. exact Hrun.
  - injection Hrun as _ <-. reflexivity.
Qed.

Lemma steps_write_all E fd buf bytes :
  (forall w off len, R w (snd (sys_write E fd buf w off len))) ->
  steps R (write_all E fd buf bytes).
Proof.
  intros Hprim w. unfold write_all, Channel.xfer_all.
  destruct (Channel.xfer_loop _ _ w 0 bytes) as [[ex w']|] eqn:Hrun;
    [|cbn; reflexivity].
  apply (steps_xfer_loop _ (fun w => w) Hprim) in Hrun.
  destruct ex; exact Hrun.
Qed.

Lemma steps_read_all E fd buf bytes :
  (forall wb off len, R (fst wb) (fst (snd (sys_read E fd wb off len)))) ->
  steps R (read_all E fd buf bytes).
Proof.
  intros Hprim w. unfold read_all, Channel.xfer_all.
  destruct (Channel.xfer_loop _ _ (w, buf) 0 bytes) as [[ex [w' buf']]|] eqn:Hrun;
    [|cbn; reflexivity].
  apply (steps_xfer_loop _ fst Hprim) in Hrun.
  destruct ex; exact Hrun.
Qed.

End Steps.

Global Instance grows_refl P : Reflexive (grows P).
Proof. intros w. exists []. rewrite app_nil_r. split; [reflexivity|constructor]. Qed.

Global Instance grows_trans P : Transitive (grows P).
Proof.
  intros w1 w2 w3 (e1 & H1 & F1) (e2 & H2 & F2). exists (e1 ++ e2).
  rewrite H2, H1, app_assoc. split; [reflexivity|]. apply Forall_app. split; assumption.
Qed.

Global Instance same_transport_refl : Reflexive same_transport.
Proof. intros w. split; reflexivity. Qed.

Global Instance same_transport_trans : Transitive same_transport.
Proof. intros w1 w2 w3 [H1 H2] [H3 H4]. split; congruence. Qed.

Lemma grows_log P e w : P e = true -> grows P w (log e w).
Proof. intros He. exists [e]. split; [reflexivity|]. constructor; [exact He|constructor]. Qed.

Lemma grows_weaken (P Q : event -> bool) w w' :
  (forall e, P e = true -> Q e = true) -> grows P w w' -> grows Q w w'.
Proof.
  intros HPQ (evs & Ht & Hall). exists evs. split; [exact Ht|].
  eapply Forall_impl; [exact Hall|]. exact HPQ.
Qed.

(** *** The effect of each call on the trace *)

Section GrowsAtoms.
Variable P : event -> bool.

Lemma grows_emit e : P e = true -> steps (grows P) (emit e).
Proof. intros He w. apply (grows_log P e w He). Qed.

Lemma grows_scanf_d : steps (grows P) scanf_d.
Proof.
  intros w. unfold scanf_d. destruct (w_stdin w) as [|[v|] rest]; cbn;
    try reflexivity.
  exists []. rewrite app_nil_r. split; [reflexivity|constructor].
Qed.

Lemma grows_sys_unlink E path :
  P (EvUnlink path) = true -> steps (grows P) (sys_unlink E path).
Proof.
  intros He w. unfold sys_unlink. destruct (e_unlink E =? 0); cbn [snd];
    exists [EvUnlink path]; (split; [reflexivity|]);
    (constructor; [exact He|constructor]).
Qed.

Lemma grows_shm_unlink E name :
  P (EvShmUnlink name) = true -> steps (grows P) (shm_unlink E name).
Proof.
  intros He w. unfold shm_unlink. destruct (e_shm_unlink E =? 0); cbn [snd];
    exists [EvShmUnlink name]; (split; [reflexivity|]);
    (constructor; [exact He|constructor]).
Qed.

Lemma grows_shm_open E : steps (grows P) (Shm.shm_open E).
Proof.
  intros w. unfold Shm.shm_open. destruct (e_shm_open E =? -1); cbn [snd];
    exists []; rewrite app_nil_r; (split; [reflexivity|constructor]).
Qed.

Lemma grows_ftruncate E : steps (grows P) (Shm.ftruncate E).
Proof.
  intros w. unfold Shm.ftruncate. destruct (e_ftruncate E =? -1); cbn [snd];
    exists []; rewrite app_nil_r; (split; [reflexivity|constructor]).
Qed.

Lemma grows_store ptr idx v :
  P (EvStore idx v) = true -> steps (grows P) (Shm.store ptr idx v).
Proof.
  intros He w. unfold Shm.store.
  destruct (_ && _); cbn [snd]; exists [EvStore idx v];
    (split; [reflexivity|]); (constructor; [exact He|constructor]).
Qed.

Lemma grows_load ptr idx :
  P (EvLoad idx) = true -> steps (grows P) (Shm.load ptr idx).
Proof.
  intros He w. unfold Shm.load.
  destruct (_ && _); [destruct (w_seg w !! Z.to_nat idx)|]; cbn [snd];
    exists [EvLoad idx]; (split; [reflexivity|]);
    (constructor; [exact He|constructor]).
Qed.

Lemma grows_mkfifo E :
  P (EvMkfifo Fifo.FIFO_PATH (e_mkfifo E)) = true -> steps (grows P) (Fifo.mkfifo E).
Proof.
  intros He w. unfold Fifo.mkfifo. destruct (e_mkfifo E =? -1); cbn [snd];
    eexists [_]; (split; [reflexivity|]);
    (constructor; [exact He|constructor]).
Qed.

Lemma grows_write_all E fd buf bytes :
  (forall r, P (EvWrite fd r) = true) -> steps (grows P) (write_all E fd buf bytes).
Proof.
  intros He. refine (steps_write_all _ _ _ _ _ _).
  intros w off len. unfold sys_write. cbv zeta.
  match goal with
  | |- context [if ?c then (_, _) else (_, _)] => destruct c
  end; cbn [snd]; eexists [_]; (split; [reflexivity|]);
    (constructor; [apply He|constructor]).
Qed.

Lemma grows_read_all E fd buf bytes :
  (forall r, P (EvRead fd r) = true) -> steps (grows P) (read_all E fd buf bytes).
Proof.
  intros He. refine (steps_read_all _ _ _ _ _ _).
  intros [w b] off len. unfold sys_read. cbv zeta. cbn [fst snd].
  match goal with
  | |- context [if ?c then (_, _) else (_, _)] => destruct c
  end; cbn [fst snd]; eexists [_]; (split; [reflexivity|]);
    (constructor; [apply He|constructor]).
Qed.

End GrowsAtoms.

(** Decomposition of a program into its calls. *)
Ltac steps_unfold :=
  unfold handle_error, eprint, check_result, malloc, free, sys_close, sys_wait,
    munmap, int_at, Shm.mmap, Shm.check_pointer, Pipe.check_pointer,
    Fifo.check_pointer, Fifo.sys_open, Shm.cleanup_shm, Fifo.cleanup_fifo, Fifo.close_fd.

Ltac steps_atom :=
  lazymatch goal with
  | |- steps _ scanf_d => apply grows_scanf_d
  | |- steps _ (Shm.shm_open _) => apply grows_shm_open
  | |- steps _ (Shm.ftruncate _) => apply grows_ftruncate
  | |- steps _ (emit _) => apply grows_emit; try reflexivity
  | |- steps _ (sys_unlink _ _) => apply grows_sys_unlink; try reflexivity
  | |- steps _ (shm_unlink _ _) => apply grows_shm_unlink; try reflexivity
  | |- steps _ (Shm.store _ _ _) => apply grows_store; try reflexivity
  | |- steps _ (Shm.load _ _) => apply grows_load; try reflexivity
  | |- steps _ (Fifo.mkfifo _) => apply grows_mkfifo; try reflexivity
  | |- steps _ (write_all _ _ _ _) => apply grows_write_all; try (intros; reflexivity)
  | |- steps _ (read_all _ _ _ _) => apply grows_read_all; try (intros; reflexivity)
  end.

Ltac steps_step :=
  lazymatch goal with
  | |- steps _ (ret _) => refine (steps_ret _ _)
  | |- steps _ (exit _) => refine (steps_exit _ _)
  | |- steps _ fault => refine (steps_fault _)
  | |- steps _ (bind _ _) => refine (steps_bind _ _ _ _ _); [|intros ?]
  | |- steps _ (when ?b _) =>
      first [ change b with false; exact (steps_ret _ tt)
            | refine (steps_when _ _ _ _) ]
  | |- steps _ (for_fold _ _ _ _) =>
      refine (steps_for_fold _ _ _ _ _ _); intros ? ? ?
  | |- steps _ (if ?b then _ else _) => destruct b eqn:?
  | |- steps _ (match ?x with _ => _ end) => destruct x eqn:?
  | |- steps _ _ => first [ steps_atom | progress steps_unfold | progress cbv zeta ]
  end.

Ltac steps_tac := repeat steps_step.

(** ** C8: the peer never removes the name *)

Lemma shm_child_no_unlink E ptr shm_fd :
  steps (grows (fun e => negb (is_unlink e))) (Shm.child_process E ptr shm_fd).
Proof. unfold Shm.child_process. steps_tac. Qed.

Lemma fifo_child_no_unlink E :
  steps (grows (fun e => negb (is_unlink e))) (Fifo.child_process E).
Proof. unfold Fifo.child_process. steps_tac. Qed.

Lemma pipe_child_no_unlink E fd :
  steps (grows (fun e => negb (is_unlink e))) (Pipe.child_process E fd).
Proof. unfold Pipe.child_process. steps_tac. Qed.

(** C8. Whatever the input and whatever the system calls return, the
    child process of the shared-memory program and the child process of
    the FIFO program issue neither [shm_unlink] nor [unlink]: every event
    that [child_process], or the child branch of [main] after the fork,
    adds to the trace is not a removal of a name. (The child calls
    [cleanup_shm] with its third argument 0 on each of its exit paths.) *)
Theorem child_never_unlinks :
  forall (E : env) (ptr : pointer) (shm_fd : Z) (w : world),
    grows (fun e => negb (is_unlink e)) w (snd (Shm.child_process E ptr shm_fd w))
    /\ grows (fun e => negb (is_unlink e)) w (snd (Shm.main_role E ptr shm_fd 0 w))
    /\ grows (fun e => negb (is_unlink e)) w (snd (Fifo.child_process E w))
    /\ grows (fun e => negb (is_unlink e)) w (snd (Fifo.main_role E 0 w)).
Proof.
  intros E ptr shm_fd w. repeat split.
  - apply shm_child_no_unlink.
  - revert w. change (steps (grows (fun e => negb (is_unlink e)))
                        (Shm.main_role E ptr shm_fd 0)).
    unfold Shm.main_role. cbn [Z.eqb]. steps_tac. apply shm_child_no_unlink.
  - apply fifo_child_no_unlink.
  - revert w. change (steps (grows (fun e => negb (is_unlink e)))
                        (Fifo.main_role E 0)).
    unfold Fifo.main_role. cbn [Z.eqb]. steps_tac. apply fifo_child_no_unlink.
Qed.

(** ** C1: the consumer loads only after the wait *)

Lemma loads_after_wait_true t : loads_after_wait true t = true.
Proof. induction t as [|[] t IH]; cbn; auto. Qed.

Lemma loads_after_wait_no_load b t :
  Forall (fun e => negb (is_load e) = true) t -> loads_after_wait b t = true.
Proof.
  induction 1 as [|e t He _ IH]; [reflexivity|].
  destruct e; cbn in *; try exact IH; try discriminate.
  apply loads_after_wait_true.
Qed.

Lemma loads_after_wait_split t :
  loads_after_wait false t = true ->
  forall pre idx post, t = pre ++ EvLoad idx :: post ->
    exists r, EvWait r ∈ pre.
Proof.
  induction t as [|e t IH]; intros Ht pre idx post Heq.
  - destruct pre; discriminate.
  - destruct pre as [|e' pre].
    + cbn in Heq. injection Heq as -> _. cbn in Ht. discriminate.
    + cbn in Heq. injection Heq as <- Heq.
      destruct e as [| | | | | | | | | | | | | | | |r0]; cbn in Ht;
        try (destruct (IH Ht pre idx post Heq) as [r1 Hr]; exists r1;
             apply list_elem_of_further; exact Hr).
      * discriminate.
      * exists r0. apply list_elem_of_here.
Qed.

(** The trace of the shared-memory parent: the wait, then the rest. *)
Lemma shm_parent_trace E ptr shm_fd w :
  exists evs,
    w_trace (snd (Shm.parent_process E ptr shm_fd w))
    = w_trace w ++ EvWait (e_wait E) :: evs.
Proof.
  assert (steps (grows any_event)
            (if negb (e_wait E =? 0)
             then bind (eprint "wait")
                    (fun _ => bind (Shm.cleanup_shm E ptr shm_fd 1)
                                (fun _ => exit EXIT_FAILURE))
             else Shm.parent_read E ptr shm_fd)) as Hrest.
  { unfold Shm.parent_read. steps_tac. }
  specialize (Hrest (log (EvWait (e_wait E)) w)).
  destruct Hrest as (evs & Ht & _). exists evs.
  cbn [w_trace log set_trace] in Ht. rewrite <- app_assoc in Ht. exact Ht.
Qed.

Lemma loads_after_wait_mono t : loads_after_wait false t = true -> forall b, loads_after_wait b t = true.
Proof.
  intros Ht [|]; [apply loads_after_wait_true|exact Ht].
Qed.

Lemma loads_after_wait_seq t1 : forall b t2,
  loads_after_wait b t1 = true -> loads_after_wait false t2 = true ->
  loads_after_wait b (t1 ++ t2) = true.
Proof.
  induction t1 as [|e t1 IH]; intros b t2 H1 H2.
  - apply loads_after_wait_mono. exact H2.
  - destruct e; cbn [loads_after_wait app] in H1 |- *;
      try (apply IH; assumption).
    apply andb_true_iff in H1. destruct H1 as [Hb H1].
    subst b. cbn [andb]. apply IH; assumption.
Qed.

Global Instance wait_first_refl : Reflexive wait_first.
Proof. intros w. exists []. rewrite app_nil_r. split; reflexivity. Qed.

Global Instance wait_first_trans : Transitive wait_first.
Proof.
  intros w1 w2 w3 (e1 & H1 & F1) (e2 & H2 & F2). exists (e1 ++ e2).
  rewrite H2, H1, app_assoc. split; [reflexivity|].
  apply loads_after_wait_seq; assumption.
Qed.

Lemma no_load_wait_first w w' :
  grows (fun e => negb (is_load e)) w w' -> wait_first w w'.
Proof.
  intros (evs & Ht & Hall). exists evs. split; [exact Ht|].
  apply loads_after_wait_no_load. exact Hall.
Qed.

Lemma steps_weaken {A} (R R' : world -> world -> Prop) (m : M A) :
  (forall w w', R w w' -> R' w w') -> steps R m -> steps R' m.
Proof. intros HR Hm w. apply HR, Hm. Qed.

Lemma shm_setup_wait_first E : steps wait_first (Shm.main_setup E).
Proof.
  apply (steps_weaken _ _ _ no_load_wait_first).
  unfold Shm.main_setup. steps_tac.
Qed.

Lemma shm_parent_wait_first E ptr shm_fd :
  steps wait_first (Shm.parent_process E ptr shm_fd).
Proof.
  intros w. destruct (shm_parent_trace E ptr shm_fd w) as [evs Ht].
  exists (EvWait (e_wait E) :: evs). split; [exact Ht|].
  cbn. apply loads_after_wait_true.
Qed.

Lemma shm_role_wait_first E ptr shm_fd pid :
  steps wait_first (Shm.main_role E ptr shm_fd pid).
Proof.
  unfold Shm.main_role.
  refine (steps_bind _ _ _ _ _).
  { apply (steps_weaken _ _ _ no_load_wait_first). steps_tac. }
  intros _. destruct (pid =? -1).
  { apply (steps_weaken _ _ _ no_load_wait_first). steps_tac. }
  destruct (pid =? 0).
  - apply (steps_weaken _ _ _ no_load_wait_first).
    unfold Shm.child_process. steps_tac.
  - refine (steps_bind _ _ _ _ _); [apply shm_parent_wait_first|].
    intros _. refine (steps_ret _ _).
Qed.

Lemma shm_main_wait_first E : steps wait_first (Shm.main E).
Proof.
  unfold Shm.main. refine (steps_bind _ _ _ _ _); [apply shm_setup_wait_first|].
  intros pf. apply shm_role_wait_first.
Qed.

(** The trace of the parent in a session, seen from the first world. *)
Lemma shm_session_wait_first E w0 :
  exists evs, snd (o_parent (Shm.session E w0)) = w_trace w0 ++ evs
              /\ loads_after_wait false evs = true.
Proof.
  unfold Shm.session, Proc.session.
  pose proof (shm_setup_wait_first E w0) as Hs.
  destruct (Shm.main_setup E w0) as [[[ptr fd]| | |] w1]; cbn [snd] in Hs;
    try exact Hs.
  cbn [fst snd].
  destruct (e_fork E =? -1).
  - pose proof (shm_role_wait_first E ptr fd (e_fork E) w1) as Hr.
    destruct (Shm.main_role E ptr fd (e_fork E) w1) as [rp wp]. cbn [snd o_parent] in *.
    apply (wait_first_trans _ _ _ Hs Hr).
  - destruct (Shm.main_role E ptr fd 0 w1) as [rc wc].
    pose proof (shm_role_wait_first E ptr fd (e_fork E) (set_trace (w_trace w1) wc)) as Hr.
    destruct (Shm.main_role E ptr fd (e_fork E) _) as [rp wp]. cbn [snd o_parent] in *.
    destruct Hs as (e1 & H1 & F1). destruct Hr as (e2 & H2 & F2).
    cbn [w_trace set_trace] in H2. exists (e1 ++ e2).
    rewrite H2, H1, app_assoc. split; [reflexivity|].
    apply loads_after_wait_seq; assumption.
Qed.

(** C1. In every run of the shared-memory program from an empty trace --
    the run of [main] in either process, and the parent's part of a whole
    session -- each load from the mapped segment (the count slot or a
    payload slot) has an earlier event in the same trace that is the
    return of [wait]. *)
Theorem shm_consumer_loads_after_wait :
  forall (E : env) (w0 : world) (pre post : list event) (idx : Z),
    w_trace w0 = [] ->
    w_trace (snd (Shm.main E w0)) = pre ++ EvLoad idx :: post
    \/ snd (o_parent (Shm.session E w0)) = pre ++ EvLoad idx :: post ->
    exists r, EvWait r ∈ pre.
Proof.
  intros E w0 pre post idx Hw0 [Hm|Hs].
  - destruct (shm_main_wait_first E w0) as (evs & Ht & Hlaw).
    rewrite Hw0 in Ht. cbn [app] in Ht. rewrite Ht in Hm. subst evs.
    eapply loads_after_wait_split; [exact Hlaw|reflexivity].
  - destruct (shm_session_wait_first E w0) as (evs & Ht & Hlaw).
    rewrite Hw0 in Ht. cbn [app] in Ht. rewrite Ht in Hs. subst evs.
    eapply loads_after_wait_split; [exact Hlaw|reflexivity].
Qed.

(** A run for C1: the parent in an environment in which [wait] gives 0
    loads the count slot after the wait. *)
Lemma shm_consumer_loads_after_wait_witness :
  exists r, EvWait r ∈ [EvFork 4321; EvWait 0].
Proof.
  apply (shm_consumer_loads_after_wait (Fixture.env_ok 1 0) (Fixture.world_of [1; 42])
           [EvFork 4321; EvWait 0]
           [EvStderr "Invalid number of elements in shared memory";
            EvMunmap; EvClose 3; EvShmUnlink "/my_shared_memory"] 0).
  - reflexivity.
  - left. vm_compute. reflexivity.
Defined.

(** ** C10: the accesses to the segment stay inside the mapping *)

Ltac solve_bounds :=
  repeat match goal with
         | H : Shm.bad_count _ = false |- _ => unfold Shm.bad_count in H
         end;
  unfold access_inside, slot_inside, capacity_limit, Shm.BUFFER_SIZE, sizeof_int in *;
  change (1024 / 4) with 256 in *; lia.

Lemma shm_child_inside E ptr shm_fd :
  steps (grows (access_inside Shm.BUFFER_SIZE)) (Shm.child_process E ptr shm_fd).
Proof. unfold Shm.child_process. steps_tac. solve_bounds. Qed.

Lemma shm_parent_inside E ptr shm_fd :
  steps (grows (access_inside Shm.BUFFER_SIZE)) (Shm.parent_process E ptr shm_fd).
Proof. unfold Shm.parent_process, Shm.parent_read. steps_tac. solve_bounds. Qed.

(** C10. In the shared-memory program every store of the child and every
    load of the parent addresses an [int] slot whose four bytes lie inside
    the mapped region of [BUFFER_SIZE] = 1024 bytes. The count check
    admits 1 <= num <= 255, the slots used are 0 .. num, and for num = 255
    the last slot ends exactly at byte 1024; slot 256 would lie outside. *)
Theorem shm_accesses_in_bounds :
  forall (E : env) (ptr : pointer) (shm_fd : Z) (w : world),
    grows (access_inside Shm.BUFFER_SIZE) w (snd (Shm.child_process E ptr shm_fd w))
    /\ grows (access_inside Shm.BUFFER_SIZE) w (snd (Shm.parent_process E ptr shm_fd w))
    /\ (forall num idx, Shm.bad_count num = false ->
          (1 <= num <= capacity_limit Shm.BUFFER_SIZE 1)
          /\ (0 <= idx <= num -> slot_inside Shm.BUFFER_SIZE idx = true))
    /\ capacity_limit Shm.BUFFER_SIZE 1 = 255
    /\ Shm.bad_count 255 = false
    /\ sizeof_int * 255 + sizeof_int = Shm.BUFFER_SIZE
    /\ slot_inside Shm.BUFFER_SIZE 256 = false.
Proof.
  intros E ptr shm_fd w. split; [apply shm_child_inside|].
  split; [apply shm_parent_inside|].
  split; [|repeat split; reflexivity].
  intros num idx Hbad. split; [|intros Hidx]; solve_bounds.
Qed.

(** A run for C10: the largest admitted message, 255 payload values. *)
Lemma shm_accesses_in_bounds_witness :
  (1 <= 255 <= capacity_limit Shm.BUFFER_SIZE 1)
  /\ (0 <= 255 <= 255 -> slot_inside Shm.BUFFER_SIZE 255 = true).
Proof.
  exact (proj1 (proj2 (proj2 (shm_accesses_in_bounds (Fixture.env_ok 1 0) PMapped 3
                                (Fixture.world_of [255]))))
           255 255 eq_refl).
Defined.

(** ** The trace of a role of the FIFO program *)

Lemma fifo_role_trace E pid w :
  exists evs,
    w_trace (snd (Fifo.main_role E pid w)) = w_trace w ++ EvFork pid :: evs.
Proof.
  assert (steps (grows any_event)
            (if pid =? -1
             then bind (eprint "fork")
                    (fun _ => bind (Fifo.cleanup_fifo E) (fun _ => exit EXIT_FAILURE))
             else bind (if pid =? 0 then Fifo.child_process E else Fifo.parent_process E)
                    (fun _ => ret EXIT_SUCCESS))) as Hrest.
  { unfold Fifo.child_process, Fifo.parent_process. steps_tac. }
  specialize (Hrest (log (EvFork pid) w)).
  destruct Hrest as (evs & Ht & _). exists evs.
  cbn [w_trace log set_trace] in Ht. rewrite <- app_assoc in Ht. exact Ht.
Qed.

(** ** Symbolic runs *)

Ltac exec :=
  cbv beta iota zeta delta
    [bind ret exit fault when emit eprint handle_error munmap sys_close sys_wait
     shm_unlink sys_unlink malloc free Shm.cleanup_shm Fifo.close_fd
     Fifo.cleanup_fifo Fifo.sys_open Pipe.check_pointer Fifo.check_pointer
     Shm.check_pointer fst snd].

Ltac split_ifs :=
  repeat match goal with
         | |- context [if ?c then _ else _] => destruct c
         end.

Ltac solve_grows :=
  unfold grows; cbn [w_trace log set_stdin set_trace set_names set_seg set_chan tick];
  rewrite <- ?app_assoc;
  first [ exists []; split; [rewrite app_nil_r; reflexivity|constructor]
        | eexists; split; [reflexivity|cbn [app]; repeat constructor] ].

Ltac solve_quiet :=
  split; [reflexivity|];
  split; [split; reflexivity|solve_grows].

(** ** C5: a bad count is rejected before anything is written *)

Lemma pipe_child_rejects E fd w num rest :
  w_stdin w = Some num :: rest -> Pipe.bad_count num = true ->
  exists w', Pipe.child_process E fd w = (Exit EXIT_FAILURE, w')
             /\ same_transport w w'
             /\ grows (fun e => negb (is_transfer e)) w w'.
Proof.
  intros Hin Hbad. unfold Pipe.child_process. unfold bind at 1. unfold scanf_d.
  rewrite Hin, Hbad. exec. eexists. solve_quiet.
Qed.

Lemma fifo_child_rejects E w num rest :
  w_stdin w = Some num :: rest -> Fifo.bad_count num = true ->
  exists w', Fifo.child_process E w = (Exit EXIT_FAILURE, w')
             /\ same_transport w w'
             /\ grows (fun e => negb (is_transfer e)) w w'.
Proof.
  intros Hin Hbad. unfold Fifo.child_process. unfold bind at 1.
  unfold Fifo.sys_open, bind at 1, emit, ret. cbn [fst snd].
  destruct (e_open E =? -1).
  - exec. eexists. solve_quiet.
  - unfold bind at 1. unfold scanf_d. cbn [w_stdin log set_trace]. rewrite Hin, Hbad.
    exec. split_ifs; eexists; solve_quiet.
Qed.

Lemma shm_child_rejects E ptr shm_fd w num rest :
  w_stdin w = Some num :: rest -> Shm.bad_count num = true ->
  exists w', Shm.child_process E ptr shm_fd w = (Exit EXIT_FAILURE, w')
             /\ same_transport w w'
             /\ grows (fun e => negb (is_transfer e)) w w'.
Proof.
  intros Hin Hbad. unfold Shm.child_process. unfold bind at 1. unfold scanf_d.
  rewrite Hin, Hbad. exec. cbn [Z.eqb negb].
  split_ifs; eexists; solve_quiet.
Qed.

(** C5. When the count read by the producer, an [int], is 0 or negative,
    or greater than the capacity limit of the transport (256 for the pipe
    and the FIFO, 255 for the shared segment, one slot being kept for the
    count), the producer ends with [exit(EXIT_FAILURE)]; the stream and
    the segment are what they were before, and the producer has issued no
    write(2) call and no store to the segment. *)
Theorem producer_rejects_before_write :
  forall (E : env) (w : world) (num : Z) (rest : list (option Z))
         (write_fd : Z) (ptr : pointer) (shm_fd : Z),
    int_range num ->
    w_stdin w = Some num :: rest ->
    (num <= 0 \/ num > capacity_limit Pipe.BUFFER_SIZE 0 ->
       exists w', Pipe.child_process E write_fd w = (Exit EXIT_FAILURE, w')
                  /\ same_transport w w'
                  /\ grows (fun e => negb (is_transfer e)) w w')
    /\ (num <= 0 \/ num > capacity_limit Fifo.BUFFER_SIZE 0 ->
       exists w', Fifo.child_process E w = (Exit EXIT_FAILURE, w')
                  /\ same_transport w w'
                  /\ grows (fun e => negb (is_transfer e)) w w')
    /\ (num <= 0 \/ num > capacity_limit Shm.BUFFER_SIZE 1 ->
       exists w', Shm.child_process E ptr shm_fd w = (Exit EXIT_FAILURE, w')
                  /\ same_transport w w'
                  /\ grows (fun e => negb (is_transfer e)) w w').
Proof.
  intros E w num rest write_fd ptr shm_fd _ Hin. repeat split; intros Hbad.
  - apply (pipe_child_rejects E write_fd w num rest Hin).
    unfold Pipe.bad_count, capacity_limit, Pipe.BUFFER_SIZE, sizeof_int in *.
    change (1024 / 4) with 256 in *. lia.
  - apply (fifo_child_rejects E w num rest Hin).
    unfold Fifo.bad_count, capacity_limit, Fifo.BUFFER_SIZE, sizeof_int in *.
    change (1024 / 4) with 256 in *. lia.
  - apply (shm_child_rejects E ptr shm_fd w num rest Hin).
    unfold Shm.bad_count, capacity_limit, Shm.BUFFER_SIZE, sizeof_int in *.
    change (1024 / 4) with 256 in *. lia.
Qed.

(** Runs for C5: the counts 257 (pipe), 0 (FIFO) and 256 (segment). *)
Lemma producer_rejects_before_write_witness :
  (exists w', Pipe.child_process (Fixture.env_ok 1 0) 4 (Fixture.world_of [257; 1])
              = (Exit EXIT_FAILURE, w')
              /\ same_transport (Fixture.world_of [257; 1]) w'
              /\ grows (fun e => negb (is_transfer e)) (Fixture.world_of [257; 1]) w')
  /\ (exists w', Fifo.child_process (Fixture.env_ok 1 0) (Fixture.world_of [0; 1])
              = (Exit EXIT_FAILURE, w')
              /\ same_transport (Fixture.world_of [0; 1]) w'
              /\ grows (fun e => negb (is_transfer e)) (Fixture.world_of [0; 1]) w')
  /\ (exists w', Shm.child_process (Fixture.env_ok 1 0) PMapped 3 (Fixture.world_of [256; 1])
              = (Exit EXIT_FAILURE, w')
              /\ same_transport (Fixture.world_of [256; 1]) w'
              /\ grows (fun e => negb (is_transfer e)) (Fixture.world_of [256; 1]) w').
Proof.
  split; [|split].
  - apply (proj1 (producer_rejects_before_write (Fixture.env_ok 1 0)
                    (Fixture.world_of [257; 1]) 257 [Some 1] 4 PMapped 3
                    ltac:(unfold int_range; lia) eq_refl)).
    right. vm_compute. reflexivity.
  - apply (proj1 (proj2 (producer_rejects_before_write (Fixture.env_ok 1 0)
                    (Fixture.world_of [0; 1]) 0 [Some 1] 4 PMapped 3
                    ltac:(unfold int_range; lia) eq_refl))).
    left. lia.
  - apply (proj2 (proj2 (producer_rejects_before_write (Fixture.env_ok 1 0)
                    (Fixture.world_of [256; 1]) 256 [Some 1] 4 PMapped 3
                    ltac:(unfold int_range; lia) eq_refl))).
    right. vm_compute. reflexivity.
Defined.

(** ** The stream: complete transfers *)

Lemma printed_app t1 t2 : printed (t1 ++ t2) = printed t1 ++ printed t2.
Proof. unfold printed. apply omap_app. Qed.

Global Instance io_only_refl : Reflexive io_only.
Proof. intros w. repeat split; reflexivity. Qed.

Global Instance io_only_trans : Transitive io_only.
Proof.
  intros w1 w2 w3 (A1 & B1 & C1 & D1) (A2 & B2 & C2 & D2).
  repeat split; congruence.
Qed.

Lemma sys_write_step E fd buf w off len :
  kernel_ok E -> 0 < len ->
  exists n w1,
    sys_write E fd buf w off len = (Z.of_nat n, w1)
    /\ (0 < n)%nat /\ Z.of_nat n <= len
    /\ w_chan w1 = w_chan w ++ take n (drop (Z.to_nat off) buf)
    /\ io_only w w1.
Proof.
  intros Hk Hlen. specialize (Hk (w_ncalls w) len Hlen).
  unfold sys_write. cbv zeta.
  destruct (Z.leb_spec (e_kernel E (w_ncalls w) len) 0) as [Hle|_]; [lia|].
  set (n := Z.min (e_kernel E (w_ncalls w) len) len).
  assert (0 < n <= len) as Hn by (unfold n; lia).
  destruct (Z.leb_spec n 0) as [Hle|_]; [lia|].
  exists (Z.to_nat n). eexists. rewrite Z2Nat.id by lia.
  split; [reflexivity|]. split; [lia|]. split; [lia|].
  split; [reflexivity|]. repeat split.
  cbn [w_trace set_chan log set_trace tick]. rewrite printed_app. cbn.
  apply app_nil_r.
Qed.

Lemma write_loop_ok E fd buf :
  kernel_ok E ->
  Z.of_nat (length buf) < SIZE_MOD ->
  forall fuel w (total : nat),
    (total <= length buf)%nat ->
    (length buf - total < fuel)%nat ->
    exists w',
      Channel.xfer_loop (sys_write E fd buf) fuel w (Z.of_nat total)
        (Z.of_nat (length buf))
      = Some (Channel.LoopDone (Z.of_nat (length buf)), w')
      /\ w_chan w' = w_chan w ++ drop total buf
      /\ io_only w w'.
Proof.
  intros Hk Hsz. induction fuel as [|fuel IH]; intros w total Ht Hf; [lia|].
  cbn [Channel.xfer_loop].
  destruct (Z.ltb_spec (Z.of_nat total) (Z.of_nat (length buf))) as [Hlt|Hge].
  - destruct (sys_write_step E fd buf w (Z.of_nat total)
                (Z.of_nat (length buf) - Z.of_nat total) Hk ltac:(lia))
      as (n & w1 & Hrun & Hn & Hle & Hchan & Hio).
    rewrite Hrun. destruct (Z.leb_spec (Z.of_nat n) 0) as [Hbad|_]; [lia|].
    rewrite Z.mod_small by lia.
    replace (Z.of_nat total + Z.of_nat n) with (Z.of_nat (total + n)) by lia.
    destruct (IH w1 (total + n)%nat ltac:(lia) ltac:(lia)) as (w' & Hloop & Hchan' & Hio').
    exists w'. split; [exact Hloop|]. split.
    + rewrite Hchan', Hchan, Nat2Z.id, <- app_assoc. f_equal.
      rewrite <- drop_drop. apply take_drop.
    + etransitivity; eassumption.
  - assert (total = length buf) as -> by lia.
    exists w. split; [reflexivity|]. split; [|reflexivity].
    rewrite drop_all, app_nil_r. reflexivity.
Qed.

Lemma write_all_ok E fd buf w :
  kernel_ok E ->
  Z.of_nat (length buf) <= SSIZE_MAX ->
  exists w',
    write_all E fd buf (Z.of_nat (length buf)) w = (Ret (Z.of_nat (length buf)), w')
    /\ w_chan w' = w_chan w ++ buf
    /\ io_only w w'.
Proof.
  intros Hk Hsz. unfold write_all, Channel.xfer_all.
  destruct (write_loop_ok E fd buf Hk ltac:(unfold SSIZE_MAX, SIZE_MOD in *; lia)
              (S (Z.to_nat (Z.of_nat (length buf)))) w 0%nat ltac:(lia) ltac:(lia))
    as (w' & Hloop & Hchan & Hio).
  change (Z.of_nat 0) with 0 in Hloop. rewrite Hloop.
  rewrite to_ssize_small by lia.
  exists w'. split; [reflexivity|]. split; [exact Hchan|exact Hio].
Qed.

Lemma sys_read_step E fd w b off len :
  kernel_ok E -> 0 < len -> len <= Z.of_nat (length (w_chan w)) ->
  exists n w1,
    sys_read E fd (w, b) off len
    = (Z.of_nat n, (w1, splice b off (take n (w_chan w))))
    /\ (0 < n)%nat /\ Z.of_nat n <= len
    /\ w_chan w1 = drop n (w_chan w)
    /\ io_only w w1.
Proof.
  intros Hk Hlen Havail. specialize (Hk (w_ncalls w) len Hlen).
  unfold sys_read. cbv zeta. cbn [fst snd].
  destruct (Z.leb_spec (e_kernel E (w_ncalls w) len) 0) as [Hle|_]; [lia|].
  set (n := Z.min (Z.min (e_kernel E (w_ncalls w) len) len) _).
  assert (0 < n <= len) as Hn by (unfold n; lia).
  destruct (Z.leb_spec n 0) as [Hle|_]; [lia|].
  exists (Z.to_nat n). eexists. rewrite Z2Nat.id by lia.
  split; [reflexivity|]. split; [lia|]. split; [lia|].
  split; [reflexivity|]. repeat split.
  cbn [w_trace set_chan log set_trace tick]. rewrite printed_app. cbn.
  apply app_nil_r.
Qed.

Lemma read_loop_ok E fd (bytes : nat) :
  kernel_ok E ->
  Z.of_nat bytes < SIZE_MOD ->
  forall fuel w b (total : nat),
    (total <= bytes)%nat ->
    (bytes - total <= length (w_chan w))%nat ->
    (bytes <= length b)%nat ->
    (bytes - total < fuel)%nat ->
    exists w',
      Channel.xfer_loop (sys_read E fd) fuel (w, b) (Z.of_nat total) (Z.of_nat bytes)
      = Some (Channel.LoopDone (Z.of_nat bytes),
              (w', take total b ++ take (bytes - total) (w_chan w) ++ drop bytes b))
      /\ w_chan w' = drop (bytes - total) (w_chan w)
      /\ io_only w w'.
Proof.
  intros Hk Hsz. induction fuel as [|fuel IH]; intros w b total Ht Hav Hb Hf; [lia|].
  cbn [Channel.xfer_loop].
  destruct (Z.ltb_spec (Z.of_nat total) (Z.of_nat bytes)) as [Hlt|Hge].
  - destruct (sys_read_step E fd w b (Z.of_nat total)
                (Z.of_nat bytes - Z.of_nat total) Hk ltac:(lia) ltac:(lia))
      as (n & w1 & Hrun & Hn & Hle & Hchan & Hio).
    rewrite Hrun. destruct (Z.leb_spec (Z.of_nat n) 0) as [Hbad|_]; [lia|].
    rewrite Z.mod_small by lia.
    replace (Z.of_nat total + Z.of_nat n) with (Z.of_nat (total + n)) by lia.
    set (c := w_chan w) in *.
    assert (length (take n c) = n) as Hlen_chunk by (apply length_take_le; lia).
    set (b1 := splice b (Z.of_nat total) (take n c)).
    assert (b1 = (take total b ++ take n c) ++ drop (total + n) b) as Hb1.
    { unfold b1, splice. rewrite Nat2Z.id, Hlen_chunk, <- app_assoc. reflexivity. }
    assert (length (take total b ++ take n c) = (total + n)%nat) as Hpre.
    { rewrite length_app, Hlen_chunk, length_take_le by lia. reflexivity. }
    destruct (IH w1 b1 (total + n)%nat) as (w' & Hloop & Hchan' & Hio').
    { lia. }
    { rewrite Hchan, length_drop. lia. }
    { rewrite Hb1, length_app, Hpre, length_drop. lia. }
    { lia. }
    exists w'. split; [|split].
    + rewrite Hloop. f_equal. f_equal. f_equal.
      rewrite Hchan. rewrite Hb1 at 1.
      rewrite take_app_length' by (symmetry; exact Hpre).
      rewrite Hb1, drop_app_ge by lia. rewrite Hpre, drop_drop.
      replace (total + n + (bytes - (total + n)))%nat with bytes by lia.
      rewrite <- !app_assoc. f_equal. rewrite app_assoc. f_equal.
      rewrite take_take_drop. f_equal. lia.
    + rewrite Hchan', Hchan, drop_drop. f_equal. lia.
    + etransitivity; eassumption.
  - assert (total = bytes) as -> by lia.
    exists w. rewrite Nat.sub_diag, take_0, drop_0, app_nil_l, take_drop.
    split; [reflexivity|]. split; reflexivity.
Qed.

Lemma read_all_ok E fd (bytes : nat) buf w :
  kernel_ok E ->
  Z.of_nat bytes <= SSIZE_MAX ->
  (bytes <= length (w_chan w))%nat ->
  length buf = bytes ->
  exists w',
    read_all E fd buf (Z.of_nat bytes) w
    = (Ret (Z.of_nat bytes, take bytes (w_chan w)), w')
    /\ w_chan w' = drop bytes (w_chan w)
    /\ io_only w w'.
Proof.
  intros Hk Hsz Hav Hlen. unfold read_all, Channel.xfer_all.
  destruct (read_loop_ok E fd bytes Hk ltac:(unfold SSIZE_MAX, SIZE_MOD in *; lia)
              (S (Z.to_nat (Z.of_nat bytes))) w buf 0%nat
              ltac:(lia) ltac:(lia) ltac:(lia) ltac:(lia))
    as (w' & Hloop & Hchan & Hio).
  change (Z.of_nat 0) with 0 in Hloop. rewrite Hloop.
  rewrite to_ssize_small by lia.
  rewrite Nat.sub_0_r, take_0, app_nil_l in *.
  rewrite drop_ge, app_nil_r by lia.
  exists w'. split; [reflexivity|]. split; [exact Hchan|exact Hio].
Qed.

(** ** The loops of the producers and consumers *)

Lemma set_stdin_same w : set_stdin (w_stdin w) w = w.
Proof. destruct w. reflexivity. Qed.

(** The loop that reads the payload from the terminal into [arr]. *)
Lemma scan_loop (body : Z -> list Z -> M (list Z)) :
  (forall i arr w v rest,
      w_stdin w = Some v :: rest ->
      body i arr w = (Ret (<[Z.to_nat i := v]> arr), set_stdin rest w)) ->
  forall payload (i : nat) arr w rest,
    w_stdin w = map Some payload ++ rest ->
    (i + length payload <= length arr)%nat ->
    for_fold (length payload) (Z.of_nat i) arr body w
    = (Ret (take i arr ++ payload ++ drop (i + length payload) arr),
       set_stdin rest w).
Proof.
  intros Hbody. induction payload as [|v p IH]; intros i arr w rest Hin Hlen.
  - cbn [length for_fold map app] in *. unfold ret.
    rewrite Nat.add_0_r, take_drop, <- Hin, set_stdin_same. reflexivity.
  - cbn [length for_fold map app] in *. unfold bind.
    rewrite (Hbody _ _ _ _ _ Hin).
    replace (Z.of_nat i + 1) with (Z.of_nat (S i)) by lia.
    rewrite (IH (S i) _ _ rest); [|reflexivity|rewrite length_insert; lia].
    rewrite Nat2Z.id. f_equal. f_equal.
    rewrite (insert_take_drop arr i v) by lia.
    assert (length (take i arr ++ [v]) = S i) as HA
      by (rewrite length_app, length_take_le by lia; cbn [length]; lia).
    rewrite (cons_middle v (take i arr) (drop (S i) arr)).
    rewrite (app_assoc (take i arr) [v] (drop (S i) arr)).
    rewrite take_app_length' by (symmetry; exact HA).
    rewrite drop_app_ge by lia. rewrite HA, drop_drop.
    replace (S i + (S i + length p - S i))%nat with (i + S (length p))%nat by lia.
    rewrite <- app_assoc. reflexivity.
Qed.

Lemma ints_to_bytes_chunk be l : forall (i : nat) v,
  l !! i = Some v ->
  take 4 (drop (4 * i) (ints_to_bytes be l)) = int_to_bytes be v.
Proof.
  induction l as [|x l IH]; intros i v Hi; [discriminate|].
  unfold ints_to_bytes in *. cbn [flat_map]. destruct i as [|i].
  - cbn in Hi. injection Hi as ->. rewrite Nat.mul_0_r, drop_0.
    apply take_app_length'. symmetry. apply int_to_bytes_length.
  - cbn in Hi. rewrite drop_app_ge by (rewrite int_to_bytes_length; lia).
    rewrite int_to_bytes_length.
    replace (4 * S i - 4)%nat with (4 * i)%nat by lia.
    apply IH. exact Hi.
Qed.

Lemma int_at_ints E l (i : nat) v :
  l !! i = Some v -> int_range v ->
  int_at E (ints_to_bytes (e_big_endian E) l) (Z.of_nat i) = ret v.
Proof.
  intros Hi Hv. unfold int_at.
  assert (i < length l)%nat as Hlt by (eapply lookup_lt_Some; exact Hi).
  rewrite ints_to_bytes_length. unfold sizeof_int.
  destruct (Z.leb_spec 0 (Z.of_nat i)) as [_|]; [|lia].
  destruct (Z.leb_spec (4 * Z.of_nat i + 4) (Z.of_nat (4 * length l))) as [_|]; [|lia].
  cbn [andb].
  replace (Z.to_nat (4 * Z.of_nat i)) with (4 * i)%nat by lia.
  rewrite (ints_to_bytes_chunk _ _ _ _ Hi), bytes_to_int_to_bytes by exact Hv.
  reflexivity.
Qed.

(** The loop that prints the [int] array held in the read buffer. *)
Lemma print_loop E l :
  Forall int_range l ->
  forall (n i : nat) w,
    (i + n <= length l)%nat ->
    for_fold n (Z.of_nat i) tt
      (fun i _ => bind (int_at E (ints_to_bytes (e_big_endian E) l) i)
                    (fun v => emit (EvPrint v))) w
    = (Ret tt, set_trace (w_trace w ++ map EvPrint (take n (drop i l))) w).
Proof.
  intros Hl. induction n as [|n IH]; intros i w Hlen.
  - cbn [for_fold take map]. unfold ret. rewrite app_nil_r.
    destruct w; reflexivity.
  - cbn [for_fold].
    destruct (lookup_lt_is_Some_2 l i ltac:(lia)) as [v Hv].
    assert (int_range v) as Hr.
    { eapply Forall_lookup_1; [exact Hl|exact Hv]. }
    unfold bind at 1. unfold bind at 1.
    rewrite (int_at_ints E l i v Hv Hr). unfold ret at 1. unfold emit at 1.
    replace (Z.of_nat i + 1) with (Z.of_nat (S i)) by lia.
    rewrite IH by lia. cbn [w_trace log set_trace w_stdin w_seg w_chan w_ncalls w_names].
    rewrite (drop_S l v i Hv). cbn [take map].
    rewrite <- app_assoc. reflexivity.
Qed.

(** ** The pipe: producer and consumer on a well-formed message *)

Lemma size_mul_int_small num : 0 <= num < 2 ^ 32 -> size_mul_int num = 4 * num.
Proof.
  intros H. unfold size_mul_int, to_size, SIZE_MOD, sizeof_int.
  rewrite (Z.mod_small num) by lia. rewrite Z.mod_small by lia. lia.
Qed.

Ltac scan_body :=
  let Hin := fresh "Hin" in
  intros ? ? ? ? ? Hin; unfold bind, scanf_d; rewrite Hin; reflexivity.

Lemma pipe_child_ok E fd w num payload :
  kernel_ok E ->
  e_malloc E (size_mul_int num) = true ->
  1 <= num <= 256 ->
  Z.of_nat (length payload) = num ->
  w_stdin w = Some num :: map Some payload ->
  exists wc,
    Pipe.child_process E fd w = (Ret tt, wc)
    /\ w_chan wc = w_chan w ++ int_to_bytes (e_big_endian E) num
                            ++ ints_to_bytes (e_big_endian E) payload
    /\ w_seg wc = w_seg w /\ w_names wc = w_names w
    /\ printed (w_trace wc) = printed (w_trace w).
Proof.
  intros Hk Hmalloc Hnum Hlen Hin.
  unfold Pipe.child_process. unfold bind at 1. unfold scanf_d at 1. rewrite Hin.
  assert (Pipe.bad_count num = false) as ->
    by (unfold Pipe.bad_count, Pipe.BUFFER_SIZE, sizeof_int;
        change (1024 / 4) with 256; lia).
  unfold bind at 1. unfold malloc at 1. unfold bind at 1, emit at 1, ret at 1.
  rewrite Hmalloc. cbv beta iota.
  unfold bind at 1. unfold Pipe.check_pointer at 1, ret at 1. cbv beta iota.
  unfold bind at 1.
  replace (Z.to_nat (to_size num)) with (length payload)
    by (unfold to_size, SIZE_MOD; rewrite Z.mod_small by lia; lia).
  match goal with
  | |- context [for_fold _ _ _ ?body _] =>
      rewrite (scan_loop body ltac:(scan_body) payload 0%nat _ _ [])
  end;
    [|cbn [w_stdin set_stdin log set_trace]; rewrite app_nil_r; reflexivity
     |rewrite length_replicate; lia].
  cbv beta iota.
  rewrite take_0, app_nil_l, drop_ge, app_nil_r by (rewrite length_replicate; lia).
  match goal with |- context [bind _ _ ?w0] => set (w1 := w0) end.
  assert (w_chan w1 = w_chan w /\ w_seg w1 = w_seg w /\ w_names w1 = w_names w
          /\ printed (w_trace w1) = printed (w_trace w)) as (Hc1 & Hs1 & Hn1 & Hp1).
  { subst w1. cbn [w_chan w_seg w_names w_trace set_stdin log set_trace]. repeat split.
    rewrite printed_app. apply app_nil_r. }
  clearbody w1.
  unfold bind at 1.
  destruct (write_all_ok E fd (int_to_bytes (e_big_endian E) num) w1 Hk)
    as (w2 & Hrun2 & Hchan2 & Hio2).
  { rewrite int_to_bytes_length. unfold SSIZE_MAX. lia. }
  rewrite int_to_bytes_length in Hrun2. change (Z.of_nat 4) with sizeof_int in Hrun2.
  rewrite Hrun2. change (sizeof_int =? -1) with false. cbv beta iota.
  unfold bind at 1.
  destruct (write_all_ok E fd (ints_to_bytes (e_big_endian E) payload) w2 Hk)
    as (w3 & Hrun3 & Hchan3 & Hio3).
  { rewrite ints_to_bytes_length. unfold SSIZE_MAX. lia. }
  rewrite ints_to_bytes_length in Hrun3.
  replace (Z.of_nat (4 * length payload)) with (size_mul_int num) in Hrun3
    by (rewrite size_mul_int_small; lia).
  rewrite Hrun3.
  assert ((size_mul_int num =? -1) = false) as ->
    by (rewrite size_mul_int_small; lia).
  eexists. split; [reflexivity|].
  destruct Hio2 as (A2 & B2 & C2 & D2). destruct Hio3 as (A3 & B3 & C3 & D3).
  cbn [w_chan w_seg w_names w_trace log set_trace].
  rewrite Hchan3, Hchan2, Hc1, <- app_assoc. repeat split; try congruence.
  rewrite printed_app. cbn. rewrite app_nil_r. congruence.
Qed.

Lemma name_removed (x : string) (X : gset string) : x ∉ X ∖ {[ x ]}.
Proof.
  intros Hin. apply elem_of_difference in Hin. destruct Hin as [_ Hnot].
  apply Hnot. apply elem_of_singleton. reflexivity.
Qed.

Lemma printed_single e :
  printed [e] = match e with EvPrint v => [v] | _ => [] end.
Proof. destruct e; reflexivity. Qed.

Lemma printed_map_print l : printed (map EvPrint l) = l.
Proof. induction l as [|v l IH]; [reflexivity|]. cbn. f_equal. exact IH. Qed.

Lemma pipe_parent_ok E fd w num payload rest :
  kernel_ok E ->
  e_malloc E (size_mul_int num) = true ->
  0 <= num < 2 ^ 29 ->
  Z.of_nat (length payload) = num ->
  Forall int_range payload ->
  w_chan w = int_to_bytes (e_big_endian E) num
             ++ ints_to_bytes (e_big_endian E) payload ++ rest ->
  exists wp,
    Pipe.parent_process E fd w
    = (if to_int (e_wait E) =? -1 then Exit EXIT_FAILURE else Ret tt, wp)
    /\ printed (w_trace wp) = printed (w_trace w) ++ payload
    /\ w_chan wp = rest.
Proof.
  intros Hk Hmalloc Hnum Hlen Hpay Hchan.
  assert (int_range num) as Hrange by (unfold int_range; lia).
  unfold Pipe.parent_process. unfold bind at 1.
  destruct (read_all_ok E fd 4 (replicate 4 0) w Hk) as (w2 & Hrun2 & Hchan2 & Hio2).
  { unfold SSIZE_MAX. lia. }
  { rewrite Hchan, length_app, int_to_bytes_length. lia. }
  { reflexivity. }
  change (Z.of_nat 4) with sizeof_int in Hrun2. rewrite Hrun2.
  rewrite Hchan in *.
  rewrite take_app_length' in * by (symmetry; apply int_to_bytes_length).
  rewrite drop_app_length' in Hchan2 by (symmetry; apply int_to_bytes_length).
  cbv beta iota zeta. cbn [fst snd].
  rewrite bytes_to_int_to_bytes by exact Hrange.
  unfold bind at 1. unfold check_result at 1.
  change (to_int sizeof_int =? -1) with false. unfold ret at 1. cbv beta iota.
  unfold bind at 1. unfold malloc at 1. unfold bind at 1, emit at 1, ret at 1.
  rewrite Hmalloc. cbv beta iota.
  unfold bind at 1. unfold Pipe.check_pointer at 1, ret at 1. cbv beta iota.
  match goal with |- context [bind _ _ ?w0] => set (w3 := w0) end.
  assert (w_chan w3 = ints_to_bytes (e_big_endian E) payload ++ rest
          /\ printed (w_trace w3) = printed (w_trace w)) as (Hc3 & Hp3).
  { subst w3. cbn [w_chan w_trace log set_trace]. split; [exact Hchan2|].
    rewrite printed_app. cbn. rewrite app_nil_r. apply Hio2. }
  clearbody w3.
  unfold bind at 1.
  assert (size_mul_int num = Z.of_nat (4 * length payload)) as Hsize
    by (rewrite size_mul_int_small; lia).
  rewrite Hsize.
  destruct (read_all_ok E fd (4 * length payload)
              (replicate (Z.to_nat (Z.of_nat (4 * length payload))) 0) w3 Hk)
    as (w4 & Hrun4 & Hchan4 & Hio4).
  { unfold SSIZE_MAX. lia. }
  { rewrite Hc3, length_app, ints_to_bytes_length. lia. }
  { rewrite length_replicate. lia. }
  rewrite Hrun4. rewrite Hc3 in *.
  rewrite take_app_length' in * by (symmetry; apply ints_to_bytes_length).
  rewrite drop_app_length' in Hchan4 by (symmetry; apply ints_to_bytes_length).
  cbv beta iota. cbn [fst snd].
  unfold bind at 1. unfold check_result at 1.
  assert ((to_int (Z.of_nat (4 * length payload)) =? -1) = false) as ->.
  { unfold to_int, INT_MOD. rewrite Z.mod_small by lia.
    destruct (Z.ltb_spec (Z.of_nat (4 * length payload)) (2 ^ 31)); lia. }
  unfold ret at 1. cbv beta iota.
  unfold bind at 1.
  replace (Z.to_nat (to_size num)) with (length payload)
    by (unfold to_size, SIZE_MOD; rewrite Z.mod_small by lia; lia).
  pose proof (print_loop E payload Hpay (length payload) 0%nat w4 ltac:(lia)) as Hpl.
  change (Z.of_nat 0) with 0 in Hpl. rewrite Hpl.
  rewrite drop_0, firstn_all.
  exec. unfold check_result.
  destruct (to_int (e_wait E) =? -1); exec; eexists; (split; [reflexivity|]);
    cbn [w_trace w_chan log set_trace]; (split; [|exact Hchan4]);
    rewrite ?printed_app; cbn [printed omap];
    destruct Hio4 as (_ & _ & _ & ->); rewrite Hp3, printed_map_print;
    cbn; rewrite ?app_nil_r; reflexivity.
Qed.

(** ** The FIFO: producer and consumer on a well-formed message *)

Lemma fifo_child_ok E w num payload :
  kernel_ok E ->
  e_open E <> -1 ->
  e_malloc E (size_mul_int num) = true ->
  1 <= num <= 256 ->
  Z.of_nat (length payload) = num ->
  w_stdin w = Some num :: map Some payload ->
  exists wc,
    Fifo.child_process E w = (Ret tt, wc)
    /\ w_chan wc = w_chan w ++ int_to_bytes (e_big_endian E) num
                            ++ ints_to_bytes (e_big_endian E) payload
    /\ w_seg wc = w_seg w /\ w_names wc = w_names w
    /\ printed (w_trace wc) = printed (w_trace w).
Proof.
  intros Hk Hopen Hmalloc Hnum Hlen Hin.
  unfold Fifo.child_process. unfold bind at 1. unfold Fifo.sys_open at 1.
  unfold bind at 1, emit at 1, ret at 1. cbv beta iota.
  destruct (Z.eqb_spec (e_open E) (-1)) as [|_]; [contradiction|].
  unfold bind at 1. unfold scanf_d at 1. cbn [w_stdin log set_trace]. rewrite Hin.
  assert (Fifo.bad_count num = false) as ->
    by (unfold Fifo.bad_count, Fifo.BUFFER_SIZE, sizeof_int;
        change (1024 / 4) with 256; lia).
  unfold bind at 1. unfold malloc at 1. unfold bind at 1, emit at 1, ret at 1.
  rewrite Hmalloc. cbv beta iota.
  unfold bind at 1. unfold Fifo.check_pointer at 1, ret at 1. cbv beta iota.
  unfold bind at 1.
  replace (Z.to_nat (to_size num)) with (length payload)
    by (unfold to_size, SIZE_MOD; rewrite Z.mod_small by lia; lia).
  match goal with
  | |- context [for_fold _ _ _ ?body _] =>
      rewrite (scan_loop body ltac:(scan_body) payload 0%nat _ _ [])
  end;
    [|cbn [w_stdin set_stdin log set_trace]; rewrite app_nil_r; reflexivity
     |rewrite length_replicate; lia].
  cbv beta iota zeta.
  rewrite take_0, app_nil_l, drop_ge, app_nil_r by (rewrite length_replicate; lia).
  match goal with |- context [bind _ _ ?w0] => set (w1 := w0) end.
  assert (w_chan w1 = w_chan w /\ w_seg w1 = w_seg w /\ w_names w1 = w_names w
          /\ printed (w_trace w1) = printed (w_trace w)) as (Hc1 & Hs1 & Hn1 & Hp1).
  { subst w1. cbn [w_chan w_seg w_names w_trace set_stdin log set_trace]. repeat split.
    rewrite !printed_app. cbn. rewrite !app_nil_r. reflexivity. }
  clearbody w1.
  unfold bind at 1.
  destruct (write_all_ok E (e_open E) (int_to_bytes (e_big_endian E) num) w1 Hk)
    as (w2 & Hrun2 & Hchan2 & Hio2).
  { rewrite int_to_bytes_length. unfold SSIZE_MAX. lia. }
  rewrite int_to_bytes_length in Hrun2. change (Z.of_nat 4) with sizeof_int in Hrun2.
  rewrite Hrun2. change (sizeof_int =? -1) with false. cbv beta iota.
  unfold bind at 1.
  destruct (write_all_ok E (e_open E) (ints_to_bytes (e_big_endian E) payload) w2 Hk)
    as (w3 & Hrun3 & Hchan3 & Hio3).
  { rewrite ints_to_bytes_length. unfold SSIZE_MAX. lia. }
  rewrite ints_to_bytes_length in Hrun3.
  replace (Z.of_nat (4 * length payload)) with (size_mul_int num) in Hrun3
    by (rewrite size_mul_int_small; lia).
  rewrite Hrun3.
  assert ((size_mul_int num =? -1) = false) as ->
    by (rewrite size_mul_int_small; lia).
  destruct Hio2 as (A2 & B2 & C2 & D2). destruct Hio3 as (A3 & B3 & C3 & D3).
  exec. split_ifs; eexists; (split; [reflexivity|]);
    cbn [w_chan w_seg w_names w_trace log set_trace];
    rewrite Hchan3, Hchan2, Hc1, <- app_assoc; repeat split; try congruence;
    rewrite !printed_app; cbn; rewrite !app_nil_r; congruence.
Qed.

Lemma fifo_parent_ok E w num payload rest :
  kernel_ok E ->
  e_open E <> -1 ->
  e_malloc E (size_mul_int num) = true ->
  0 <= num < 2 ^ 29 ->
  Z.of_nat (length payload) = num ->
  Forall int_range payload ->
  w_chan w = int_to_bytes (e_big_endian E) num
             ++ ints_to_bytes (e_big_endian E) payload ++ rest ->
  exists wp,
    Fifo.parent_process E w = (Ret tt, wp)
    /\ printed (w_trace wp) = printed (w_trace w) ++ payload
    /\ w_chan wp = rest
    /\ (e_unlink E = 0 -> Fifo.FIFO_PATH ∉ w_names wp).
Proof.
  intros Hk Hopen Hmalloc Hnum Hlen Hpay Hchan.
  assert (int_range num) as Hrange by (unfold int_range; lia).
  unfold Fifo.parent_process. unfold bind at 1. unfold Fifo.sys_open at 1.
  unfold bind at 1, emit at 1, ret at 1. cbv beta iota.
  destruct (Z.eqb_spec (e_open E) (-1)) as [|_]; [contradiction|].
  match goal with |- context [bind _ _ ?w0] => set (w1 := w0) end.
  assert (w_chan w1 = w_chan w /\ printed (w_trace w1) = printed (w_trace w))
    as (Hc1 & Hp1).
  { subst w1. cbn [w_chan w_trace log set_trace]. split; [reflexivity|].
    rewrite printed_app. cbn. apply app_nil_r. }
  clearbody w1. rewrite <- Hc1 in Hchan. clear Hc1.
  unfold bind at 1.
  destruct (read_all_ok E (e_open E) 4 (replicate 4 0) w1 Hk)
    as (w2 & Hrun2 & Hchan2 & Hio2).
  { unfold SSIZE_MAX. lia. }
  { rewrite Hchan, length_app, int_to_bytes_length. lia. }
  { reflexivity. }
  change (Z.of_nat 4) with sizeof_int in Hrun2. rewrite Hrun2.
  rewrite Hchan in *.
  rewrite take_app_length' in * by (symmetry; apply int_to_bytes_length).
  rewrite drop_app_length' in Hchan2 by (symmetry; apply int_to_bytes_length).
  cbv beta iota zeta. cbn [fst snd].
  change (sizeof_int =? -1) with false. cbv beta iota.
  rewrite bytes_to_int_to_bytes by exact Hrange.
  unfold bind at 1. unfold malloc at 1. unfold bind at 1, emit at 1, ret at 1.
  rewrite Hmalloc. cbv beta iota. cbn [negb].
  match goal with |- context [bind _ _ ?w0] => set (w3 := w0) end.
  assert (w_chan w3 = ints_to_bytes (e_big_endian E) payload ++ rest
          /\ printed (w_trace w3) = printed (w_trace w)) as (Hc3 & Hp3).
  { subst w3. cbn [w_chan w_trace log set_trace]. split; [exact Hchan2|].
    rewrite printed_app. cbn. rewrite app_nil_r.
    destruct Hio2 as (_ & _ & _ & ->). exact Hp1. }
  clearbody w3.
  unfold bind at 1.
  assert (size_mul_int num = Z.of_nat (4 * length payload)) as Hsize
    by (rewrite size_mul_int_small; lia).
  rewrite Hsize.
  destruct (read_all_ok E (e_open E) (4 * length payload)
              (replicate (Z.to_nat (Z.of_nat (4 * length payload))) 0) w3 Hk)
    as (w4 & Hrun4 & Hchan4 & Hio4).
  { unfold SSIZE_MAX. lia. }
  { rewrite Hc3, length_app, ints_to_bytes_length. lia. }
  { rewrite length_replicate. lia. }
  rewrite Hrun4. rewrite Hc3 in *.
  rewrite take_app_length' in * by (symmetry; apply ints_to_bytes_length).
  rewrite drop_app_length' in Hchan4 by (symmetry; apply ints_to_bytes_length).
  cbv beta iota. cbn [fst snd].
  assert ((Z.of_nat (4 * length payload) =? -1) = false) as -> by lia.
  unfold bind at 1.
  replace (Z.to_nat (to_size num)) with (length payload)
    by (unfold to_size, SIZE_MOD; rewrite Z.mod_small by lia; lia).
  pose proof (print_loop E payload Hpay (length payload) 0%nat w4 ltac:(lia)) as Hpl.
  change (Z.of_nat 0) with 0 in Hpl. rewrite Hpl.
  rewrite drop_0, firstn_all.
  destruct Hio4 as (_ & _ & _ & Hp4).
  exec.
  destruct (Z.eqb_spec (e_unlink E) 0) as [Hu|Hu];
    split_ifs; eexists; (split; [reflexivity|]);
    cbn [w_trace w_chan w_names log set_trace set_names];
    (split; [|split; [exact Hchan4|]]);
    try (rewrite ?printed_app, ?printed_single, Hp4, Hp3, printed_map_print;
         cbv beta iota; rewrite ?app_nil_r; reflexivity);
    try (intros _; apply name_removed); try (intros Hu'; contradiction).
Qed.

(** ** The segment: producer and consumer on a well-formed message *)

Lemma fill_step (arr : list Z) (i : nat) v p :
  (i + S (length p) <= length arr)%nat ->
  take (S i) (<[i := v]> arr) ++ p ++ drop (S i + length p) (<[i := v]> arr)
  = take i arr ++ v :: p ++ drop (i + S (length p)) arr.
Proof.
  intros Hlen. rewrite (insert_take_drop arr i v) by lia.
  assert (length (take i arr ++ [v]) = S i) as HA
    by (rewrite length_app, length_take_le by lia; cbn [length]; lia).
  rewrite (cons_middle v (take i arr) (drop (S i) arr)).
  rewrite (app_assoc (take i arr) [v] (drop (S i) arr)).
  rewrite take_app_length' by (symmetry; exact HA).
  rewrite drop_app_ge by lia. rewrite HA, drop_drop.
  replace (S i + (S i + length p - S i))%nat with (i + S (length p))%nat by lia.
  rewrite <- app_assoc. reflexivity.
Qed.

Lemma printed_store_events i l : printed (store_events i l) = [].
Proof. revert i. induction l as [|v l IH]; intros i; [reflexivity|]. cbn. apply IH. Qed.

(** The loop of the child that stores the payload in the slots after
    slot [i]. *)
Lemma store_loop E shm_fd : forall payload (i : nat) w rest,
  w_stdin w = map Some payload ++ rest ->
  (i + 1 + length payload <= length (w_seg w))%nat ->
  exists w',
    for_fold (length payload) (Z.of_nat i) tt
      (fun i _ =>
         bind scanf_d (fun t =>
           match t with
           | None =>
               bind (eprint "Invalid input.")
                 (fun _ => bind (Shm.cleanup_shm E PMapped shm_fd 0)
                             (fun _ => exit EXIT_FAILURE))
           | Some v => Shm.store PMapped (i + 1) v
           end)) w
    = (Ret tt, w')
    /\ w_seg w' = take (i + 1) (w_seg w) ++ payload
                    ++ drop (i + 1 + length payload) (w_seg w)
    /\ w_stdin w' = rest
    /\ w_chan w' = w_chan w /\ w_names w' = w_names w
    /\ w_trace w' = w_trace w ++ store_events (Z.of_nat i + 1) payload.
Proof.
  induction payload as [|v p IH]; intros i w rest Hin Hlen.
  - cbn [length for_fold map app store_events] in *. unfold ret. exists w.
    rewrite Nat.add_0_r, take_drop, app_nil_r. repeat split. exact Hin.
  - cbn [length for_fold map app store_events] in *.
    unfold bind at 1. unfold bind at 1. unfold scanf_d at 1. rewrite Hin.
    unfold Shm.store at 1. cbv zeta. cbn [Shm.mapped w_seg set_stdin log set_trace andb].
    destruct (Z.leb_spec 0 (Z.of_nat i + 1)) as [_|]; [|lia].
    destruct (Z.ltb_spec (Z.of_nat i + 1) (Z.of_nat (length (w_seg w)))) as [_|]; [|lia].
    cbn [andb].
    replace (Z.of_nat i + 1) with (Z.of_nat (S i)) by lia. rewrite Nat2Z.id.
    match goal with |- context [for_fold _ _ _ _ ?w0] => set (w1 := w0) end.
    destruct (IH (S i) w1 rest) as (w' & Hrun & Hseg & Hst & Hch & Hnm & Htr).
    { reflexivity. }
    { subst w1. cbn [w_seg set_seg]. rewrite length_insert. lia. }
    exists w'. split; [exact Hrun|].
    subst w1. cbn [w_seg w_chan w_names w_trace set_seg set_stdin log set_trace] in *.
    rewrite Hseg, Htr. replace (S i + 1)%nat with (S (S i)) by lia.
    replace (i + 1)%nat with (S i) by lia.
    repeat split; try assumption.
    + rewrite (fill_step (w_seg w) (S i) v p) by lia.
      repeat f_equal. 
    + rewrite <- app_assoc. cbn [app]. repeat f_equal; lia.
Qed.


Lemma filter_transfer_stores i l :
  filter (fun e => is_transfer e = true) (store_events i l) = store_events i l.
Proof.
  revert i. induction l as [|x l IHl]; intros i; [reflexivity|].
  cbn [store_events]. rewrite filter_cons_True by reflexivity.
  f_equal. apply IHl.
Qed.

Lemma shm_child_ok E shm_fd w num payload :
  1 <= num <= 255 ->
  Z.of_nat (length payload) = num ->
  w_stdin w = Some num :: map Some payload ->
  Z.of_nat (length (w_seg w)) = 256 ->
  exists wc,
    Shm.child_process E PMapped shm_fd w = (Ret tt, wc)
    /\ w_seg wc = num :: payload ++ drop (1 + length payload) (w_seg w)
    /\ w_chan wc = w_chan w /\ w_names wc = w_names w
    /\ printed (w_trace wc) = printed (w_trace w)
    /\ filter (fun e => is_transfer e = true) (w_trace wc)
       = filter (fun e => is_transfer e = true) (w_trace w)
         ++ store_events 0 (num :: payload).
Proof.
  intros Hnum Hlen Hin Hseg.
  unfold Shm.child_process. unfold bind at 1. unfold scanf_d at 1. rewrite Hin.
  assert (Shm.bad_count num = false) as ->
    by (unfold Shm.bad_count, Shm.BUFFER_SIZE, sizeof_int;
        change (1024 / 4) with 256; lia).
  unfold bind at 1. unfold Shm.store at 1. cbv zeta.
  cbn [Shm.mapped w_seg set_stdin log set_trace andb].
  destruct (Z.ltb_spec 0 (Z.of_nat (length (w_seg w)))) as [_|]; [|lia].
  change (0 <=? 0) with true. cbn [andb]. change (Z.to_nat 0) with 0%nat.
  unfold bind at 1.
  replace (Z.to_nat num) with (length payload) by lia.
  match goal with |- context [for_fold _ _ _ _ ?w0] => set (w1 := w0) end.
  destruct (store_loop E shm_fd payload 0%nat w1 [])
    as (w2 & Hrun & Hseg2 & Hst & Hch & Hnm & Htr).
  { subst w1. cbn [w_stdin set_seg]. rewrite app_nil_r. reflexivity. }
  { subst w1. cbn [w_seg set_seg]. rewrite length_insert. lia. }
  change (Z.of_nat 0) with 0 in Hrun. rewrite Hrun.
  subst w1. cbn [w_seg w_chan w_names w_trace set_seg set_stdin log set_trace] in *.
  change (0 + 1) with 1 in Htr.
  assert (w_trace w2 = w_trace w ++ store_events 0 (num :: payload)) as Htr2.
  { rewrite Htr, <- app_assoc. reflexivity. }
  assert (w_seg w2 = num :: payload ++ drop (1 + length payload) (w_seg w)) as Hseg3.
  { rewrite Hseg2. destruct (w_seg w) as [|x seg]; [cbn in Hseg; lia|].
    reflexivity. }
  clear Htr Hseg2.
  exec. cbn [Z.eqb negb].
  split_ifs; eexists; (split; [reflexivity|]);
    cbn [w_seg w_chan w_names w_trace log set_trace];
    rewrite ?Htr2; (split; [exact Hseg3|]); (split; [exact Hch|]);
    (split; [exact Hnm|]); split;
    rewrite <- ?app_assoc;
    rewrite ?printed_app, ?filter_app, ?printed_store_events, ?filter_transfer_stores;
    rewrite ?app_nil_r; try reflexivity.
Qed.

(** The loop of the parent that loads and prints the slots after slot [i]. *)
Lemma load_print_loop : forall (n i : nat) w,
  (i + 1 + n <= length (w_seg w))%nat ->
  exists w',
    for_fold n (Z.of_nat i) tt
      (fun i _ => bind (Shm.load PMapped (i + 1)) (fun v => emit (EvPrint v))) w
    = (Ret tt, w')
    /\ printed (w_trace w') = printed (w_trace w) ++ take n (drop (i + 1) (w_seg w))
    /\ w_seg w' = w_seg w /\ w_chan w' = w_chan w /\ w_names w' = w_names w.
Proof.
  induction n as [|n IH]; intros i w Hlen.
  - cbn [for_fold take]. exists w. rewrite app_nil_r. repeat split.
  - cbn [for_fold]. unfold bind at 1. unfold bind at 1. unfold Shm.load at 1.
    cbv zeta. cbn [Shm.mapped andb].
    destruct (Z.leb_spec 0 (Z.of_nat i + 1)) as [_|]; [|lia].
    replace (Z.to_nat (Z.of_nat i + 1)) with (i + 1)%nat by lia.
    destruct (lookup_lt_is_Some_2 (w_seg w) (i + 1) ltac:(lia)) as [v Hv].
    rewrite Hv. unfold emit at 1.
    replace (Z.of_nat i + 1) with (Z.of_nat (S i)) by lia.
    match goal with |- context [for_fold _ _ _ _ ?w0] => set (w1 := w0) end.
    destruct (IH (S i) w1) as (w' & Hrun & Hpr & Hsg & Hch & Hnm).
    { subst w1. cbn [w_seg log set_trace]. lia. }
    exists w'. split; [exact Hrun|].
    subst w1. cbn [w_seg w_chan w_names w_trace log set_trace] in *.
    rewrite Hpr, !printed_app, !printed_single. cbv beta iota.
    rewrite app_nil_r, <- app_assoc. cbn [app].
    rewrite (drop_S (w_seg w) v (i + 1) Hv). cbn [take].
    replace (S (i + 1)) with (S i + 1)%nat by lia.
    repeat split; assumption.
Qed.

Lemma shm_parent_read_ok E shm_fd w num payload tail :
  1 <= num <= 255 ->
  Z.of_nat (length payload) = num ->
  w_seg w = num :: payload ++ tail ->
  exists wp,
    Shm.parent_read E PMapped shm_fd w = (Ret tt, wp)
    /\ printed (w_trace wp) = printed (w_trace w) ++ payload
    /\ w_seg wp = w_seg w
    /\ (e_shm_unlink E = 0 -> Shm.SHM_NAME ∉ w_names wp).
Proof.
  intros Hnum Hlen Hseg.
  unfold Shm.parent_read. unfold bind at 1. unfold Shm.load at 1.
  cbv zeta. cbn [Shm.mapped andb]. change (0 <=? 0) with true.
  change (Z.to_nat 0) with 0%nat. rewrite Hseg. cbn [lookup list_lookup].
  assert (Shm.bad_count num = false) as ->
    by (unfold Shm.bad_count, Shm.BUFFER_SIZE, sizeof_int;
        change (1024 / 4) with 256; lia).
  unfold bind at 1.
  replace (Z.to_nat num) with (length payload) by lia.
  match goal with |- context [for_fold _ _ _ _ ?w0] => set (w1 := w0) end.
  destruct (load_print_loop (length payload) 0%nat w1)
    as (w2 & Hrun & Hpr & Hsg & Hch & Hnm).
  { subst w1. cbn [w_seg log set_trace]. rewrite Hseg. cbn [length].
    rewrite length_app. lia. }
  change (Z.of_nat 0) with 0 in Hrun. rewrite Hrun.
  subst w1. cbn [w_seg w_chan w_names w_trace log set_trace] in *.
  rewrite Hseg in Hpr. change (0 + 1)%nat with 1%nat in Hpr. cbn [drop] in Hpr.
  rewrite drop_0, take_app_length, printed_app, printed_single in Hpr.
  cbv beta iota in Hpr. rewrite app_nil_r in Hpr.
  rewrite <- Hseg. rewrite <- Hsg.
  exec. cbn [Z.eqb negb].
  destruct (Z.eqb_spec (e_shm_unlink E) 0) as [Hu|Hu];
    split_ifs; eexists; (split; [reflexivity|]);
    cbn [w_seg w_trace w_names log set_trace set_names];
    (split; [|split; [reflexivity|]]);
    try (rewrite ?printed_app, ?printed_single, Hpr;
         cbv beta iota; rewrite ?app_nil_r; reflexivity);
    try (intros _; apply name_removed); try (intros Hu'; contradiction).
Qed.

(** ** The wait of the shared-memory consumer *)

(** Whenever [wait] returns something other than 0 -- the pid of the
    child on success, -1 on failure -- the parent takes the branch that
    reports a failed wait: it exits with [EXIT_FAILURE] without loading
    from the segment and without printing. *)
Lemma shm_parent_stops_unless_wait_is_zero E ptr shm_fd w :
  e_wait E <> 0 ->
  exists wp,
    Shm.parent_process E ptr shm_fd w = (Exit EXIT_FAILURE, wp)
    /\ grows (fun e => negb (is_load e) && negb (uses_message e)) w wp.
Proof.
  intros Hwait. unfold Shm.parent_process. unfold bind at 1. unfold sys_wait at 1.
  unfold bind at 1, emit at 1, ret at 1.
  destruct (Z.eqb_spec (e_wait E) 0) as [|_]; [contradiction|].
  cbn [negb]. exec. cbn [Z.eqb negb].
  split_ifs; eexists; (split; [reflexivity|solve_grows]).
Qed.

(** When [wait] returns 0 the parent goes on to the statements that
    read the segment. *)
Lemma shm_parent_waited E ptr shm_fd w :
  e_wait E = 0 ->
  Shm.parent_process E ptr shm_fd w
  = Shm.parent_read E ptr shm_fd (log (EvWait 0) w).
Proof.
  intros Hwait. unfold Shm.parent_process. unfold bind at 1. unfold sys_wait at 1.
  unfold bind at 1, emit at 1, ret at 1. rewrite Hwait. reflexivity.
Qed.

Lemma printed_unused t :
  Forall (fun e => negb (is_load e) && negb (uses_message e) = true) t ->
  printed t = [].
Proof.
  induction 1 as [|e t He _ IH]; [reflexivity|].
  change (e :: t) with ([e] ++ t). rewrite printed_app, IH, app_nil_r.
  destruct e; try reflexivity. cbn in He. discriminate.
Qed.

Lemma no_loads_unused t :
  Forall (fun e => negb (is_load e) && negb (uses_message e) = true) t ->
  Forall (fun e => is_load e = false) t.
Proof.
  intros H. eapply Forall_impl; [exact H|].
  intros e He. cbv beta in He. destruct (is_load e); [discriminate|reflexivity].
Qed.

(** ** C3: what the producer sends is what the consumer observes *)

(** C3. For every count from 1 up to the capacity limit of the transport
    and every payload of that many [int] values, when no read or write
    call fails (and [malloc] and [open] succeed): the pipe or FIFO
    producer puts on the stream the four bytes of the count followed by
    four bytes per value, in host byte order; decoding these bytes gives
    back the count and the payload; and the consumer, run on what the
    producer left, prints exactly the payload and ends normally. For the
    segment the producer stores the count in slot 0 and the values in the
    slots after it; the consumer, run on what the producer left, prints
    exactly the payload and returns only when its [wait] returns 0, and
    for every other result of [wait] -- the pid of the child or -1, all a
    call of [wait] can give -- it exits with [EXIT_FAILURE] without a
    load from the segment and without printing: it does not observe the
    message. *)
Theorem message_round_trip :
  forall (E : env) (num : Z) (payload : list Z) (w : world) (shm_fd : Z),
    kernel_ok E ->
    e_malloc E (size_mul_int num) = true ->
    e_open E <> -1 ->
    Z.of_nat (length payload) = num ->
    Forall int_range payload ->
    w_stdin w = Some num :: map Some payload ->
    w_chan w = [] ->
    Z.of_nat (length (w_seg w)) = 256 ->
    (1 <= num <= capacity_limit Pipe.BUFFER_SIZE 0 ->
       exists wc wp,
         Pipe.child_process E Pipe.fd_write w = (Ret tt, wc)
         /\ w_chan wc = int_to_bytes (e_big_endian E) num
                        ++ ints_to_bytes (e_big_endian E) payload
         /\ bytes_to_int (e_big_endian E) (take 4 (w_chan wc)) = num
         /\ bytes_to_ints (e_big_endian E) (length payload) (drop 4 (w_chan wc))
            = payload
         /\ Pipe.parent_process E Pipe.fd_read (set_trace [] wc)
            = (if to_int (e_wait E) =? -1 then Exit EXIT_FAILURE else Ret tt, wp)
         /\ printed (w_trace wp) = payload
         /\ w_chan wp = [])
    /\ (1 <= num <= capacity_limit Fifo.BUFFER_SIZE 0 ->
       exists wc wp,
         Fifo.child_process E w = (Ret tt, wc)
         /\ w_chan wc = int_to_bytes (e_big_endian E) num
                        ++ ints_to_bytes (e_big_endian E) payload
         /\ Fifo.parent_process E (set_trace [] wc) = (Ret tt, wp)
         /\ printed (w_trace wp) = payload
         /\ w_chan wp = [])
    /\ (1 <= num <= capacity_limit Shm.BUFFER_SIZE 1 ->
       exists wc,
         Shm.child_process E PMapped shm_fd w = (Ret tt, wc)
         /\ w_seg wc = num :: payload ++ drop (1 + length payload) (w_seg w)
         /\ (e_wait E = 0 ->
             exists wp,
               Shm.parent_process E PMapped shm_fd (set_trace [] wc) = (Ret tt, wp)
               /\ printed (w_trace wp) = payload)
         /\ (e_wait E <> 0 ->
             exists wp,
               Shm.parent_process E PMapped shm_fd (set_trace [] wc)
               = (Exit EXIT_FAILURE, wp)
               /\ printed (w_trace wp) = []
               /\ Forall (fun e => is_load e = false) (w_trace wp))).
Proof.
  intros E num payload w shm_fd Hk Hmalloc Hopen Hlen Hpay Hin Hchan Hseg.
  unfold capacity_limit, Pipe.BUFFER_SIZE, Fifo.BUFFER_SIZE, Shm.BUFFER_SIZE, sizeof_int.
  change (1024 / 4 - 0) with 256. change (1024 / 4 - 1) with 255.
  assert (int_range num -> bytes_to_int (e_big_endian E)
            (take 4 (int_to_bytes (e_big_endian E) num
                     ++ ints_to_bytes (e_big_endian E) payload)) = num) as Hcount.
  { intros Hr. rewrite take_app_length' by (symmetry; apply int_to_bytes_length).
    apply bytes_to_int_to_bytes. exact Hr. }
  assert (bytes_to_ints (e_big_endian E) (length payload)
            (drop 4 (int_to_bytes (e_big_endian E) num
                     ++ ints_to_bytes (e_big_endian E) payload)) = payload) as Hvals.
  { rewrite drop_app_length' by (symmetry; apply int_to_bytes_length).
    apply bytes_to_ints_to_bytes. exact Hpay. }
  split; [|split]; intros Hnum.
  - destruct (pipe_child_ok E Pipe.fd_write w num payload Hk Hmalloc Hnum Hlen Hin)
      as (wc & Hrun & Hc & _).
    rewrite Hchan in Hc. cbn [app] in Hc.
    destruct (pipe_parent_ok E Pipe.fd_read (set_trace [] wc) num payload []
                Hk Hmalloc ltac:(lia) Hlen Hpay)
      as (wp & Hrunp & Hpr & Hcp).
    { cbn [w_chan set_trace]. rewrite Hc, app_nil_r. reflexivity. }
    exists wc, wp. rewrite Hc. split; [exact Hrun|]. split; [reflexivity|].
    split; [apply Hcount; unfold int_range; lia|]. split; [exact Hvals|].
    split; [exact Hrunp|]. split; [exact Hpr|exact Hcp].
  - destruct (fifo_child_ok E w num payload Hk Hopen Hmalloc Hnum Hlen Hin)
      as (wc & Hrun & Hc & _).
    rewrite Hchan in Hc. cbn [app] in Hc.
    destruct (fifo_parent_ok E (set_trace [] wc) num payload []
                Hk Hopen Hmalloc ltac:(lia) Hlen Hpay)
      as (wp & Hrunp & Hpr & Hcp & _).
    { cbn [w_chan set_trace]. rewrite Hc, app_nil_r. reflexivity. }
    exists wc, wp. split; [exact Hrun|]. split; [exact Hc|].
    split; [exact Hrunp|]. split; [exact Hpr|exact Hcp].
  - destruct (shm_child_ok E shm_fd w num payload Hnum Hlen Hin Hseg)
      as (wc & Hrun & Hs & _).
    exists wc. split; [exact Hrun|]. split; [exact Hs|]. split.
    + intros Hwait. rewrite (shm_parent_waited E PMapped shm_fd _ Hwait).
      destruct (shm_parent_read_ok E shm_fd (log (EvWait 0) (set_trace [] wc))
                  num payload (drop (1 + length payload) (w_seg w)) Hnum Hlen)
        as (wp & Hrunp & Hpr & _).
      { cbn [w_seg log set_trace]. exact Hs. }
      exists wp. split; [exact Hrunp|]. rewrite Hpr. reflexivity.
    + intros Hwait.
      destruct (shm_parent_stops_unless_wait_is_zero E PMapped shm_fd
                  (set_trace [] wc) Hwait)
        as (wp & Hrunp & evs & Ht & Hall).
      cbn [w_trace set_trace app] in Ht.
      exists wp. split; [exact Hrunp|]. rewrite Ht.
      split; [apply printed_unused; exact Hall|apply no_loads_unused; exact Hall].
Qed.

(** Runs for C3, the scenario of the design document: the producer sends
    the count 3 and the payload 10, 20, 30; the kernel moves at most 3
    bytes per call and [wait] returns the pid of the child, 4321. Over
    the pipe the consumer prints 10, 20, 30; over the segment the
    producer stores the message and the consumer exits with
    [EXIT_FAILURE], having printed nothing. *)
Lemma message_round_trip_witness :
  (exists wc wp,
      Pipe.child_process (Fixture.env_ok 3 4321) Pipe.fd_write
        (Fixture.world_seg [3; 10; 20; 30]) = (Ret tt, wc)
      /\ w_chan wc = int_to_bytes false 3 ++ ints_to_bytes false [10; 20; 30]
      /\ bytes_to_int false (take 4 (w_chan wc)) = 3
      /\ bytes_to_ints false 3 (drop 4 (w_chan wc)) = [10; 20; 30]
      /\ Pipe.parent_process (Fixture.env_ok 3 4321) Pipe.fd_read (set_trace [] wc)
         = (Ret tt, wp)
      /\ printed (w_trace wp) = [10; 20; 30]
      /\ w_chan wp = [])
  /\ (exists wc wp,
      Shm.child_process (Fixture.env_ok 3 4321) PMapped 3
        (Fixture.world_seg [3; 10; 20; 30]) = (Ret tt, wc)
      /\ take 4 (w_seg wc) = [3; 10; 20; 30]
      /\ Shm.parent_process (Fixture.env_ok 3 4321) PMapped 3 (set_trace [] wc)
         = (Exit EXIT_FAILURE, wp)
      /\ printed (w_trace wp) = []
      /\ Forall (fun e => is_load e = false) (w_trace wp)).
Proof.
  pose proof (message_round_trip (Fixture.env_ok 3 4321) 3 [10; 20; 30]
                (Fixture.world_seg [3; 10; 20; 30]) 3
                ltac:(intros k len Hlen; cbn; lia)
                eq_refl
                ltac:(cbn; lia)
                eq_refl
                ltac:(repeat constructor; unfold int_range; lia)
                eq_refl eq_refl eq_refl) as (Hpipe & _ & Hshm).
  split.
  - apply Hpipe. vm_compute. split; discriminate.
  - destruct Hshm as (wc & Hrun & Hseg & _ & Hstop);
      [vm_compute; split; discriminate|].
    destruct Hstop as (wp & Hrunp & Hpr & Hload); [cbn; discriminate|].
    exists wc, wp. split; [exact Hrun|]. split; [rewrite Hseg; reflexivity|].
    split; [exact Hrunp|]. split; [exact Hpr|exact Hload].
Defined.

(** The same scenario as one session of the pipe program: both processes
    end normally and the parent prints 10, 20, 30. *)
Example pipe_session_scenario :
  let o := Pipe.session (Fixture.env_ok 3 4321) (Fixture.world_seg [3; 10; 20; 30]) in
  option_map fst (o_child o) = Some (Ret 0)
  /\ fst (o_parent o) = Ret 0
  /\ printed (snd (o_parent o)) = [10; 20; 30].
Proof. vm_compute. repeat split. Qed.

(** ** C4: validation of the count by the consumer *)

Lemma shm_parent_read_rejects E shm_fd w num :
  w_seg w !! 0%nat = Some num -> Shm.bad_count num = true ->
  exists wp, Shm.parent_read E PMapped shm_fd w = (Exit EXIT_FAILURE, wp)
             /\ grows (fun e => negb (uses_message e)) w wp.
Proof.
  intros Hslot Hbad. unfold Shm.parent_read. unfold bind at 1.
  unfold Shm.load at 1. cbv zeta. cbn [Shm.mapped andb].
  change (0 <=? 0) with true. change (Z.to_nat 0) with 0%nat.
  rewrite Hslot, Hbad. exec. cbn [Z.eqb negb].
  split_ifs; eexists; (split; [reflexivity|solve_grows]).
Qed.

(** The pipe consumer takes the count 257, which is above the capacity
    limit 256, as it comes: it allocates, reads and prints 257 values and
    ends normally. *)
Lemma pipe_consumer_accepts_count_257 :
  257 > capacity_limit Pipe.BUFFER_SIZE 0
  /\ exists wp,
      Pipe.parent_process (Fixture.env_ok 4096 4321) Pipe.fd_read
        (Fixture.world_chan (int_to_bytes false 257
                             ++ ints_to_bytes false (replicate 257 7)))
      = (Ret tt, wp)
      /\ printed (w_trace wp) = replicate 257 7.
Proof.
  split; [vm_compute; reflexivity|].
  destruct (pipe_parent_ok (Fixture.env_ok 4096 4321) Pipe.fd_read
              (Fixture.world_chan (int_to_bytes false 257
                                   ++ ints_to_bytes false (replicate 257 7)))
              257 (replicate 257 7) [])
    as (wp & Hrun & Hpr & _).
  - intros k len Hlen. cbn. lia.
  - reflexivity.
  - lia.
  - rewrite length_replicate. reflexivity.
  - apply Forall_replicate. unfold int_range. lia.
  - cbn [w_chan Fixture.world_chan e_big_endian Fixture.env_ok].
    rewrite app_nil_r. reflexivity.
  - exists wp. split; [exact Hrun|exact Hpr].
Qed.

(** C4, as the code has it. Only the consumer of the shared-memory
    program checks the count: when slot 0 holds a count that is 0 or
    negative or above 255, the parent that got past its wait reports the
    error and exits with [EXIT_FAILURE], and between the load of slot 0
    and the exit it neither allocates, nor loads a payload slot, nor
    prints. The pipe and the FIFO consumer have no such check: a count of
    0, or a count above the capacity limit 256, followed by that many
    values, is allocated, read and printed like any other. *)
Theorem consumer_count_validation :
  forall (E : env) (shm_fd : Z) (w : world) (num : Z) (payload : list Z),
    (w_seg w !! 0%nat = Some num ->
     num <= 0 \/ num > capacity_limit Shm.BUFFER_SIZE 1 ->
     e_wait E = 0 ->
     exists wp,
       Shm.parent_process E PMapped shm_fd w = (Exit EXIT_FAILURE, wp)
       /\ grows (fun e => negb (uses_message e)) w wp)
    /\ (kernel_ok E ->
        e_malloc E (size_mul_int num) = true ->
        e_open E <> -1 ->
        num = 0 \/ capacity_limit Pipe.BUFFER_SIZE 0 < num < 2 ^ 29 ->
        Z.of_nat (length payload) = num ->
        Forall int_range payload ->
        w_chan w = int_to_bytes (e_big_endian E) num
                   ++ ints_to_bytes (e_big_endian E) payload ->
        (exists wp,
            Pipe.parent_process E Pipe.fd_read w
            = (if to_int (e_wait E) =? -1 then Exit EXIT_FAILURE else Ret tt, wp)
            /\ printed (w_trace wp) = printed (w_trace w) ++ payload)
        /\ (exists wp,
               Fifo.parent_process E w = (Ret tt, wp)
               /\ printed (w_trace wp) = printed (w_trace w) ++ payload)).
Proof.
  intros E shm_fd w num payload. split.
  - intros Hslot Hbad Hwait.
    assert (Shm.bad_count num = true) as Hbc.
    { unfold Shm.bad_count, capacity_limit, Shm.BUFFER_SIZE, sizeof_int in *.
      change (1024 / 4) with 256 in *. lia. }
    unfold Shm.parent_process. unfold bind at 1. unfold sys_wait at 1.
    unfold bind at 1, emit at 1, ret at 1. rewrite Hwait.
    change (negb (0 =? 0)) with false. cbv beta iota.
    destruct (shm_parent_read_rejects E shm_fd (log (EvWait 0) w) num Hslot Hbc)
      as (wp & Hrun & Hg).
    exists wp. split; [exact Hrun|].
    transitivity (log (EvWait 0) w); [apply grows_log; reflexivity|exact Hg].
  - intros Hk Hmalloc Hopen Hnum Hlen Hpay Hchan.
    assert (0 <= num < 2 ^ 29) as Hrange.
    { unfold capacity_limit, Pipe.BUFFER_SIZE, sizeof_int in Hnum.
      change (1024 / 4 - 0) with 256 in Hnum. lia. }
    split.
    + destruct (pipe_parent_ok E Pipe.fd_read w num payload []
                  Hk Hmalloc Hrange Hlen Hpay)
        as (wp & Hrun & Hpr & _).
      { rewrite app_nil_r. exact Hchan. }
      exists wp. split; [exact Hrun|exact Hpr].
    + destruct (fifo_parent_ok E w num payload []
                  Hk Hopen Hmalloc Hrange Hlen Hpay)
        as (wp & Hrun & Hpr & _).
      { rewrite app_nil_r. exact Hchan. }
      exists wp. split; [exact Hrun|exact Hpr].
Qed.

(** Runs for C4: the segment holds the count 300; the stream holds the
    count 0. *)
Lemma consumer_count_validation_witness :
  (exists wp,
      Shm.parent_process (Fixture.env_ok 1 0) PMapped 3
        (World [] (300 :: replicate 255 0) [] 0 ∅ [])
      = (Exit EXIT_FAILURE, wp)
      /\ grows (fun e => negb (uses_message e))
           (World [] (300 :: replicate 255 0) [] 0 ∅ []) wp)
  /\ (exists wp,
         Pipe.parent_process (Fixture.env_ok 1 4321) Pipe.fd_read
           (Fixture.world_chan (int_to_bytes false 0))
         = (Ret tt, wp)
         /\ printed (w_trace wp) = []).
Proof.
  split.
  - apply (proj1 (consumer_count_validation (Fixture.env_ok 1 0) 3
                    (World [] (300 :: replicate 255 0) [] 0 ∅ []) 300 [])).
    + reflexivity.
    + right. vm_compute. reflexivity.
    + reflexivity.
  - apply (proj1 (proj2 (consumer_count_validation (Fixture.env_ok 1 4321) 3
                           (Fixture.world_chan (int_to_bytes false 0)) 0 [])
                    ltac:(intros k len Hlen; cbn; lia)
                    eq_refl
                    ltac:(cbn; lia)
                    ltac:(left; reflexivity)
                    eq_refl
                    ltac:(constructor)
                    eq_refl)).
Defined.

(** ** C2: the session of the shared-memory program *)

(** C2, on the code. The producer reads the count 1 and the value 42,
    stores them in slots 0 and 1 and ends; [wait] returns the pid of the
    child, 4321. The parent compares that result with 0, takes it for a
    failure, reports "wait", cleans up -- the name is removed -- and
    exits with [EXIT_FAILURE]: it never loads the message and prints
    nothing. *)
Theorem shm_session_stops_at_wait :
  let o := Shm.session (Fixture.env_ok 1 4321) (Fixture.world_seg [1; 42]) in
  o_child o = Some (Ret 0, [EvFork 0; EvStore 0 1; EvStore 1 42; EvMunmap; EvClose 3])
  /\ take 2 (w_seg (o_world o)) = [1; 42]
  /\ o_parent o
     = (Exit EXIT_FAILURE,
        [EvFork 4321; EvWait 4321; EvStderr "wait"; EvMunmap; EvClose 3;
         EvShmUnlink Shm.SHM_NAME])
  /\ printed (snd (o_parent o)) = []
  /\ w_names (o_world o) = ∅.
Proof. vm_compute. repeat split. Qed.

(** * Further properties of the three programs *)

(** ** Teardown of the segment *)

Ltac solve_trace :=
  cbn [w_trace log set_stdin set_trace set_names set_seg set_chan tick];
  rewrite <- ?app_assoc;
  first [ exists []; split; [rewrite app_nil_r; reflexivity|]
        | eexists; split; [reflexivity|] ].

Lemma cleanup_shm_returns E ptr shm_fd u w :
  fst (Shm.cleanup_shm E ptr shm_fd u w) = Ret tt.
Proof. exec. split_ifs; reflexivity. Qed.

Lemma cleanup_shm_run E ptr shm_fd u w :
  Shm.cleanup_shm E ptr shm_fd u w
  = (Ret tt, snd (Shm.cleanup_shm E ptr shm_fd u w)).
Proof.
  rewrite (surjective_pairing (Shm.cleanup_shm E ptr shm_fd u w)) at 1.
  rewrite cleanup_shm_returns. reflexivity.
Qed.

Lemma cleanup_shm_effect E ptr shm_fd u w :
  exists evs,
    w_trace (snd (Shm.cleanup_shm E ptr shm_fd u w)) = w_trace w ++ evs
    /\ releases evs
       = (if Shm.mapped ptr then [EvMunmap] else [])
         ++ (if shm_fd =? -1 then [] else [EvClose shm_fd])
         ++ (if u =? 0 then [] else [EvShmUnlink Shm.SHM_NAME])
    /\ printed evs = []
    /\ Forall (fun e => negb (is_load e) && negb (is_transfer e) = true) evs.
Proof.
  exec.
  destruct ptr; cbn [Shm.mapped];
    destruct (shm_fd =? -1); destruct (u =? 0); cbn [negb];
    split_ifs; solve_trace; cbn [app];
    (split; [reflexivity|]); (split; [reflexivity|]); repeat constructor.
Qed.

Lemma cleanup_shm_frame E ptr shm_fd u w :
  same_transport w (snd (Shm.cleanup_shm E ptr shm_fd u w))
  /\ w_stdin (snd (Shm.cleanup_shm E ptr shm_fd u w)) = w_stdin w
  /\ w_names (snd (Shm.cleanup_shm E ptr shm_fd u w))
     = (if negb (u =? 0) && (e_shm_unlink E =? 0)
        then w_names w ∖ {[ Shm.SHM_NAME ]} else w_names w).
Proof.
  exec.
  destruct (u =? 0); destruct (e_shm_unlink E =? 0); cbn [negb andb];
    split_ifs; repeat split.
Qed.

(** X1. [cleanup_shm] always returns to its caller. It calls [munmap]
    when the pointer is neither [NULL] nor [MAP_FAILED], then [close] when
    the descriptor is not -1, then [shm_unlink] when the flag is not 0, in
    this order and each at most once; a step that fails is reported and
    the later steps are still done. The segment and the stream keep their
    contents, and the name leaves the namespace exactly when the flag is
    set and [shm_unlink] succeeds. *)
Theorem cleanup_shm_best_effort :
  forall (E : env) (ptr : pointer) (shm_fd u : Z) (w : world),
    let w' := snd (Shm.cleanup_shm E ptr shm_fd u w) in
    fst (Shm.cleanup_shm E ptr shm_fd u w) = Ret tt
    /\ (exists evs,
          w_trace w' = w_trace w ++ evs
          /\ releases evs
             = (if Shm.mapped ptr then [EvMunmap] else [])
               ++ (if shm_fd =? -1 then [] else [EvClose shm_fd])
               ++ (if u =? 0 then [] else [EvShmUnlink Shm.SHM_NAME]))
    /\ w_seg w' = w_seg w /\ w_chan w' = w_chan w
    /\ w_names w' = (if negb (u =? 0) && (e_shm_unlink E =? 0)
                     then w_names w ∖ {[ Shm.SHM_NAME ]} else w_names w).
Proof.
  intros E ptr shm_fd u w w'. subst w'.
  split; [apply cleanup_shm_returns|].
  destruct (cleanup_shm_effect E ptr shm_fd u w) as (evs & Ht & Hr & _).
  destruct (cleanup_shm_frame E ptr shm_fd u w) as ([Hs Hc] & _ & Hn).
  split; [exists evs; split; assumption|].
  split; [exact Hs|]. split; [exact Hc|exact Hn].
Qed.

(** ** Runs, a call at a time *)

Lemma bind_returns {A B} (m : M A) (k : A -> M B) w a :
  fst (m w) = Ret a -> bind m k w = k a (snd (m w)).
Proof. unfold bind. destruct (m w) as [r w1]. cbn. intros ->. reflexivity. Qed.

Lemma releases_app t1 t2 : releases (t1 ++ t2) = releases t1 ++ releases t2.
Proof. unfold releases. apply filter_app. Qed.

Lemma unlinks_app t1 t2 : unlinks (t1 ++ t2) = unlinks t1 ++ unlinks t2.
Proof. unfold unlinks. apply filter_app. Qed.

Lemma releases_none t :
  Forall (fun e => negb (is_release e) = true) t -> releases t = [].
Proof.
  unfold releases. induction 1 as [|e t He _ IH]; [reflexivity|].
  rewrite filter_cons_False; [exact IH|].
  destruct (is_release e); [discriminate|discriminate].
Qed.

Lemma unlinks_releases t : unlinks (releases t) = unlinks t.
Proof.
  unfold unlinks, releases. induction t as [|e t IH]; [reflexivity|].
  destruct (is_release e) eqn:Hr.
  - rewrite (filter_cons_True (fun e => is_release e = true)) by exact Hr.
    destruct (is_unlink e) eqn:Hu.
    + rewrite !filter_cons_True by exact Hu. f_equal. exact IH.
    + rewrite !filter_cons_False by (rewrite Hu; discriminate). exact IH.
  - rewrite (filter_cons_False (fun e => is_release e = true))
      by (rewrite Hr; discriminate).
    rewrite filter_cons_False; [exact IH|].
    destruct e; cbn in *; discriminate.
Qed.

(** What [grows] says of the worlds of one run. *)
Lemma grows_run {A} (P : event -> bool) (m : M A) w r w' :
  steps (grows P) m -> m w = (r, w') -> grows P w w'.
Proof. intros Hm Hrun. specialize (Hm w). rewrite Hrun in Hm. exact Hm. Qed.

(** ** The parent of the shared-memory program, whatever the segment holds *)

Lemma shm_fail_tail {B} E ptr shm_fd u msg w :
  bind (eprint msg)
    (fun _ => bind (Shm.cleanup_shm E ptr shm_fd u)
                (fun _ => @exit B EXIT_FAILURE)) w
  = (Exit EXIT_FAILURE, snd (Shm.cleanup_shm E ptr shm_fd u (log (EvStderr msg) w))).
Proof.
  unfold bind at 1. unfold eprint, emit.
  rewrite (bind_returns _ _ _ tt) by apply cleanup_shm_returns. reflexivity.
Qed.

Lemma shm_parent_total E shm_fd w :
  Z.of_nat (length (w_seg w)) = 256 ->
  exists r w' evs,
    Shm.parent_process E PMapped shm_fd w = (r, w')
    /\ (r = Ret tt \/ r = Exit EXIT_FAILURE)
    /\ w_trace w' = w_trace w ++ evs
    /\ releases evs
       = EvMunmap :: (if shm_fd =? -1 then [] else [EvClose shm_fd])
                  ++ [EvShmUnlink Shm.SHM_NAME]
    /\ w_seg w' = w_seg w
    /\ w_names w' = (if e_shm_unlink E =? 0
                     then w_names w ∖ {[ Shm.SHM_NAME ]} else w_names w).
Proof.
  intros Hlen.
  unfold Shm.parent_process. unfold bind at 1. unfold sys_wait at 1.
  unfold bind at 1, emit at 1, ret at 1.
  destruct (negb (e_wait E =? 0)).
  - rewrite shm_fail_tail.
    match goal with |- context [Shm.cleanup_shm _ _ _ _ ?w0] => set (w2 := w0) end.
    destruct (cleanup_shm_effect E PMapped shm_fd 1 w2) as (evc & Ht & Hr & _).
    destruct (cleanup_shm_frame E PMapped shm_fd 1 w2) as ([Hs _] & _ & Hn).
    eexists. eexists. exists ([EvWait (e_wait E); EvStderr "wait"] ++ evc).
    split; [reflexivity|]. split; [right; reflexivity|].
    rewrite Ht, Hs, Hn, releases_app, Hr. subst w2.
    cbn [w_trace w_seg w_names log set_trace Shm.mapped Z.eqb negb andb].
    rewrite <- !app_assoc. repeat split.
  - unfold Shm.parent_read. unfold bind at 1. unfold Shm.load at 1. cbv zeta.
    cbn [Shm.mapped andb w_seg log set_trace]. change (0 <=? 0) with true.
    change (Z.to_nat 0) with 0%nat.
    destruct (w_seg w) as [|num seg] eqn:Hseg; [cbn in Hlen; lia|].
    cbn [lookup list_lookup].
    destruct (Shm.bad_count num) eqn:Hbad.
    + rewrite shm_fail_tail.
      match goal with |- context [Shm.cleanup_shm _ _ _ _ ?w0] => set (w2 := w0) end.
      destruct (cleanup_shm_effect E PMapped shm_fd 1 w2) as (evc & Ht & Hr & _).
      destruct (cleanup_shm_frame E PMapped shm_fd 1 w2) as ([Hs _] & _ & Hn).
      eexists. eexists. eexists ([EvWait (e_wait E); EvLoad 0; EvStderr _] ++ evc).
      split; [reflexivity|]. split; [right; reflexivity|].
      rewrite Ht, Hs, Hn, releases_app, Hr. subst w2.
      cbn [w_trace w_seg w_names log set_trace Shm.mapped Z.eqb negb andb].
      rewrite <- !app_assoc, Hseg. repeat split.
    + unfold bind at 1.
      match goal with |- context [for_fold _ _ _ _ ?w0] => set (w3 := w0) end.
      assert (Z.to_nat num <= 255)%nat as Hn255.
      { unfold Shm.bad_count, Shm.BUFFER_SIZE, sizeof_int in Hbad.
        change (1024 / 4) with 256 in Hbad. lia. }
      destruct (load_print_loop (Z.to_nat num) 0%nat w3) as (w4 & Hrun & _ & Hs4 & _ & Hn4).
      { subst w3. cbn [w_seg log set_trace]. rewrite Hseg. lia. }
      change (Z.of_nat 0) with 0 in Hrun.
      assert (steps (grows (fun e => negb (is_release e)))
                (for_fold (Z.to_nat num) 0 tt
                   (fun i _ => bind (Shm.load PMapped (i + 1))
                                 (fun v => emit (EvPrint v))))) as Hst
        by steps_tac.
      destruct (grows_run _ _ _ _ _ Hst Hrun) as (evl & Htl & Hall).
      rewrite Hrun.
      unfold bind at 1. unfold emit at 1.
      match goal with |- context [Shm.cleanup_shm _ _ _ _ ?w0] => set (w5 := w0) end.
      destruct (cleanup_shm_effect E PMapped shm_fd 1 w5) as (evc & Ht & Hr & _).
      destruct (cleanup_shm_frame E PMapped shm_fd 1 w5) as ([Hs _] & _ & Hn).
      exists (Ret tt), (snd (Shm.cleanup_shm E PMapped shm_fd 1 w5)),
        ([EvWait (e_wait E); EvLoad 0] ++ evl ++ [EvNewline] ++ evc).
      split; [apply cleanup_shm_run|]. split; [left; reflexivity|].
      rewrite Ht, Hs, Hn, !releases_app, Hr, (releases_none evl Hall). subst w5 w3.
      cbn [w_trace w_seg w_names log set_trace Shm.mapped Z.eqb negb andb] in *.
      rewrite Htl, Hs4, Hn4, <- !app_assoc, Hseg. repeat split.
Qed.

(** X2. Whatever the 256 slots of the segment hold, the parent of the
    shared-memory program never reads outside the mapping: it ends by
    returning or by [exit(EXIT_FAILURE)]. On each of these paths it has
    called [munmap], [close] (for a descriptor other than -1) and
    [shm_unlink] once each and in this order, it has not changed the
    segment, and the name has left the namespace when [shm_unlink]
    succeeded. *)
Theorem shm_parent_always_cleans_up :
  forall (E : env) (shm_fd : Z) (w : world),
    Z.of_nat (length (w_seg w)) = 256 ->
    exists w' evs,
      (Shm.parent_process E PMapped shm_fd w = (Ret tt, w')
       \/ Shm.parent_process E PMapped shm_fd w = (Exit EXIT_FAILURE, w'))
      /\ w_trace w' = w_trace w ++ evs
      /\ releases evs
         = EvMunmap :: (if shm_fd =? -1 then [] else [EvClose shm_fd])
                    ++ [EvShmUnlink Shm.SHM_NAME]
      /\ unlinks evs = [EvShmUnlink Shm.SHM_NAME]
      /\ w_seg w' = w_seg w
      /\ (e_shm_unlink E = 0 -> Shm.SHM_NAME ∉ w_names w').
Proof.
  intros E shm_fd w Hlen.
  destruct (shm_parent_total E shm_fd w Hlen)
    as (r & w' & evs & Hrun & Hres & Ht & Hr & Hs & Hn).
  exists w', evs. rewrite Hrun.
  split; [destruct Hres as [-> | ->]; [left|right]; reflexivity|].
  split; [exact Ht|]. split; [exact Hr|].
  split; [|split; [exact Hs|]].
  - rewrite <- unlinks_releases, Hr. destruct (shm_fd =? -1); reflexivity.
  - intros Hu. rewrite Hn, Hu. apply name_removed.
Qed.

(** A run for X2: the segment holds a count of 2 and the values 7 and 8,
    and [wait] gives 0. *)
Lemma shm_parent_always_cleans_up_witness :
  exists w' evs,
    (Shm.parent_process (Fixture.env_ok 1 0) PMapped 3
       (World [] (2 :: 7 :: 8 :: replicate 253 0) [] 0 ∅ []) = (Ret tt, w')
     \/ Shm.parent_process (Fixture.env_ok 1 0) PMapped 3
          (World [] (2 :: 7 :: 8 :: replicate 253 0) [] 0 ∅ [])
        = (Exit EXIT_FAILURE, w'))
    /\ w_trace w' = [] ++ evs
    /\ releases evs = EvMunmap :: [EvClose 3] ++ [EvShmUnlink Shm.SHM_NAME]
    /\ unlinks evs = [EvShmUnlink Shm.SHM_NAME]
    /\ w_seg w' = 2 :: 7 :: 8 :: replicate 253 0
    /\ (0 = 0 -> Shm.SHM_NAME ∉ w_names w').
Proof.
  apply (shm_parent_always_cleans_up (Fixture.env_ok 1 0) 3
           (World [] (2 :: 7 :: 8 :: replicate 253 0) [] 0 ∅ [])).
  vm_compute. reflexivity.
Defined.

(** ** The child of the shared-memory program, whatever the input *)

Lemma scanf_d_fails w : scanf_fails (w_stdin w) -> scanf_d w = (Ret None, w).
Proof.
  unfold scanf_fails, scanf_d. destruct (w_stdin w) as [|[v|] rest];
    [reflexivity|contradiction|reflexivity].
Qed.

(** Any input is a run of numbers as long as the loop asks for, or a
    shorter run after which [scanf] fails. *)
Lemma split_input (n : nat) : forall (l : list (option Z)),
  exists vals rest,
    l = map Some vals ++ rest
    /\ (length vals = n \/ ((length vals < n)%nat /\ scanf_fails rest)).
Proof.
  induction n as [|n IH]; intros l.
  - exists [], l. split; [reflexivity|left; reflexivity].
  - destruct l as [|[v|] l].
    + exists [], []. split; [reflexivity|right; split; [cbn; lia|exact I]].
    + destruct (IH l) as (vals & rest & -> & Hcase).
      exists (v :: vals), rest. split; [reflexivity|].
      destruct Hcase as [Hl|[Hl Hf]]; [left|right; split]; cbn; try lia; exact Hf.
    + exists [], (None :: l). split; [reflexivity|right; split; [cbn; lia|exact I]].
Qed.

(** The loop of the child when the input gives out after [vals]. *)
Lemma store_loop_short E shm_fd : forall vals (n i : nat) w rest,
  (length vals < n)%nat ->
  w_stdin w = map Some vals ++ rest ->
  scanf_fails rest ->
  (i + 1 + n <= length (w_seg w))%nat ->
  exists w',
    for_fold n (Z.of_nat i) tt
      (fun i _ =>
         bind scanf_d (fun t =>
           match t with
           | None =>
               bind (eprint "Invalid input.")
                 (fun _ => bind (Shm.cleanup_shm E PMapped shm_fd 0)
                             (fun _ => exit EXIT_FAILURE))
           | Some v => Shm.store PMapped (i + 1) v
           end)) w
    = (Exit EXIT_FAILURE, w')
    /\ w_seg w' = take (i + 1) (w_seg w) ++ vals
                    ++ drop (i + 1 + length vals) (w_seg w)
    /\ w_chan w' = w_chan w /\ w_names w' = w_names w.
Proof.
  induction vals as [|v p IH]; intros n i w rest Hlt Hin Hfail Hlen;
    (destruct n as [|n]; [cbn in Hlt; lia|]).
  - cbn [length for_fold map app] in *.
    unfold bind at 1. unfold bind at 1.
    rewrite scanf_d_fails by (rewrite Hin; exact Hfail).
    rewrite shm_fail_tail.
    match goal with |- context [Shm.cleanup_shm _ _ _ _ ?w0] => set (w2 := w0) end.
    destruct (cleanup_shm_frame E PMapped shm_fd 0 w2) as ([Hs Hc] & _ & Hn).
    eexists. split; [reflexivity|].
    rewrite Hs, Hc, Hn. subst w2. cbn [w_seg w_chan w_names log set_trace negb andb Z.eqb].
    rewrite Nat.add_0_r, take_drop. repeat split.
  - cbn [length for_fold map app] in *.
    unfold bind at 1. unfold bind at 1. unfold scanf_d at 1. rewrite Hin.
    unfold Shm.store at 1. cbv zeta. cbn [Shm.mapped w_seg set_stdin log set_trace andb].
    destruct (Z.leb_spec 0 (Z.of_nat i + 1)) as [_|]; [|lia].
    destruct (Z.ltb_spec (Z.of_nat i + 1) (Z.of_nat (length (w_seg w)))) as [_|]; [|lia].
    cbn [andb].
    replace (Z.of_nat i + 1) with (Z.of_nat (S i)) by lia. rewrite Nat2Z.id.
    match goal with |- context [for_fold _ _ _ _ ?w0] => set (w1 := w0) end.
    destruct (IH n (S i) w1 rest) as (w' & Hrun & Hseg & Hch & Hnm).
    { lia. }
    { reflexivity. }
    { exact Hfail. }
    { subst w1. cbn [w_seg set_seg]. rewrite length_insert. lia. }
    exists w'. split; [exact Hrun|].
    subst w1. cbn [w_seg w_chan w_names set_seg set_stdin log set_trace] in *.
    rewrite Hseg. replace (S i + 1)%nat with (S (S i)) by lia.
    replace (i + 1)%nat with (S i) by lia.
    repeat split; try assumption.
    rewrite (fill_step (w_seg w) (S i) v p) by lia.
    repeat f_equal.
Qed.

Lemma shm_child_short E shm_fd w num vals rest :
  1 <= num <= 255 ->
  Z.of_nat (length vals) < num ->
  w_stdin w = Some num :: map Some vals ++ rest ->
  scanf_fails rest ->
  Z.of_nat (length (w_seg w)) = 256 ->
  exists w',
    Shm.child_process E PMapped shm_fd w = (Exit EXIT_FAILURE, w')
    /\ w_seg w' = num :: vals ++ drop (1 + length vals) (w_seg w)
    /\ w_chan w' = w_chan w /\ w_names w' = w_names w.
Proof.
  intros Hnum Hlt Hin Hfail Hseg.
  unfold Shm.child_process. unfold bind at 1. unfold scanf_d at 1. rewrite Hin.
  assert (Shm.bad_count num = false) as ->
    by (unfold Shm.bad_count, Shm.BUFFER_SIZE, sizeof_int;
        change (1024 / 4) with 256; lia).
  unfold bind at 1. unfold Shm.store at 1. cbv zeta.
  cbn [Shm.mapped w_seg set_stdin log set_trace andb].
  destruct (Z.ltb_spec 0 (Z.of_nat (length (w_seg w)))) as [_|]; [|lia].
  change (0 <=? 0) with true. cbn [andb]. change (Z.to_nat 0) with 0%nat.
  unfold bind at 1.
  match goal with |- context [for_fold _ _ _ _ ?w0] => set (w1 := w0) end.
  destruct (store_loop_short E shm_fd vals (Z.to_nat num) 0%nat w1 rest)
    as (w2 & Hrun & Hseg2 & Hch & Hnm).
  { lia. }
  { reflexivity. }
  { exact Hfail. }
  { subst w1. cbn [w_seg set_seg]. rewrite length_insert. lia. }
  change (Z.of_nat 0) with 0 in Hrun. rewrite Hrun.
  exists w2. split; [reflexivity|].
  subst w1. cbn [w_seg w_chan w_names set_seg set_stdin log set_trace] in *.
  rewrite Hseg2. split; [|split; assumption].
  destruct (w_seg w) as [|x seg]; [cbn in Hseg; lia|]. reflexivity.
Qed.

(** X3. When the input of the shared-memory producer gives out after a
    valid count and fewer [int] values than the count announces, the
    producer exits with [EXIT_FAILURE] and leaves in the segment what it
    had stored so far: the count in slot 0 and the values read in the
    slots after it; the slots further on, the stream and the namespace
    are as before. *)
Theorem shm_child_leaves_partial_message :
  forall (E : env) (shm_fd : Z) (w : world) (num : Z) (vals : list Z)
         (rest : list (option Z)),
    1 <= num <= capacity_limit Shm.BUFFER_SIZE 1 ->
    Forall int_range vals ->
    Z.of_nat (length vals) < num ->
    w_stdin w = Some num :: map Some vals ++ rest ->
    scanf_fails rest ->
    Z.of_nat (length (w_seg w)) = 256 ->
    exists w',
      Shm.child_process E PMapped shm_fd w = (Exit EXIT_FAILURE, w')
      /\ w_seg w' = num :: vals ++ drop (1 + length vals) (w_seg w)
      /\ w_chan w' = w_chan w /\ w_names w' = w_names w.
Proof.
  intros E shm_fd w num vals rest Hnum _. apply shm_child_short.
  unfold capacity_limit, Shm.BUFFER_SIZE, sizeof_int in Hnum.
  change (1024 / 4 - 1) with 255 in Hnum. exact Hnum.
Qed.

(** A run for X3: the count 3, then the single value 10, then a token
    that is not a number. *)
Lemma shm_child_leaves_partial_message_witness :
  exists w',
    Shm.child_process (Fixture.env_ok 1 0) PMapped 3
      (World [Some 3; Some 10; None] (replicate 256 0) [] 0 ∅ [])
    = (Exit EXIT_FAILURE, w')
    /\ w_seg w' = 3 :: [10] ++ drop (1 + 1) (replicate 256 0)
    /\ w_chan w' = [] /\ w_names w' = ∅.
Proof.
  apply (shm_child_leaves_partial_message (Fixture.env_ok 1 0) 3
           (World [Some 3; Some 10; None] (replicate 256 0) [] 0 ∅ [])
           3 [10] [None]).
  - vm_compute. split; discriminate.
  - repeat constructor; vm_compute; discriminate.
  - vm_compute. reflexivity.
  - reflexivity.
  - exact I.
  - vm_compute. reflexivity.
Defined.

Lemma shm_child_any_input E shm_fd w :
  Z.of_nat (length (w_seg w)) = 256 ->
  exists r w',
    Shm.child_process E PMapped shm_fd w = (r, w')
    /\ (r = Ret tt \/ r = Exit EXIT_FAILURE)
    /\ Z.of_nat (length (w_seg w')) = 256
    /\ w_chan w' = w_chan w /\ w_names w' = w_names w.
Proof.
  intros Hseg.
  destruct (w_stdin w) as [|[num|] inp] eqn:Hin.
  1,3: unfold Shm.child_process; unfold bind at 1;
    rewrite scanf_d_fails by (rewrite Hin; exact I);
    rewrite shm_fail_tail;
    match goal with |- context [Shm.cleanup_shm _ _ _ _ ?w0] => set (w2 := w0) end;
    destruct (cleanup_shm_frame E PMapped shm_fd 0 w2) as ([Hs Hc] & _ & Hn);
    eexists; eexists; (split; [reflexivity|]); (split; [right; reflexivity|]);
    rewrite Hs, Hc, Hn; subst w2; repeat split; exact Hseg.
  destruct (Shm.bad_count num) eqn:Hbad.
  - unfold Shm.child_process. unfold bind at 1. unfold scanf_d at 1.
    rewrite Hin, Hbad. rewrite shm_fail_tail.
    match goal with |- context [Shm.cleanup_shm _ _ _ _ ?w0] => set (w2 := w0) end.
    destruct (cleanup_shm_frame E PMapped shm_fd 0 w2) as ([Hs Hc] & _ & Hn).
    eexists. eexists. split; [reflexivity|]. split; [right; reflexivity|].
    rewrite Hs, Hc, Hn. subst w2. repeat split. exact Hseg.
  - assert (1 <= num <= 255) as Hnum.
    { unfold Shm.bad_count, Shm.BUFFER_SIZE, sizeof_int in Hbad.
      change (1024 / 4) with 256 in Hbad. lia. }
    destruct (split_input (Z.to_nat num) inp) as (vals & rest & -> & [Hfull|[Hlt Hfail]]).
    + destruct (split_input 0 rest) as (v0 & rest' & Hrest & _).
      assert (exists w',
                 Shm.child_process E PMapped shm_fd w = (Ret tt, w')
                 /\ w_seg w' = num :: vals ++ drop (1 + length vals) (w_seg w)
                 /\ w_chan w' = w_chan w /\ w_names w' = w_names w)
        as (w' & Hrun & Hs & Hc & Hn).
      { unfold Shm.child_process. unfold bind at 1. unfold scanf_d at 1.
        rewrite Hin, Hbad.
        unfold bind at 1. unfold Shm.store at 1. cbv zeta.
        cbn [Shm.mapped w_seg set_stdin log set_trace andb].
        destruct (Z.ltb_spec 0 (Z.of_nat (length (w_seg w)))) as [_|]; [|lia].
        change (0 <=? 0) with true. cbn [andb]. change (Z.to_nat 0) with 0%nat.
        unfold bind at 1. rewrite <- Hfull.
        match goal with |- context [for_fold _ _ _ _ ?w0] => set (w1 := w0) end.
        destruct (store_loop E shm_fd vals 0%nat w1 rest)
          as (w2 & Hrun & Hseg2 & _ & Hch & Hnm & _).
        { reflexivity. }
        { subst w1. cbn [w_seg set_seg]. rewrite length_insert. lia. }
        change (Z.of_nat 0) with 0 in Hrun. rewrite Hrun.
        destruct (cleanup_shm_frame E PMapped shm_fd 0 w2) as ([Hs Hc] & _ & Hn).
        exists (snd (Shm.cleanup_shm E PMapped shm_fd 0 w2)).
        split; [apply cleanup_shm_run|].
        rewrite Hs, Hc, Hn, Hseg2, Hch, Hnm. subst w1.
        cbn [w_seg w_chan w_names set_seg set_stdin log set_trace negb andb Z.eqb].
        split; [|split; reflexivity].
        destruct (w_seg w) as [|x seg]; [cbn in Hseg; lia|]. reflexivity. }
      exists (Ret tt), w'. split; [exact Hrun|]. split; [left; reflexivity|].
      split; [|split; assumption].
      rewrite Hs. cbn [length]. rewrite length_app, length_drop. lia.
    + destruct (shm_child_short E shm_fd w num vals rest Hnum ltac:(lia) Hin Hfail Hseg)
        as (w' & Hrun & Hs & Hc & Hn).
      exists (Exit EXIT_FAILURE), w'. split; [exact Hrun|]. split; [right; reflexivity|].
      split; [|split; assumption].
      rewrite Hs. cbn [length]. rewrite length_app, length_drop. lia.
Qed.

(** X4. With a mapped pointer and a segment of 256 slots the producer of
    the shared-memory program never stores outside the mapping, whatever
    the terminal gives it: every run ends by returning or by
    [exit(EXIT_FAILURE)], the segment keeps its 256 slots, and neither
    the stream nor the namespace changes. *)
Theorem shm_child_total :
  forall (E : env) (shm_fd : Z) (w : world),
    Z.of_nat (length (w_seg w)) = 256 ->
    exists r w',
      Shm.child_process E PMapped shm_fd w = (r, w')
      /\ (r = Ret tt \/ r = Exit EXIT_FAILURE)
      /\ Z.of_nat (length (w_seg w')) = 256
      /\ w_chan w' = w_chan w /\ w_names w' = w_names w.
Proof. intros E shm_fd w. apply shm_child_any_input. Qed.

(** A run for X4: an input that ends after the count. *)
Lemma shm_child_total_witness :
  exists r w',
    Shm.child_process (Fixture.env_ok 1 0) PMapped 3 (Fixture.world_seg [2]) = (r, w')
    /\ (r = Ret tt \/ r = Exit EXIT_FAILURE)
    /\ Z.of_nat (length (w_seg w')) = 256
    /\ w_chan w' = [] /\ w_names w' = ∅.
Proof.
  apply (shm_child_total (Fixture.env_ok 1 0) 3 (Fixture.world_seg [2])).
  vm_compute. reflexivity.
Defined.

(** ** The setup of the shared-memory program *)

Lemma shm_setup_run E w :
  let w1 := set_names (w_names w ∪ {[ Shm.SHM_NAME ]}) w in
  let w2 := set_seg (resize (Z.to_nat (Shm.BUFFER_SIZE / sizeof_int)) 0 (w_seg w1)) w1 in
  Shm.main_setup E w
  = if e_shm_open E =? -1 then (Exit EXIT_FAILURE, log (EvStderr "shm_open") w)
    else if e_ftruncate E =? -1 then
      (Exit EXIT_FAILURE,
       snd (Shm.cleanup_shm E PNull (e_shm_open E) 1 (log (EvStderr "ftruncate") w1)))
    else match e_mmap E with
         | PMapFailed => (Exit EXIT_FAILURE, log (EvStderr "mmap") w2)
         | p => (Ret (p, e_shm_open E), w2)
         end.
Proof.
  intros w1 w2. unfold Shm.main_setup. unfold bind at 1. unfold Shm.shm_open at 1.
  destruct (e_shm_open E =? -1) eqn:Ho.
  - reflexivity.
  - rewrite Ho. unfold bind at 1. unfold Shm.ftruncate at 1.
    destruct (e_ftruncate E =? -1) eqn:Hf.
    + change (-1 =? -1) with true. cbv beta iota. apply shm_fail_tail.
    + rewrite Hf. unfold Shm.mmap. fold w1. fold w2.
      destruct (e_mmap E); reflexivity.
Qed.

Lemma shm_name_added (n : gset string) : Shm.SHM_NAME ∈ n ∪ {[ Shm.SHM_NAME ]}.
Proof. apply elem_of_union_r, elem_of_singleton. reflexivity. Qed.

(** X5. When the setup of the shared-memory program returns, the
    descriptor is the one [shm_open] gave and is not -1, the pointer is
    the one [mmap] gave and is not [MAP_FAILED], the object has
    [BUFFER_SIZE / sizeof(int)] slots and its name is in the namespace;
    the setup has reported nothing and the terminal and the stream are
    untouched. *)
Theorem shm_setup_establishes_mapping :
  forall (E : env) (w w' : world) (ptr : pointer) (shm_fd : Z),
    Shm.main_setup E w = (Ret (ptr, shm_fd), w') ->
    shm_fd = e_shm_open E /\ shm_fd <> -1
    /\ ptr = e_mmap E /\ ptr <> PMapFailed
    /\ Z.of_nat (length (w_seg w')) = Shm.BUFFER_SIZE / sizeof_int
    /\ Shm.SHM_NAME ∈ w_names w'
    /\ w_trace w' = w_trace w /\ w_stdin w' = w_stdin w /\ w_chan w' = w_chan w.
Proof.
  intros E w w' ptr shm_fd Hrun. rewrite shm_setup_run in Hrun. cbv zeta in Hrun.
  destruct (Z.eqb_spec (e_shm_open E) (-1)) as [|Ho]; [discriminate|].
  destruct (e_ftruncate E =? -1); [discriminate|].
  destruct (e_mmap E) eqn:Hm; [|discriminate|];
    injection Hrun as <- <- <-;
    cbn [w_seg w_names w_trace w_stdin w_chan set_seg set_names];
    rewrite length_resize;
    (repeat split; [exact Ho|discriminate|apply shm_name_added]).
Qed.

(** A run for X5 where every call succeeds. *)
Lemma shm_setup_establishes_mapping_witness :
  3 = e_shm_open (Fixture.env_ok 1 0) /\ 3 <> -1
  /\ PMapped = e_mmap (Fixture.env_ok 1 0) /\ PMapped <> PMapFailed
  /\ Z.of_nat (length (w_seg (snd (Shm.main_setup (Fixture.env_ok 1 0) (Fixture.world_of [])))))
     = Shm.BUFFER_SIZE / sizeof_int
  /\ Shm.SHM_NAME ∈ w_names (snd (Shm.main_setup (Fixture.env_ok 1 0) (Fixture.world_of [])))
  /\ w_trace (snd (Shm.main_setup (Fixture.env_ok 1 0) (Fixture.world_of []))) = []
  /\ w_stdin (snd (Shm.main_setup (Fixture.env_ok 1 0) (Fixture.world_of []))) = []
  /\ w_chan (snd (Shm.main_setup (Fixture.env_ok 1 0) (Fixture.world_of []))) = [].
Proof.
  apply (shm_setup_establishes_mapping (Fixture.env_ok 1 0) (Fixture.world_of [])
           (snd (Shm.main_setup (Fixture.env_ok 1 0) (Fixture.world_of []))) PMapped 3).
  vm_compute. reflexivity.
Defined.

Lemma unlinks_none t :
  Forall (fun e => negb (is_unlink e) = true) t -> unlinks t = [].
Proof.
  unfold unlinks. induction 1 as [|e t He _ IH]; [reflexivity|].
  rewrite filter_cons_False; [exact IH|].
  destruct (is_unlink e); [discriminate|discriminate].
Qed.

Lemma shm_setup_fails E w :
  e_shm_open E = -1 \/ e_ftruncate E = -1 \/ e_mmap E = PMapFailed ->
  exists w' evs,
    Shm.main E w = (Exit EXIT_FAILURE, w')
    /\ w_trace w' = w_trace w ++ evs
    /\ Forall (fun e => negb (is_fork e) && negb (touches_segment e) = true) evs
    /\ releases evs
       = (if (e_shm_open E =? -1) || negb (e_ftruncate E =? -1) then []
          else [EvClose (e_shm_open E); EvShmUnlink Shm.SHM_NAME])
    /\ (e_shm_open E <> -1 -> e_ftruncate E <> -1 -> Shm.SHM_NAME ∈ w_names w').
Proof.
  intros Hfail. unfold Shm.main. unfold bind at 1. rewrite shm_setup_run. cbv zeta.
  destruct (Z.eqb_spec (e_shm_open E) (-1)) as [Ho|Ho]; cbn [orb].
  { eexists. exists [EvStderr "shm_open"]. split; [reflexivity|].
    split; [reflexivity|]. split; [repeat constructor|].
    split; [reflexivity|]. intros H; contradiction. }
  destruct (Z.eqb_spec (e_ftruncate E) (-1)) as [Hf|Hf]; cbn [negb].
  { match goal with |- context [Shm.cleanup_shm _ _ _ _ ?w0] => set (w2 := w0) end.
    destruct (cleanup_shm_effect E PNull (e_shm_open E) 1 w2) as (evc & Ht & Hr & _).
    assert (steps (grows (fun e => negb (is_fork e) && negb (touches_segment e)))
              (Shm.cleanup_shm E PNull (e_shm_open E) 1)) as Hst by steps_tac.
    destruct (Hst w2) as (evc' & Ht' & Hall).
    rewrite Ht in Ht'. apply app_inv_head in Ht'. subst evc'.
    eexists. exists (EvStderr "ftruncate" :: evc). split; [reflexivity|].
    split; [rewrite Ht; subst w2; cbn [w_trace log set_trace set_names];
            rewrite <- app_assoc; reflexivity|].
    split; [constructor; [reflexivity|exact Hall]|].
    split; [|intros _ H; contradiction].
    change (EvStderr "ftruncate" :: evc) with ([EvStderr "ftruncate"] ++ evc).
    rewrite releases_app, Hr. cbn [Shm.mapped Z.eqb].
    destruct (Z.eqb_spec (e_shm_open E) (-1)); [contradiction|reflexivity]. }
  destruct Hfail as [H|[H|Hm]]; [contradiction|contradiction|]. rewrite Hm.
  eexists. exists [EvStderr "mmap"]. split; [reflexivity|].
  split; [reflexivity|]. split; [repeat constructor|].
  split; [reflexivity|]. intros _ _. apply shm_name_added.
Qed.

(** X6. When [shm_open], [ftruncate] or [mmap] fails, [main] of the
    shared-memory program exits with [EXIT_FAILURE] before it forks and
    without touching the segment. After a failed [ftruncate] it closes the
    descriptor and removes the name; after a failed [shm_open] there is
    nothing to give back; after a failed [mmap] it gives nothing back:
    the descriptor stays open and the name stays in the namespace. *)
Theorem shm_setup_failure_paths :
  forall (E : env) (w : world),
    e_shm_open E = -1 \/ e_ftruncate E = -1 \/ e_mmap E = PMapFailed ->
    exists w' evs,
      Shm.main E w = (Exit EXIT_FAILURE, w')
      /\ w_trace w' = w_trace w ++ evs
      /\ Forall (fun e => negb (is_fork e) && negb (touches_segment e) = true) evs
      /\ releases evs
         = (if (e_shm_open E =? -1) || negb (e_ftruncate E =? -1) then []
            else [EvClose (e_shm_open E); EvShmUnlink Shm.SHM_NAME])
      /\ (e_shm_open E <> -1 -> e_ftruncate E <> -1 -> Shm.SHM_NAME ∈ w_names w').
Proof. intros E w. apply shm_setup_fails. Qed.

(** A run for X6: [mmap] gives [MAP_FAILED]. *)
Lemma shm_setup_failure_paths_witness :
  let E := Env false (fun _ _ => 1) (fun _ => true) 4321 4321 5
             (fun _ => 0) 0 0 0 0 0 0 3 0 PMapFailed in
  exists w' evs,
    Shm.main E (Fixture.world_of []) = (Exit EXIT_FAILURE, w')
    /\ w_trace w' = w_trace (Fixture.world_of []) ++ evs
    /\ Forall (fun e => negb (is_fork e) && negb (touches_segment e) = true) evs
    /\ releases evs
       = (if (e_shm_open E =? -1) || negb (e_ftruncate E =? -1) then []
          else [EvClose (e_shm_open E); EvShmUnlink Shm.SHM_NAME])
    /\ (e_shm_open E <> -1 -> e_ftruncate E <> -1 -> Shm.SHM_NAME ∈ w_names w').
Proof.
  intros E. apply (shm_setup_failure_paths E (Fixture.world_of [])).
  right. right. reflexivity.
Defined.

(** ** The whole shared-memory program *)

(** X7. With a pointer from [mmap] that is not [NULL], [main] of the
    shared-memory program never accesses memory outside the mapping,
    whatever the calls return, the terminal gives and the object holds:
    every run ends by returning 0 or by [exit(EXIT_FAILURE)]. The run
    removes the name once when [ftruncate] failed, when [fork] failed and
    in the parent, and never in the child or after a failed [shm_open]
    or [mmap]. *)
Theorem shm_main_never_faults :
  forall (E : env) (w : world),
    e_mmap E <> PNull ->
    exists r w' evs,
      Shm.main E w = (r, w')
      /\ (r = Ret 0 \/ r = Exit EXIT_FAILURE)
      /\ w_trace w' = w_trace w ++ evs
      /\ unlinks evs
         = (if negb (e_shm_open E =? -1)
               && ((e_ftruncate E =? -1)
                   || (Shm.mapped (e_mmap E) && negb (e_fork E =? 0)))
            then [EvShmUnlink Shm.SHM_NAME] else []).
Proof.
  intros E w Hnull.
  destruct (Z.eqb_spec (e_shm_open E) (-1)) as [Ho|Ho]; cbn [negb andb].
  { destruct (shm_setup_fails E w (or_introl Ho)) as (w' & evs & Hrun & Ht & _ & Hr & _).
    exists (Exit EXIT_FAILURE), w', evs. split; [exact Hrun|].
    split; [right; reflexivity|]. split; [exact Ht|].
    rewrite <- unlinks_releases, Hr.
    destruct (Z.eqb_spec (e_shm_open E) (-1)); [reflexivity|contradiction]. }
  destruct (Z.eqb_spec (e_ftruncate E) (-1)) as [Hf|Hf]; cbn [orb].
  { destruct (shm_setup_fails E w (or_intror (or_introl Hf)))
      as (w' & evs & Hrun & Ht & _ & Hr & _).
    exists (Exit EXIT_FAILURE), w', evs. split; [exact Hrun|].
    split; [right; reflexivity|]. split; [exact Ht|].
    rewrite <- unlinks_releases, Hr.
    destruct (Z.eqb_spec (e_shm_open E) (-1)); [contradiction|].
    destruct (Z.eqb_spec (e_ftruncate E) (-1)); [reflexivity|contradiction]. }
  destruct (e_mmap E) eqn:Hm; [contradiction| |]; cbn [Shm.mapped andb].
  { destruct (shm_setup_fails E w (or_intror (or_intror Hm)))
      as (w' & evs & Hrun & Ht & _ & Hr & _).
    exists (Exit EXIT_FAILURE), w', evs. split; [exact Hrun|].
    split; [right; reflexivity|]. split; [exact Ht|].
    rewrite <- unlinks_releases, Hr.
    destruct (Z.eqb_spec (e_shm_open E) (-1)); [contradiction|].
    destruct (Z.eqb_spec (e_ftruncate E) (-1)); [contradiction|reflexivity]. }
  unfold Shm.main. unfold bind at 1. rewrite shm_setup_run. cbv zeta.
  destruct (Z.eqb_spec (e_shm_open E) (-1)); [contradiction|].
  destruct (Z.eqb_spec (e_ftruncate E) (-1)); [contradiction|].
  rewrite Hm. cbn [fst snd].
  match goal with |- context [Shm.main_role _ _ _ _ ?w0] => set (w2 := w0) end.
  assert (Z.of_nat (length (w_seg w2)) = 256) as Hlen
    by (subst w2; cbn [w_seg set_seg]; rewrite length_resize; reflexivity).
  assert (w_trace w2 = w_trace w) as Htr by reflexivity.
  clearbody w2. unfold Shm.main_role. unfold bind at 1, emit at 1.
  destruct (Z.eqb_spec (e_fork E) (-1)) as [Hk|Hk].
  { rewrite shm_fail_tail.
    match goal with |- context [Shm.cleanup_shm _ _ _ _ ?w0] => set (w3 := w0) end.
    destruct (cleanup_shm_effect E PMapped (e_shm_open E) 1 w3) as (evc & Ht & Hr & _).
    eexists. eexists. exists ([EvFork (e_fork E); EvStderr "fork"] ++ evc).
    split; [reflexivity|]. split; [right; reflexivity|].
    split; [rewrite Ht; subst w3; cbn [w_trace log set_trace];
            rewrite Htr, <- !app_assoc; reflexivity|].
    rewrite Hk. cbn [Z.eqb negb]. rewrite <- unlinks_releases, releases_app, Hr.
    cbn [Shm.mapped Z.eqb].
    destruct (Z.eqb_spec (e_shm_open E) (-1)); [contradiction|reflexivity]. }
  destruct (Z.eqb_spec (e_fork E) 0) as [Hz|Hz]; cbn [negb].
  - match goal with |- context [bind _ _ ?w0] => set (w3 := w0) end.
    destruct (shm_child_any_input E (e_shm_open E) w3)
      as (r & w' & Hrun & Hres & _); [exact Hlen|].
    destruct (grows_run _ _ _ _ _ (shm_child_no_unlink E PMapped (e_shm_open E)) Hrun)
      as (evs & Ht & Hall).
    unfold bind at 1. rewrite Hrun.
    exists (match r with Ret _ => Ret 0 | _ => Exit EXIT_FAILURE end), w',
      ([EvFork (e_fork E)] ++ evs).
    split; [destruct Hres as [-> | ->]; reflexivity|].
    split; [destruct Hres as [-> | ->]; [left|right]; reflexivity|].
    split; [rewrite Ht; subst w3; cbn [w_trace log set_trace];
            rewrite Htr, <- !app_assoc; reflexivity|].
    rewrite unlinks_app, (unlinks_none evs Hall). reflexivity.
  - match goal with |- context [bind _ _ ?w0] => set (w3 := w0) end.
    destruct (shm_parent_total E (e_shm_open E) w3)
      as (r & w' & evs & Hrun & Hres & Ht & Hr & _); [exact Hlen|].
    unfold bind at 1. rewrite Hrun.
    exists (match r with Ret _ => Ret 0 | _ => Exit EXIT_FAILURE end), w',
      ([EvFork (e_fork E)] ++ evs).
    split; [destruct Hres as [-> | ->]; reflexivity|].
    split; [destruct Hres as [-> | ->]; [left|right]; reflexivity|].
    split; [rewrite Ht; subst w3; cbn [w_trace log set_trace];
            rewrite Htr, <- !app_assoc; reflexivity|].
    rewrite <- unlinks_releases, releases_app, Hr.
    destruct (Z.eqb_spec (e_shm_open E) (-1)); [contradiction|reflexivity].
Qed.

(** A run for X7: the parent, with every call succeeding. *)
Lemma shm_main_never_faults_witness :
  let E := Fixture.env_ok 1 4321 in
  exists r w' evs,
    Shm.main E (Fixture.world_of []) = (r, w')
    /\ (r = Ret 0 \/ r = Exit EXIT_FAILURE)
    /\ w_trace w' = w_trace (Fixture.world_of []) ++ evs
    /\ unlinks evs
       = (if negb (e_shm_open E =? -1)
             && ((e_ftruncate E =? -1)
                 || (Shm.mapped (e_mmap E) && negb (e_fork E =? 0)))
          then [EvShmUnlink Shm.SHM_NAME] else []).
Proof.
  intros E. apply (shm_main_never_faults E (Fixture.world_of [])). discriminate.
Defined.

(** ** The requests of the transfer loop *)

Lemma xfer_loop_requests {St : Type} (prim : St -> Z -> Z -> Z * St) fuel :
  Channel.bounded_prim prim ->
  forall s reqs total bytes,
    0 <= total <= bytes -> bytes < SIZE_MOD ->
    (Z.to_nat (bytes - total) < fuel)%nat ->
    exists ex s' more,
      Channel.xfer_loop (Channel.recording_requests prim) fuel (s, reqs) total bytes
        = Some (ex, (s', reqs ++ more))
      /\ Channel.xfer_loop prim fuel s total bytes = Some (ex, s')
      /\ Channel.contiguous total bytes more
      /\ Forall (Channel.inside_buffer bytes) more.
Proof.
  intros Hb. induction fuel as [|fuel IH]; intros s reqs total bytes Ht Hsz Hf;
    [lia|].
  cbn [Channel.xfer_loop]. destruct (Z.ltb_spec total bytes) as [Hlt|Hge].
  - unfold Channel.recording_requests at 1. cbn [fst snd].
    pose proof (Hb s total (bytes - total) ltac:(lia)) as Hle.
    destruct (prim s total (bytes - total)) as [r s1] eqn:Hp. cbn [fst] in Hle.
    destruct (Z.leb_spec r 0) as [Hr|Hr].
    + exists Channel.LoopBroken, s1, [(total, bytes - total, r)].
      split; [reflexivity|]. split; [reflexivity|].
      split; [cbn; repeat split; lia|].
      constructor; [cbn; lia|constructor].
    + assert ((total + r) mod SIZE_MOD = total + r) as Hm
        by (apply Z.mod_small; lia).
      rewrite Hm.
      destruct (IH s1 (reqs ++ [(total, bytes - total, r)]) (total + r) bytes)
        as (ex & s' & more & Hrun & Hplain & Hcont & Hin); [lia|lia|lia|].
      exists ex, s', ((total, bytes - total, r) :: more).
      split; [rewrite Hrun, <- app_assoc; reflexivity|].
      split; [exact Hplain|].
      split; [cbn; repeat split; [lia|exact Hcont]|].
      constructor; [cbn; lia|exact Hin].
  - exists (Channel.LoopDone total), s, [].
    split; [rewrite app_nil_r; reflexivity|]. split; [reflexivity|].
    split; [exact I|constructor].
Qed.

(** X8. The calls that [write_all] and [read_all] (the loop [xfer_all]
    around a primitive that never reports more than it was asked for)
    make tile the buffer: the first one starts at offset 0, each later
    one starts where the results so far end, each asks for all that is
    left of [bytes] and never for nothing, and none names a byte outside
    the [bytes] bytes of the buffer. Recording the requests does not
    change the result. *)
Theorem xfer_all_requests_tile_buffer :
  forall (St : Type) (prim : St -> Z -> Z -> Z * St) (s : St) (bytes : Z),
    0 <= bytes < SIZE_MOD ->
    Channel.bounded_prim prim ->
    exists r s' reqs,
      Channel.xfer_all prim s bytes = Some (r, s')
      /\ Channel.xfer_all (Channel.recording_requests prim) (s, []) bytes
           = Some (r, (s', reqs))
      /\ Channel.contiguous 0 bytes reqs
      /\ Forall (Channel.inside_buffer bytes) reqs.
Proof.
  intros St prim s bytes Hbytes Hb.
  destruct (xfer_loop_requests prim (S (Z.to_nat bytes)) Hb s [] 0 bytes)
    as (ex & s' & reqs & Hrun & Hplain & Hcont & Hin); [lia|lia|lia|].
  cbn [app] in Hrun. unfold Channel.xfer_all. rewrite Hrun, Hplain.
  destruct ex as [|t]; eexists; eexists; exists reqs;
    (split; [reflexivity|]); (split; [reflexivity|]); split; assumption.
Qed.

(** A run for X8: 8 bytes are asked for and the calls give 3, 2 and 3. *)
Lemma xfer_all_requests_tile_buffer_witness :
  Channel.xfer_all (Channel.recording_requests Fixture.scripted) ([3; 2; 3; 5], []) 8
    = Some (8, ([5], [(0, 8, 3); (3, 5, 2); (5, 3, 3)]))
  /\ exists r s' reqs,
      Channel.xfer_all Fixture.scripted [3; 2; 3; 5] 8 = Some (r, s')
      /\ Channel.xfer_all (Channel.recording_requests Fixture.scripted)
           ([3; 2; 3; 5], []) 8 = Some (r, (s', reqs))
      /\ Channel.contiguous 0 8 reqs
      /\ Forall (Channel.inside_buffer 8) reqs.
Proof.
  split; [reflexivity|].
  apply (xfer_all_requests_tile_buffer (list Z) Fixture.scripted [3; 2; 3; 5] 8).
  - unfold SIZE_MOD. lia.
  - intros s off len Hlen. destruct s; cbn [Fixture.scripted fst]; lia.
Defined.

(** ** The stream, whatever the kernel does *)

Lemma io_only_log_quiet e w w1 :
  io_only w w1 -> printed [e] = [] -> io_only w (log e w1).
Proof.
  intros (A & B & C & D) He. repeat split; try assumption.
  cbn [w_trace log set_trace]. rewrite printed_app, He, app_nil_r. exact D.
Qed.

Lemma sys_write_any E fd buf w off len :
  0 < len ->
  exists r w1,
    sys_write E fd buf w off len = (r, w1)
    /\ r <= len /\ io_only w w1
    /\ w_chan w1 = w_chan w ++ take (Z.to_nat r) (drop (Z.to_nat off) buf).
Proof.
  intros Hlen. unfold sys_write. cbv zeta.
  set (k := e_kernel E (w_ncalls w) len).
  assert (io_only w (tick w)) as Hio by (repeat split).
  destruct (Z.leb_spec k 0) as [Hk|Hk].
  - destruct (Z.leb_spec k 0) as [_|]; [|lia].
    eexists. eexists. split; [reflexivity|]. split; [lia|].
    split; [apply io_only_log_quiet; [exact Hio|reflexivity]|].
    cbn [w_chan log set_trace tick].
    replace (Z.to_nat k) with 0%nat by lia. rewrite take_0, app_nil_r. reflexivity.
  - destruct (Z.leb_spec (Z.min k len) 0) as [|_]; [lia|].
    eexists. eexists. split; [reflexivity|]. split; [lia|].
    split; [|reflexivity].
    destruct (io_only_log_quiet (EvWrite fd (Z.min k len)) w (tick w) Hio eq_refl)
      as (A & B & C & D).
    repeat split; assumption.
Qed.

Lemma write_loop_any E fd buf :
  Z.of_nat (length buf) < SIZE_MOD ->
  forall fuel w (total : nat),
    (total <= length buf)%nat ->
    (length buf - total < fuel)%nat ->
    exists ex w' (k : nat),
      Channel.xfer_loop (sys_write E fd buf) fuel w (Z.of_nat total)
        (Z.of_nat (length buf)) = Some (ex, w')
      /\ (total <= k <= length buf)%nat
      /\ w_chan w' = w_chan w ++ take (k - total) (drop total buf)
      /\ io_only w w'
      /\ match ex with
         | Channel.LoopDone t => t = Z.of_nat (length buf) /\ k = length buf
         | Channel.LoopBroken => (k < length buf)%nat
         end.
Proof.
  intros Hsz. induction fuel as [|fuel IH]; intros w total Ht Hf; [lia|].
  cbn [Channel.xfer_loop].
  destruct (Z.ltb_spec (Z.of_nat total) (Z.of_nat (length buf))) as [Hlt|Hge].
  - destruct (sys_write_any E fd buf w (Z.of_nat total)
                (Z.of_nat (length buf) - Z.of_nat total) ltac:(lia))
      as (r & w1 & Hrun & Hle & Hio & Hchan).
    rewrite Hrun. rewrite Nat2Z.id in Hchan.
    destruct (Z.leb_spec r 0) as [Hr|Hr].
    + exists Channel.LoopBroken, w1, total. split; [reflexivity|].
      split; [lia|]. split; [|split; [exact Hio|lia]].
      rewrite Hchan. replace (Z.to_nat r) with 0%nat by lia.
      rewrite Nat.sub_diag. reflexivity.
    + rewrite Z.mod_small by lia.
      replace (Z.of_nat total + r) with (Z.of_nat (total + Z.to_nat r)) by lia.
      destruct (IH w1 (total + Z.to_nat r)%nat ltac:(lia) ltac:(lia))
        as (ex & w' & k & Hloop & Hk & Hchan' & Hio' & Hex).
      exists ex, w', k. split; [exact Hloop|]. split; [lia|].
      split; [|split; [etransitivity; eassumption|exact Hex]].
      rewrite Hchan', Hchan, <- app_assoc. f_equal.
      rewrite <- drop_drop, take_take_drop. f_equal. lia.
  - assert (total = length buf) as -> by lia.
    exists (Channel.LoopDone (Z.of_nat (length buf))), w, (length buf).
    split; [reflexivity|]. split; [lia|].
    rewrite Nat.sub_diag, take_0, app_nil_r.
    split; [reflexivity|]. split; [reflexivity|]. split; reflexivity.
Qed.

Lemma write_all_any E fd buf w :
  Z.of_nat (length buf) <= SSIZE_MAX ->
  exists r w' (k : nat),
    write_all E fd buf (Z.of_nat (length buf)) w = (Ret r, w')
    /\ w_chan w' = w_chan w ++ take k buf
    /\ io_only w w'
    /\ ((r = Z.of_nat (length buf) /\ k = length buf)
        \/ (r = -1 /\ (k < length buf)%nat)).
Proof.
  intros Hsz. unfold write_all, Channel.xfer_all.
  destruct (write_loop_any E fd buf ltac:(unfold SSIZE_MAX, SIZE_MOD in *; lia)
              (S (Z.to_nat (Z.of_nat (length buf)))) w 0%nat ltac:(lia) ltac:(lia))
    as (ex & w' & k & Hloop & Hk & Hchan & Hio & Hex).
  change (Z.of_nat 0) with 0 in Hloop. rewrite Hloop.
  rewrite Nat.sub_0_r, drop_0 in Hchan.
  destruct ex as [|t].
  - exists (-1), w', k. split; [reflexivity|]. split; [exact Hchan|].
    split; [exact Hio|]. right. split; [reflexivity|exact Hex].
  - destruct Hex as [-> ->]. rewrite to_ssize_small by lia.
    exists (Z.of_nat (length buf)), w', (length buf).
    split; [reflexivity|]. split; [exact Hchan|]. split; [exact Hio|].
    left. split; reflexivity.
Qed.

Lemma sys_read_any E fd w b off len :
  0 < len ->
  exists r w1,
    sys_read E fd (w, b) off len
    = (r, (w1, splice b off (take (Z.to_nat r) (w_chan w))))
    /\ r <= len /\ (Z.to_nat r <= length (w_chan w))%nat
    /\ w_chan w1 = drop (Z.to_nat r) (w_chan w)
    /\ io_only w w1.
Proof.
  intros Hlen. unfold sys_read. cbv zeta. cbn [fst snd].
  set (k := e_kernel E (w_ncalls w) len).
  assert (io_only w (tick w)) as Hio by (repeat split).
  assert (forall r, r <= 0 -> splice b off (take (Z.to_nat r) (w_chan w)) = b) as Hsame.
  { intros r Hr. replace (Z.to_nat r) with 0%nat by lia. unfold splice.
    rewrite take_0. cbn [app length]. rewrite Nat.add_0_r. apply take_drop. }
  destruct (Z.leb_spec k 0) as [Hk|Hk].
  - destruct (Z.leb_spec k 0) as [_|]; [|lia].
    exists k. eexists. rewrite (Hsame k Hk). split; [reflexivity|].
    split; [lia|]. split; [lia|].
    split; [|apply io_only_log_quiet; [exact Hio|reflexivity]].
    cbn [w_chan log set_trace tick]. replace (Z.to_nat k) with 0%nat by lia.
    reflexivity.
  - set (n := Z.min (Z.min k len) (Z.of_nat (length (w_chan w)))).
    destruct (Z.leb_spec n 0) as [Hn|Hn].
    + exists n. eexists. rewrite (Hsame n Hn). split; [reflexivity|].
      split; [lia|]. split; [lia|].
      split; [|apply io_only_log_quiet; [exact Hio|reflexivity]].
      cbn [w_chan log set_trace tick]. replace (Z.to_nat n) with 0%nat by lia.
      reflexivity.
    + exists n. eexists. split; [reflexivity|]. split; [lia|]. split; [lia|].
      split; [reflexivity|].
      destruct (io_only_log_quiet (EvRead fd n) w (tick w) Hio eq_refl)
        as (A & B & C & D).
      repeat split; assumption.
Qed.

Lemma read_loop_any E fd (bytes : nat) :
  Z.of_nat bytes < SIZE_MOD ->
  forall fuel w b (total : nat),
    (total <= bytes)%nat ->
    (bytes <= length b)%nat ->
    (bytes - total < fuel)%nat ->
    exists ex w' (k : nat),
      Channel.xfer_loop (sys_read E fd) fuel (w, b) (Z.of_nat total) (Z.of_nat bytes)
      = Some (ex, (w', take total b ++ take (k - total) (w_chan w) ++ drop k b))
      /\ (total <= k <= bytes)%nat
      /\ (k - total <= length (w_chan w))%nat
      /\ w_chan w' = drop (k - total) (w_chan w)
      /\ io_only w w'
      /\ match ex with
         | Channel.LoopDone t => t = Z.of_nat bytes /\ k = bytes
         | Channel.LoopBroken => (k < bytes)%nat
         end.
Proof.
  intros Hsz. induction fuel as [|fuel IH]; intros w b total Ht Hb Hf; [lia|].
  cbn [Channel.xfer_loop].
  destruct (Z.ltb_spec (Z.of_nat total) (Z.of_nat bytes)) as [Hlt|Hge].
  - destruct (sys_read_any E fd w b (Z.of_nat total)
                (Z.of_nat bytes - Z.of_nat total) ltac:(lia))
      as (r & w1 & Hrun & Hle & Hav & Hchan & Hio).
    rewrite Hrun.
    destruct (Z.leb_spec r 0) as [Hr|Hr].
    + exists Channel.LoopBroken, w1, total.
      replace (Z.to_nat r) with 0%nat in * by lia.
      rewrite Nat.sub_diag. unfold splice. rewrite Nat2Z.id, take_0.
      cbn [app length]. rewrite Nat.add_0_r.
      split; [reflexivity|]. split; [lia|]. split; [lia|].
      split; [exact Hchan|]. split; [exact Hio|lia].
    + rewrite Z.mod_small by lia.
      set (n := Z.to_nat r) in *.
      replace (Z.of_nat total + r) with (Z.of_nat (total + n)) by lia.
      set (c := w_chan w) in *.
      assert (length (take n c) = n) as Hlen_chunk by (apply length_take_le; lia).
      set (b1 := splice b (Z.of_nat total) (take n c)).
      assert (b1 = (take total b ++ take n c) ++ drop (total + n) b) as Hb1.
      { unfold b1, splice. rewrite Nat2Z.id, Hlen_chunk, <- app_assoc. reflexivity. }
      assert (length (take total b ++ take n c) = (total + n)%nat) as Hpre.
      { rewrite length_app, Hlen_chunk, length_take_le by lia. reflexivity. }
      destruct (IH w1 b1 (total + n)%nat) as (ex & w' & k & Hloop & Hk & Hav' & Hchan' & Hio' & Hex).
      { lia. }
      { rewrite Hb1, length_app, Hpre, length_drop. lia. }
      { lia. }
      rewrite Hchan, length_drop in Hav'.
      exists ex, w', k. split; [|split; [lia|split; [lia|split; [|split]]]].
      * rewrite Hloop. f_equal. f_equal. f_equal.
        rewrite Hchan. rewrite Hb1 at 1.
        rewrite take_app_length' by (symmetry; exact Hpre).
        rewrite Hb1, drop_app_ge by lia. rewrite Hpre, drop_drop.
        replace (total + n + (k - (total + n)))%nat with k by lia.
        rewrite <- !app_assoc. f_equal. rewrite app_assoc. f_equal.
        rewrite take_take_drop. f_equal. lia.
      * rewrite Hchan', Hchan, drop_drop. f_equal. lia.
      * etransitivity; eassumption.
      * exact Hex.
  - assert (total = bytes) as -> by lia.
    exists (Channel.LoopDone (Z.of_nat bytes)), w, bytes.
    rewrite Nat.sub_diag, take_0, drop_0, app_nil_l, take_drop.
    split; [reflexivity|]. split; [lia|]. split; [lia|].
    split; [reflexivity|]. split; [reflexivity|]. split; reflexivity.
Qed.

Lemma read_all_any E fd (bytes : nat) buf w :
  Z.of_nat bytes < SIZE_MOD ->
  length buf = bytes ->
  exists r w' (k : nat),
    read_all E fd buf (Z.of_nat bytes) w
    = (Ret (r, take k (w_chan w) ++ drop k buf), w')
    /\ (k <= length (w_chan w))%nat
    /\ w_chan w' = drop k (w_chan w)
    /\ io_only w w'
    /\ ((r = to_ssize (Z.of_nat bytes) /\ k = bytes) \/ (r = -1 /\ (k < bytes)%nat)).
Proof.
  intros Hsz Hlen. unfold read_all, Channel.xfer_all.
  destruct (read_loop_any E fd bytes Hsz
              (S (Z.to_nat (Z.of_nat bytes))) w buf 0%nat
              ltac:(lia) ltac:(lia) ltac:(lia))
    as (ex & w' & k & Hloop & Hk & Hav & Hchan & Hio & Hex).
  change (Z.of_nat 0) with 0 in Hloop. rewrite Hloop.
  rewrite Nat.sub_0_r, take_0, app_nil_l in *.
  destruct ex as [|t].
  - exists (-1), w', k. split; [reflexivity|]. split; [exact Hav|].
    split; [exact Hchan|]. split; [exact Hio|]. right. split; [reflexivity|exact Hex].
  - destruct Hex as [-> ->].
    exists (to_ssize (Z.of_nat bytes)), w', bytes. split; [reflexivity|].
    split; [exact Hav|]. split; [exact Hchan|]. split; [exact Hio|].
    left. split; reflexivity.
Qed.

(** X9. Whatever each [write] call returns, [write_all] on a buffer of
    [bytes] bytes returns [bytes] or -1 and never loops for ever; the
    stream has grown by the first [k] bytes of the buffer, in order, with
    [k = bytes] when the result is [bytes] and [k < bytes] when it is -1.
    Nothing else of the world changes and nothing is printed. *)
Theorem write_all_sends_prefix :
  forall (E : env) (fd : Z) (buf : list Z) (w : world),
    Z.of_nat (length buf) <= SSIZE_MAX ->
    exists r w' (k : nat),
      write_all E fd buf (Z.of_nat (length buf)) w = (Ret r, w')
      /\ w_chan w' = w_chan w ++ take k buf
      /\ io_only w w'
      /\ ((r = Z.of_nat (length buf) /\ k = length buf)
          \/ (r = -1 /\ (k < length buf)%nat)).
Proof. intros E fd buf w. apply write_all_any. Qed.

(** A run for X9: the second call fails after the first has moved two of
    the three bytes. *)
Lemma write_all_sends_prefix_witness :
  let E := Env false (fun k _ => if (k =? 0)%nat then 2 else -1) (fun _ => true)
             4321 4321 5 (fun _ => 0) 0 0 0 0 0 0 3 0 PMapped in
  write_all E 4 [7; 8; 9] 3 (Fixture.world_chan [])
    = (Ret (-1), World [] [] [7; 8] 2 ∅ [EvWrite 4 2; EvWrite 4 (-1)])
  /\ exists r w' (k : nat),
      write_all E 4 [7; 8; 9] (Z.of_nat (length [7; 8; 9])) (Fixture.world_chan [])
        = (Ret r, w')
      /\ w_chan w' = w_chan (Fixture.world_chan []) ++ take k [7; 8; 9]
      /\ io_only (Fixture.world_chan []) w'
      /\ ((r = Z.of_nat (length [7; 8; 9]) /\ k = length [7; 8; 9])
          \/ (r = -1 /\ (k < 3)%nat)).
Proof.
  intros E. split; [reflexivity|].
  apply (write_all_sends_prefix E 4 [7; 8; 9] (Fixture.world_chan [])).
  vm_compute. discriminate.
Defined.

(** X10. Whatever each [read] call returns, [read_all] for [bytes] bytes
    returns [bytes] or -1 and never loops for ever; it has taken the
    first [k] bytes off the stream and put them, in order, at the start
    of the buffer, the rest of which is as before, with [k = bytes] when
    the result is [bytes] and [k < bytes] when it is -1. When the stream
    holds fewer than [bytes] bytes the result is -1. *)
Theorem read_all_takes_prefix :
  forall (E : env) (fd : Z) (bytes : nat) (buf : list Z) (w : world),
    Z.of_nat bytes <= SSIZE_MAX ->
    length buf = bytes ->
    exists r w' (k : nat),
      read_all E fd buf (Z.of_nat bytes) w
        = (Ret (r, take k (w_chan w) ++ drop k buf), w')
      /\ (k <= length (w_chan w))%nat
      /\ w_chan w' = drop k (w_chan w)
      /\ io_only w w'
      /\ ((r = Z.of_nat bytes /\ k = bytes) \/ (r = -1 /\ (k < bytes)%nat))
      /\ ((length (w_chan w) < bytes)%nat -> r = -1).
Proof.
  intros E fd bytes buf w Hsz Hlen.
  destruct (read_all_any E fd bytes buf w
              ltac:(unfold SSIZE_MAX, SIZE_MOD in *; lia) Hlen)
    as (r & w' & k & Hrun & Hav & Hchan & Hio & Hres).
  rewrite to_ssize_small in Hres by lia.
  exists r, w', k. split; [exact Hrun|]. split; [exact Hav|].
  split; [exact Hchan|]. split; [exact Hio|]. split; [exact Hres|].
  intros Hshort. destruct Hres as [[_ ->]|[-> _]]; [lia|reflexivity].
Qed.

(** A run for X10: four bytes are asked for and the stream ends after
    two. *)
Lemma read_all_takes_prefix_witness :
  read_all (Fixture.env_ok 4 0) 3 [0; 0; 0; 0] 4 (Fixture.world_chan [7; 8])
    = (Ret (-1, [7; 8; 0; 0]), World [] [] [] 2 ∅ [EvRead 3 2; EvRead 3 0])
  /\ exists r w' (k : nat),
      read_all (Fixture.env_ok 4 0) 3 [0; 0; 0; 0] (Z.of_nat 4) (Fixture.world_chan [7; 8])
        = (Ret (r, take k (w_chan (Fixture.world_chan [7; 8])) ++ drop k [0; 0; 0; 0]), w')
      /\ (k <= 2)%nat
      /\ w_chan w' = drop k (w_chan (Fixture.world_chan [7; 8]))
      /\ io_only (Fixture.world_chan [7; 8]) w'
      /\ ((r = Z.of_nat 4 /\ k = 4%nat) \/ (r = -1 /\ (k < 4)%nat))
      /\ ((2 < 4)%nat -> r = -1).
Proof.
  split; [reflexivity|].
  apply (read_all_takes_prefix (Fixture.env_ok 4 0) 3 4 [0; 0; 0; 0]
           (Fixture.world_chan [7; 8])).
  - vm_compute. discriminate.
  - reflexivity.
Defined.

(** ** The consumers of the stream, whatever arrives *)

Lemma bytes_to_int_range be bs : int_range (bytes_to_int be bs).
Proof.
  assert (forall u, int_range (to_int u)) as Hto.
  { intros u. unfold int_range, to_int, INT_MOD.
    pose proof (Z.mod_pos_bound u (2 ^ 32) ltac:(lia)).
    destruct (Z.ltb_spec (u mod 2 ^ 32) (2 ^ 31)); lia. }
  unfold bytes_to_int.
  destruct (if be then rev bs else bs) as [|b0 [|b1 [|b2 [|b3 [|b4 l]]]]];
    try apply Hto; unfold int_range; lia.
Qed.

(** A count whose byte size fits the stream is not negative. *)
Lemma size_mul_int_fits num :
  int_range num -> size_mul_int num < 2 ^ 31 ->
  0 <= num /\ size_mul_int num = 4 * num /\ to_size num = num.
Proof.
  unfold int_range. intros Hr Hfit.
  destruct (Z.le_gt_cases 0 num) as [Hp|Hn].
  - split; [exact Hp|]. split; [apply size_mul_int_small; lia|].
    unfold to_size, SIZE_MOD. apply Z.mod_small. lia.
  - exfalso. unfold size_mul_int, to_size, SIZE_MOD, sizeof_int in Hfit.
    assert (num mod 2 ^ 64 = num + 2 ^ 64) as Hm
      by (symmetry; apply Z.mod_unique with (q := -1); lia).
    rewrite Hm in Hfit.
    assert (((num + 2 ^ 64) * 4) mod 2 ^ 64 = 4 * num + 2 ^ 64) as Hm2
      by (symmetry; apply Z.mod_unique with (q := 3); lia).
    rewrite Hm2 in Hfit. lia.
Qed.

Lemma size_mul_int_bound num : 0 <= size_mul_int num < SIZE_MOD.
Proof. unfold size_mul_int. apply Z.mod_pos_bound. reflexivity. Qed.

Lemma bytes_to_ints_take be : forall n l,
  bytes_to_ints be n (take (4 * n) l) = bytes_to_ints be n l.
Proof.
  induction n as [|n IH]; intros l; [reflexivity|].
  cbn [bytes_to_ints]. rewrite take_take.
  replace (4 `min` (4 * S n))%nat with 4%nat by lia.
  f_equal. rewrite <- (IH (drop 4 l)). f_equal.
  rewrite take_drop_commute. f_equal. f_equal. lia.
Qed.

(** The loop that prints the [int] array held in a buffer of any bytes. *)
Lemma print_loop_bytes E buf :
  forall (n i : nat) w,
    (4 * (i + n) <= length buf)%nat ->
    for_fold n (Z.of_nat i) tt
      (fun i _ => bind (int_at E buf i) (fun v => emit (EvPrint v))) w
    = (Ret tt,
       set_trace (w_trace w
                  ++ map EvPrint (bytes_to_ints (e_big_endian E) n (drop (4 * i) buf))) w).
Proof.
  induction n as [|n IH]; intros i w Hlen.
  - cbn [for_fold bytes_to_ints map]. unfold ret. rewrite app_nil_r.
    destruct w; reflexivity.
  - cbn [for_fold]. unfold bind at 1. unfold bind at 1. unfold int_at at 1.
    unfold sizeof_int.
    destruct (Z.leb_spec 0 (Z.of_nat i)) as [_|]; [|lia].
    destruct (Z.leb_spec (4 * Z.of_nat i + 4) (Z.of_nat (length buf))) as [_|]; [|lia].
    cbn [andb]. unfold ret at 1. unfold emit at 1.
    replace (Z.of_nat i + 1) with (Z.of_nat (S i)) by lia.
    rewrite IH by lia.
    cbn [w_trace log set_trace w_stdin w_seg w_chan w_ncalls w_names bytes_to_ints map].
    replace (Z.to_nat (4 * Z.of_nat i)) with (4 * i)%nat by lia.
    rewrite drop_drop. replace (4 * i + 4)%nat with (4 * S i)%nat by lia.
    rewrite <- app_assoc. reflexivity.
Qed.

Lemma to_int_minus_one : to_int (-1) = -1.
Proof. reflexivity. Qed.

Lemma to_int_small u : 0 <= u < 2 ^ 31 -> to_int u = u.
Proof.
  intros Hu. unfold to_int, INT_MOD. rewrite Z.mod_small by lia.
  destruct (Z.ltb_spec u (2 ^ 31)); lia.
Qed.

Lemma printed_log_quiet e w :
  printed [e] = [] -> printed (w_trace (log e w)) = printed (w_trace w).
Proof.
  intros He. cbn [w_trace log set_trace]. rewrite printed_app, He. apply app_nil_r.
Qed.

Lemma pipe_parent_any E fd w :
  Z.of_nat (length (w_chan w)) < 2 ^ 31 ->
  exists r w',
    Pipe.parent_process E fd w = (r, w')
    /\ ((r = Exit EXIT_FAILURE /\ printed (w_trace w') = printed (w_trace w))
        \/ ((r = Ret tt \/ r = Exit EXIT_FAILURE)
            /\ exists n : nat,
                bytes_to_int (e_big_endian E) (take 4 (w_chan w)) = Z.of_nat n
                /\ (4 + 4 * n <= length (w_chan w))%nat
                /\ printed (w_trace w')
                   = printed (w_trace w)
                     ++ bytes_to_ints (e_big_endian E) n (drop 4 (w_chan w))
                /\ w_chan w' = drop (4 + 4 * n) (w_chan w))).
Proof.
  intros Hshort.
  unfold Pipe.parent_process. unfold bind at 1.
  destruct (read_all_any E fd 4 (replicate 4 0) w) as (r1 & w1 & k1 & Hrun1 & Hav1 & Hchan1 & Hio1 & Hres1).
  { unfold SIZE_MOD. lia. }
  { reflexivity. }
  change (Z.of_nat 4) with sizeof_int in Hrun1. rewrite Hrun1.
  cbv beta iota zeta. cbn [fst snd].
  unfold bind at 1. unfold check_result at 1.
  destruct Hres1 as [[-> ->]|[-> _]].
  2:{ rewrite to_int_minus_one. change (-1 =? -1) with true. cbv beta iota.
      unfold handle_error, bind, eprint, emit, exit.
      eexists. eexists. split; [reflexivity|]. left. split; [reflexivity|].
      rewrite printed_log_quiet by reflexivity. apply Hio1. }
  change (to_int (to_ssize (Z.of_nat 4)) =? -1) with false.
  unfold ret at 1. cbv beta iota.
  change (drop 4 (replicate 4 0)) with (@nil Z). rewrite app_nil_r.
  set (num := bytes_to_int (e_big_endian E) (take 4 (w_chan w))).
  assert (int_range num) as Hnum by apply bytes_to_int_range.
  unfold bind at 1. unfold malloc at 1. unfold bind at 1, emit at 1, ret at 1.
  unfold bind at 1. unfold Pipe.check_pointer at 1.
  destruct (e_malloc E (size_mul_int num)).
  2:{ unfold handle_error, bind, eprint, emit, exit.
      eexists. eexists. split; [reflexivity|]. left. split; [reflexivity|].
      rewrite !printed_log_quiet by reflexivity. apply Hio1. }
  unfold ret at 1. cbv beta iota.
  set (w2 := log (EvMalloc (size_mul_int num)) w1).
  assert (printed (w_trace w2) = printed (w_trace w)) as Hp2.
  { subst w2. rewrite printed_log_quiet by reflexivity. apply Hio1. }
  assert (w_chan w2 = drop 4 (w_chan w)) as Hc2 by exact Hchan1.
  clearbody w2.
  pose proof (size_mul_int_bound num) as HB.
  set (B := size_mul_int num) in *.
  unfold bind at 1.
  destruct (read_all_any E fd (Z.to_nat B) (replicate (Z.to_nat B) 0) w2)
    as (r2 & w3 & k2 & Hrun2 & Hav2 & Hchan2 & Hio2 & Hres2).
  { lia. }
  { apply length_replicate. }
  rewrite Z2Nat.id in Hrun2 by lia. rewrite Hrun2.
  cbv beta iota. cbn [fst snd].
  unfold bind at 1. unfold check_result at 1.
  destruct Hres2 as [[-> ->]|[-> _]].
  2:{ rewrite to_int_minus_one. change (-1 =? -1) with true. cbv beta iota.
      unfold handle_error, bind, eprint, emit, exit.
      eexists. eexists. split; [reflexivity|]. left. split; [reflexivity|].
      rewrite printed_log_quiet by reflexivity.
      destruct Hio2 as (_ & _ & _ & ->). exact Hp2. }
  rewrite Hc2, length_drop in Hav2.
  assert (B < 2 ^ 31) as Hfit by lia.
  destruct (size_mul_int_fits num Hnum Hfit) as (Hpos & HB4 & Hts).
  fold B in HB4.
  rewrite Z2Nat.id by lia.
  rewrite to_ssize_small by (unfold SSIZE_MAX; lia).
  rewrite to_int_small by lia.
  destruct (Z.eqb_spec B (-1)) as [|_]; [lia|].
  unfold ret at 1. cbv beta iota.
  rewrite Hts.
  set (n := Z.to_nat num).
  assert (Z.to_nat B = (4 * n)%nat) as HBn by lia.
  rewrite HBn in *.
  rewrite drop_ge, app_nil_r by (rewrite length_replicate; lia).
  unfold bind at 1.
  pose proof (print_loop_bytes E (take (4 * n) (w_chan w2)) n 0%nat w3) as Hpl.
  change (Z.of_nat 0) with 0 in Hpl. rewrite Hpl
    by (rewrite length_take_le by (rewrite Hc2, length_drop; lia); lia).
  rewrite drop_0, bytes_to_ints_take, Hc2.
  set (out := bytes_to_ints (e_big_endian E) n (drop 4 (w_chan w))).
  exec. unfold check_result.
  assert (printed (w_trace w3) = printed (w_trace w)) as Hp3
    by (destruct Hio2 as (_ & _ & _ & ->); exact Hp2).
  destruct (to_int (e_wait E) =? -1); exec; eexists; eexists;
    (split; [reflexivity|]); right;
    (split; [first [left; reflexivity|right; reflexivity]|]);
    exists n; (split; [subst n num; lia|]); (split; [lia|]);
    cbn [w_trace w_chan log set_trace];
    (split; [|rewrite Hchan2, Hc2, drop_drop; reflexivity]);
    rewrite ?printed_app, Hp3, printed_map_print; cbn [printed omap];
    rewrite ?app_nil_r; reflexivity.
Qed.

(** X11. Whatever bytes the pipe delivers (fewer than 2^31 of them) and
    whatever the calls return, the consumer of the pipe program never
    reads outside its buffer, and it prints all of a message or nothing:
    either it exits with [EXIT_FAILURE] having printed nothing, or the
    first four bytes of the stream decode to a count [n >= 0], the stream
    holds the [4 * n] bytes after them, and it has printed exactly the
    [n] values these bytes decode to and taken exactly these bytes off
    the stream. *)
Theorem pipe_consumer_all_or_nothing :
  forall (E : env) (fd : Z) (w : world),
    Z.of_nat (length (w_chan w)) < 2 ^ 31 ->
    exists r w',
      Pipe.parent_process E fd w = (r, w')
      /\ ((r = Exit EXIT_FAILURE /\ printed (w_trace w') = printed (w_trace w))
          \/ ((r = Ret tt \/ r = Exit EXIT_FAILURE)
              /\ exists n : nat,
                  bytes_to_int (e_big_endian E) (take 4 (w_chan w)) = Z.of_nat n
                  /\ (4 + 4 * n <= length (w_chan w))%nat
                  /\ printed (w_trace w')
                     = printed (w_trace w)
                       ++ bytes_to_ints (e_big_endian E) n (drop 4 (w_chan w))
                  /\ w_chan w' = drop (4 + 4 * n) (w_chan w))).
Proof. intros E fd w. apply pipe_parent_any. Qed.

(** A run for X11: the stream announces two values and ends after the
    first. *)
Lemma pipe_consumer_all_or_nothing_witness :
  let w := Fixture.world_chan [2; 0; 0; 0; 7; 0; 0; 0] in
  fst (Pipe.parent_process (Fixture.env_ok 4 4321) 3 w) = Exit EXIT_FAILURE
  /\ exists r w',
      Pipe.parent_process (Fixture.env_ok 4 4321) 3 w = (r, w')
      /\ ((r = Exit EXIT_FAILURE /\ printed (w_trace w') = printed (w_trace w))
          \/ ((r = Ret tt \/ r = Exit EXIT_FAILURE)
              /\ exists n : nat,
                  bytes_to_int (e_big_endian (Fixture.env_ok 4 4321)) (take 4 (w_chan w))
                  = Z.of_nat n
                  /\ (4 + 4 * n <= 8)%nat
                  /\ printed (w_trace w')
                     = printed (w_trace w)
                       ++ bytes_to_ints (e_big_endian (Fixture.env_ok 4 4321)) n
                            (drop 4 (w_chan w))
                  /\ w_chan w' = drop (4 + 4 * n) (w_chan w))).
Proof.
  intros w. split; [vm_compute; reflexivity|].
  apply (pipe_consumer_all_or_nothing (Fixture.env_ok 4 4321) 3 w).
  vm_compute. reflexivity.
Defined.

(** ** Teardown of the FIFO *)

Lemma fifo_cleanup_effect E w :
  exists evs,
    Fifo.cleanup_fifo E w = (Ret tt, snd (Fifo.cleanup_fifo E w))
    /\ w_trace (snd (Fifo.cleanup_fifo E w)) = w_trace w ++ evs
    /\ releases evs = [EvUnlink Fifo.FIFO_PATH]
    /\ printed evs = []
    /\ w_chan (snd (Fifo.cleanup_fifo E w)) = w_chan w
    /\ w_names (snd (Fifo.cleanup_fifo E w))
       = (if e_unlink E =? 0 then w_names w ∖ {[ Fifo.FIFO_PATH ]} else w_names w).
Proof.
  exec. destruct (e_unlink E =? 0) eqn:Hu; cbn [Z.eqb negb];
    [|rewrite Hu; cbn [negb]]; solve_trace; repeat split.
Qed.

Lemma fifo_close_effect E fd w :
  exists evs,
    Fifo.close_fd E fd w = (Ret tt, snd (Fifo.close_fd E fd w))
    /\ w_trace (snd (Fifo.close_fd E fd w)) = w_trace w ++ evs
    /\ releases evs = [EvClose fd]
    /\ printed evs = []
    /\ w_chan (snd (Fifo.close_fd E fd w)) = w_chan w
    /\ w_names (snd (Fifo.close_fd E fd w)) = w_names w.
Proof.
  exec. destruct (e_close E fd =? 0); cbn [negb]; solve_trace; repeat split.
Qed.

(** [close_fd(fd); cleanup_fifo();] *)
Lemma fifo_teardown {B} E fd (k : M B) w :
  exists w' evs,
    bind (Fifo.close_fd E fd) (fun _ => bind (Fifo.cleanup_fifo E) (fun _ => k)) w
    = k w'
    /\ w_trace w' = w_trace w ++ evs
    /\ releases evs = [EvClose fd; EvUnlink Fifo.FIFO_PATH]
    /\ printed evs = []
    /\ w_chan w' = w_chan w
    /\ w_names w'
       = (if e_unlink E =? 0 then w_names w ∖ {[ Fifo.FIFO_PATH ]} else w_names w).
Proof.
  destruct (fifo_close_effect E fd w) as (e1 & Hrun1 & Ht1 & Hr1 & Hp1 & Hc1 & Hn1).
  set (w1 := snd (Fifo.close_fd E fd w)) in *.
  destruct (fifo_cleanup_effect E w1) as (e2 & Hrun2 & Ht2 & Hr2 & Hp2 & Hc2 & Hn2).
  exists (snd (Fifo.cleanup_fifo E w1)), (e1 ++ e2).
  split; [unfold bind; rewrite Hrun1, Hrun2; reflexivity|].
  split; [rewrite Ht2, Ht1, <- app_assoc; reflexivity|].
  split; [rewrite releases_app, Hr1, Hr2; reflexivity|].
  split; [rewrite printed_app, Hp1, Hp2; reflexivity|].
  split; [congruence|]. rewrite Hn2, Hn1. reflexivity.
Qed.

Lemma read_all_any_trace E fd (bytes : nat) buf w :
  Z.of_nat bytes < SIZE_MOD ->
  length buf = bytes ->
  exists r w' (k : nat) evs,
    read_all E fd buf (Z.of_nat bytes) w
    = (Ret (r, take k (w_chan w) ++ drop k buf), w')
    /\ (k <= length (w_chan w))%nat
    /\ w_chan w' = drop k (w_chan w)
    /\ w_names w' = w_names w
    /\ w_trace w' = w_trace w ++ evs
    /\ releases evs = [] /\ printed evs = []
    /\ ((r = to_ssize (Z.of_nat bytes) /\ k = bytes) \/ (r = -1 /\ (k < bytes)%nat)).
Proof.
  intros Hsz Hlen.
  destruct (read_all_any E fd bytes buf w Hsz Hlen)
    as (r & w' & k & Hrun & Hav & Hchan & (_ & _ & Hn & Hp) & Hres).
  assert (steps (grows (fun e => negb (is_release e)))
            (read_all E fd buf (Z.of_nat bytes))) as Hst
    by (apply grows_read_all; intros; reflexivity).
  destruct (grows_run _ _ _ _ _ Hst Hrun) as (evs & Ht & Hall).
  exists r, w', k, evs. split; [exact Hrun|]. split; [exact Hav|].
  split; [exact Hchan|]. split; [exact Hn|]. split; [exact Ht|].
  split; [apply releases_none; exact Hall|]. split; [|exact Hres].
  rewrite Ht, printed_app in Hp.
  rewrite <- (app_nil_r (printed (w_trace w))) in Hp at 2.
  apply app_inv_head in Hp. exact Hp.
Qed.

Lemma releases_prints l : releases (map EvPrint l) = [].
Proof. induction l as [|v l IH]; [reflexivity|exact IH]. Qed.

Lemma fifo_parent_any E w :
  Z.of_nat (length (w_chan w)) < 2 ^ 31 ->
  exists r w' evs,
    Fifo.parent_process E w = (r, w')
    /\ w_trace w' = w_trace w ++ evs
    /\ releases evs
       = (if e_open E =? -1 then [] else [EvClose (e_open E)])
         ++ [EvUnlink Fifo.FIFO_PATH]
    /\ w_names w'
       = (if e_unlink E =? 0 then w_names w ∖ {[ Fifo.FIFO_PATH ]} else w_names w)
    /\ ((r = Exit EXIT_FAILURE /\ printed evs = [])
        \/ (r = Ret tt
            /\ exists n : nat,
                bytes_to_int (e_big_endian E) (take 4 (w_chan w)) = Z.of_nat n
                /\ (4 + 4 * n <= length (w_chan w))%nat
                /\ printed evs = bytes_to_ints (e_big_endian E) n (drop 4 (w_chan w))
                /\ w_chan w' = drop (4 + 4 * n) (w_chan w))).
Proof.
  intros Hshort.
  unfold Fifo.parent_process. unfold bind at 1. unfold Fifo.sys_open at 1.
  unfold bind at 1, emit at 1, ret at 1. cbv beta iota.
  set (fd := e_open E).
  set (w0 := log (EvOpen Fifo.FIFO_PATH fd) w).
  destruct (fd =? -1) eqn:Hopen.
  { unfold bind at 1. unfold eprint at 1, emit at 1.
    destruct (fifo_cleanup_effect E (log (EvStderr "open (parent)") w0))
      as (evc & Hrun & Ht & Hr & Hp & Hc & Hn).
    unfold bind at 1. rewrite Hrun.
    eexists. eexists. exists ([EvOpen Fifo.FIFO_PATH fd; EvStderr "open (parent)"] ++ evc).
    split; [reflexivity|].
    split; [rewrite Ht; subst w0; cbn [w_trace log set_trace];
            rewrite <- !app_assoc; reflexivity|].
    split; [rewrite releases_app, Hr; reflexivity|].
    split; [rewrite Hn; reflexivity|].
    left. split; [reflexivity|]. rewrite printed_app, Hp. reflexivity. }
  unfold bind at 1.
  destruct (read_all_any_trace E fd 4 (replicate 4 0) w0)
    as (r1 & w1 & k1 & ev1 & Hrun1 & Hav1 & Hchan1 & Hn1 & Ht1 & Hr1 & Hp1 & Hres1).
  { unfold SIZE_MOD. lia. }
  { reflexivity. }
  change (Z.of_nat 4) with sizeof_int in Hrun1. rewrite Hrun1.
  cbv beta iota zeta. cbn [fst snd].
  change (w_chan w0) with (w_chan w) in *.
  change (w_names w0) with (w_names w) in *.
  assert (w_trace w1 = w_trace w ++ EvOpen Fifo.FIFO_PATH fd :: ev1) as Ht1'
    by (rewrite Ht1; subst w0; cbn [w_trace log set_trace];
        rewrite <- app_assoc; reflexivity).
  clear Ht1 Hrun1. clearbody w0.
  destruct Hres1 as [[-> ->]|[-> _]].
  2:{ change (-1 =? -1) with true. cbv beta iota.
      unfold bind at 1. unfold eprint at 1, emit at 1.
      destruct (fifo_teardown E fd (@exit unit EXIT_FAILURE) (log (EvStderr "read_all") w1))
        as (w' & evc & Hrun & Ht & Hr & Hp & Hc & Hn).
      rewrite Hrun.
      eexists. eexists.
      exists ((EvOpen Fifo.FIFO_PATH fd :: ev1) ++ [EvStderr "read_all"] ++ evc).
      split; [reflexivity|].
      split; [rewrite Ht; cbn [w_trace log set_trace]; rewrite Ht1', <- !app_assoc;
              reflexivity|].
      split; [change (EvOpen Fifo.FIFO_PATH fd :: ev1)
                with ([EvOpen Fifo.FIFO_PATH fd] ++ ev1);
              rewrite !releases_app, Hr1, Hr; reflexivity|].
      split; [rewrite Hn; cbn [w_names log set_trace]; rewrite Hn1; reflexivity|].
      left. split; [reflexivity|].
      change (EvOpen Fifo.FIFO_PATH fd :: ev1)
        with ([EvOpen Fifo.FIFO_PATH fd] ++ ev1).
      rewrite !printed_app, Hp1, Hp. reflexivity. }
  change (to_ssize (Z.of_nat 4) =? -1) with false. cbv beta iota.
  change (drop 4 (replicate 4 0)) with (@nil Z). rewrite app_nil_r.
  set (num := bytes_to_int (e_big_endian E) (take 4 (w_chan w))).
  assert (int_range num) as Hnum by apply bytes_to_int_range.
  unfold bind at 1. unfold malloc at 1. unfold bind at 1, emit at 1, ret at 1.
  pose proof (size_mul_int_bound num) as HB.
  set (B := size_mul_int num) in *.
  set (w2 := log (EvMalloc B) w1).
  assert (w_trace w2 = w_trace w ++ (EvOpen Fifo.FIFO_PATH fd :: ev1) ++ [EvMalloc B]) as Ht2
    by (subst w2; cbn [w_trace log set_trace]; rewrite Ht1', <- app_assoc; reflexivity).
  assert (w_chan w2 = drop 4 (w_chan w)) as Hc2 by exact Hchan1.
  assert (w_names w2 = w_names w) as Hn2 by exact Hn1.
  set (ev2 := (EvOpen Fifo.FIFO_PATH fd :: ev1) ++ [EvMalloc B]) in *.
  assert (releases ev2 = [] /\ printed ev2 = []) as [Hr2 Hp2].
  { subst ev2. change (EvOpen Fifo.FIFO_PATH fd :: ev1)
      with ([EvOpen Fifo.FIFO_PATH fd] ++ ev1).
    rewrite !releases_app, !printed_app, Hr1, Hp1. split; reflexivity. }
  clearbody ev2 w2. clear Ht1' Hr1 Hp1 Hchan1 Hn1.
  destruct (e_malloc E B); cbn [negb].
  2:{ unfold bind at 1. unfold eprint at 1, emit at 1.
      destruct (fifo_teardown E fd (@exit unit EXIT_FAILURE) (log (EvStderr "malloc") w2))
        as (w' & evc & Hrun & Ht & Hr & Hp & Hc & Hn).
      rewrite Hrun.
      eexists. eexists. exists (ev2 ++ [EvStderr "malloc"] ++ evc).
      split; [reflexivity|].
      split; [rewrite Ht; cbn [w_trace log set_trace]; rewrite Ht2, <- !app_assoc;
              reflexivity|].
      split; [rewrite !releases_app, Hr2, Hr; reflexivity|].
      split; [rewrite Hn; cbn [w_names log set_trace]; rewrite Hn2; reflexivity|].
      left. split; [reflexivity|]. rewrite !printed_app, Hp2, Hp. reflexivity. }
  unfold bind at 1.
  destruct (read_all_any_trace E fd (Z.to_nat B) (replicate (Z.to_nat B) 0) w2)
    as (r3 & w3 & k3 & ev3 & Hrun3 & Hav3 & Hchan3 & Hn3 & Ht3 & Hr3 & Hp3 & Hres3).
  { lia. }
  { apply length_replicate. }
  rewrite Z2Nat.id in Hrun3 by lia. rewrite Hrun3.
  cbv beta iota. cbn [fst snd].
  destruct Hres3 as [[-> ->]|[-> _]].
  2:{ change (-1 =? -1) with true. cbv beta iota.
      unfold bind at 1. unfold eprint at 1, emit at 1.
      unfold bind at 1. unfold free at 1, emit at 1.
      destruct (fifo_teardown E fd (@exit unit EXIT_FAILURE)
                  (log EvFree (log (EvStderr "read_all") w3)))
        as (w' & evc & Hrun & Ht & Hr & Hp & Hc & Hn).
      rewrite Hrun.
      eexists. eexists. exists (ev2 ++ ev3 ++ [EvStderr "read_all"; EvFree] ++ evc).
      split; [reflexivity|].
      split; [rewrite Ht; cbn [w_trace log set_trace]; rewrite Ht3, Ht2, <- !app_assoc;
              reflexivity|].
      split; [rewrite !releases_app, Hr2, Hr3, Hr; reflexivity|].
      split; [rewrite Hn; cbn [w_names log set_trace]; rewrite Hn3, Hn2; reflexivity|].
      left. split; [reflexivity|]. rewrite !printed_app, Hp2, Hp3, Hp. reflexivity. }
  rewrite Hc2, length_drop in Hav3.
  assert (B < 2 ^ 31) as Hfit by lia.
  destruct (size_mul_int_fits num Hnum Hfit) as (Hpos & HB4 & Hts).
  fold B in HB4.
  rewrite Z2Nat.id by lia.
  rewrite to_ssize_small by (unfold SSIZE_MAX; lia).
  destruct (Z.eqb_spec B (-1)) as [|_]; [lia|].
  rewrite Hts.
  set (n := Z.to_nat num).
  assert (Z.to_nat B = (4 * n)%nat) as HBn by lia.
  rewrite HBn in *.
  rewrite drop_ge, app_nil_r by (rewrite length_replicate; lia).
  unfold bind at 1.
  pose proof (print_loop_bytes E (take (4 * n) (w_chan w2)) n 0%nat w3) as Hpl.
  change (Z.of_nat 0) with 0 in Hpl. rewrite Hpl
    by (rewrite length_take_le by (rewrite Hc2, length_drop; lia); lia).
  rewrite drop_0, bytes_to_ints_take, Hc2.
  set (out := bytes_to_ints (e_big_endian E) n (drop 4 (w_chan w))).
  unfold bind at 1. unfold emit at 1.
  unfold bind at 1. unfold free at 1, emit at 1.
  match goal with |- context [bind _ _ ?w0] => set (w4 := w0) end.
  destruct (fifo_teardown E fd
              (bind (sys_wait E) (fun r => when (r =? -1) (eprint "wait"))) w4)
    as (w5 & evc & Hrun & Ht & Hr & Hp & Hc & Hn).
  rewrite Hrun.
  assert (w_trace w5
          = w_trace w ++ ev2 ++ ev3 ++ map EvPrint out ++ [EvNewline; EvFree] ++ evc) as Ht5.
  { rewrite Ht. subst w4. cbn [w_trace log set_trace].
    rewrite Ht3, Ht2, <- !app_assoc. reflexivity. }
  assert (w_names w5
          = (if e_unlink E =? 0 then w_names w ∖ {[ Fifo.FIFO_PATH ]} else w_names w)) as Hn5.
  { rewrite Hn. subst w4. cbn [w_names log set_trace]. rewrite Hn3, Hn2. reflexivity. }
  assert (w_chan w5 = drop (4 + 4 * n) (w_chan w)) as Hc5.
  { rewrite Hc. subst w4. cbn [w_chan log set_trace].
    rewrite Hchan3, Hc2, drop_drop. reflexivity. }
  clearbody w4.
  exec. unfold sys_wait, bind, emit, ret.
  destruct (e_wait E =? -1); cbn [when]; unfold eprint, emit, ret;
    eexists; eexists; eexists; (split; [reflexivity|]);
    cbn [w_trace w_names w_chan log set_trace];
    (split; [rewrite Ht5, <- !app_assoc; reflexivity|]);
    rewrite !releases_app, !printed_app, Hr2, Hr3, Hr, Hp2, Hp3, Hp,
      releases_prints, printed_map_print;
    (split; [reflexivity|]); (split; [exact Hn5|]);
    right; (split; [reflexivity|]); exists n;
    (split; [subst n num; lia|]); (split; [lia|]);
    (split; [cbn; rewrite ?app_nil_r; reflexivity|exact Hc5]).
Qed.

(** X12. Whatever bytes the FIFO delivers (fewer than 2^31 of them) and
    whatever the calls return, the consumer of the FIFO program never
    reads outside its buffer and leaves by returning or by
    [exit(EXIT_FAILURE)]; on every one of its paths it has closed the
    descriptor once when [open] had succeeded, and after that called
    [unlink] on the path of the FIFO exactly once, so that the name is
    gone when [unlink] succeeds. It prints all of a message or nothing:
    when it exits it has printed nothing, and when it returns it has
    printed exactly the values that the bytes after the count decode
    to. *)
Theorem fifo_consumer_cleans_up :
  forall (E : env) (w : world),
    Z.of_nat (length (w_chan w)) < 2 ^ 31 ->
    exists r w' evs,
      Fifo.parent_process E w = (r, w')
      /\ w_trace w' = w_trace w ++ evs
      /\ releases evs
         = (if e_open E =? -1 then [] else [EvClose (e_open E)])
           ++ [EvUnlink Fifo.FIFO_PATH]
      /\ (e_unlink E = 0 -> Fifo.FIFO_PATH ∉ w_names w')
      /\ ((r = Exit EXIT_FAILURE /\ printed evs = [])
          \/ (r = Ret tt
              /\ exists n : nat,
                  bytes_to_int (e_big_endian E) (take 4 (w_chan w)) = Z.of_nat n
                  /\ (4 + 4 * n <= length (w_chan w))%nat
                  /\ printed evs
                     = bytes_to_ints (e_big_endian E) n (drop 4 (w_chan w))
                  /\ w_chan w' = drop (4 + 4 * n) (w_chan w))).
Proof.
  intros E w Hshort.
  destruct (fifo_parent_any E w Hshort) as (r & w' & evs & Hrun & Ht & Hr & Hn & Hres).
  exists r, w', evs. split; [exact Hrun|]. split; [exact Ht|]. split; [exact Hr|].
  split; [|exact Hres].
  intros Hu. rewrite Hn, Hu. apply name_removed.
Qed.

(** A run for X12: the stream holds a count of 1 and the value 7. *)
Lemma fifo_consumer_cleans_up_witness :
  let E := Fixture.env_ok 4 4321 in
  let w := World [] [] [1; 0; 0; 0; 7; 0; 0; 0] 0 {[ Fifo.FIFO_PATH ]} [] in
  exists r w' evs,
    Fifo.parent_process E w = (r, w')
    /\ w_trace w' = w_trace w ++ evs
    /\ releases evs
       = (if e_open E =? -1 then [] else [EvClose (e_open E)])
         ++ [EvUnlink Fifo.FIFO_PATH]
    /\ (e_unlink E = 0 -> Fifo.FIFO_PATH ∉ w_names w')
    /\ ((r = Exit EXIT_FAILURE /\ printed evs = [])
        \/ (r = Ret tt
            /\ exists n : nat,
                bytes_to_int (e_big_endian E) (take 4 (w_chan w)) = Z.of_nat n
                /\ (4 + 4 * n <= 8)%nat
                /\ printed evs
                   = bytes_to_ints (e_big_endian E) n (drop 4 (w_chan w))
                /\ w_chan w' = drop (4 + 4 * n) (w_chan w))).
Proof.
  intros E w. apply (fifo_consumer_cleans_up E w). vm_compute. reflexivity.
Defined.

(** ** The producers of the stream, whatever the kernel does *)

Lemma pipe_child_prefix E fd w num payload rest :
  1 <= num <= 256 ->
  Z.of_nat (length payload) = num ->
  w_stdin w = Some num :: map Some payload ++ rest ->
  exists r w' (k : nat),
    Pipe.child_process E fd w = (r, w')
    /\ w_chan w' = w_chan w ++ take k (int_to_bytes (e_big_endian E) num
                                       ++ ints_to_bytes (e_big_endian E) payload)
    /\ ((r = Ret tt /\ k = (4 + 4 * length payload)%nat)
        \/ (r = Exit EXIT_FAILURE /\ (k < 4 + 4 * length payload)%nat)).
Proof.
  intros Hnum Hlen Hin.
  set (hdr := int_to_bytes (e_big_endian E) num).
  set (body := ints_to_bytes (e_big_endian E) payload).
  assert (length hdr = 4%nat) as Hhdr by apply int_to_bytes_length.
  assert (length body = (4 * length payload)%nat) as Hbody by apply ints_to_bytes_length.
  unfold Pipe.child_process. unfold bind at 1. unfold scanf_d at 1. rewrite Hin.
  assert (Pipe.bad_count num = false) as ->
    by (unfold Pipe.bad_count, Pipe.BUFFER_SIZE, sizeof_int;
        change (1024 / 4) with 256; lia).
  unfold bind at 1. unfold malloc at 1. unfold bind at 1, emit at 1, ret at 1.
  unfold bind at 1. unfold Pipe.check_pointer at 1.
  destruct (e_malloc E (size_mul_int num)).
  2:{ unfold handle_error, bind, eprint, emit, exit.
      eexists. eexists. exists 0%nat. split; [reflexivity|].
      split; [rewrite take_0, app_nil_r; reflexivity|]. right. split; [reflexivity|lia]. }
  unfold ret at 1. cbv beta iota.
  unfold bind at 1.
  replace (Z.to_nat (to_size num)) with (length payload)
    by (unfold to_size, SIZE_MOD; rewrite Z.mod_small by lia; lia).
  match goal with
  | |- context [for_fold _ _ _ ?body _] =>
      rewrite (scan_loop body ltac:(scan_body) payload 0%nat _ _ rest)
  end;
    [|cbn [w_stdin set_stdin log set_trace]; reflexivity
     |rewrite length_replicate; lia].
  cbv beta iota.
  rewrite take_0, app_nil_l, drop_ge, app_nil_r by (rewrite length_replicate; lia).
  match goal with |- context [bind _ _ ?w0] => set (w1 := w0) end.
  assert (w_chan w1 = w_chan w) as Hc1 by reflexivity.
  clearbody w1.
  unfold bind at 1.
  destruct (write_all_any E fd hdr w1) as (r2 & w2 & k2 & Hrun2 & Hchan2 & _ & Hres2).
  { rewrite Hhdr. unfold SSIZE_MAX. lia. }
  rewrite Hhdr in Hrun2, Hres2. change (Z.of_nat 4) with sizeof_int in Hrun2.
  fold hdr. rewrite Hrun2.
  destruct Hres2 as [[-> ->]|[-> Hk2]].
  2:{ change (-1 =? -1) with true. cbv beta iota.
      unfold handle_error, bind, free, eprint, emit, exit.
      eexists. eexists. exists k2. split; [reflexivity|].
      cbn [w_chan log set_trace].
      split; [rewrite Hchan2, Hc1, take_app_le by lia; reflexivity|].
      right. split; [reflexivity|lia]. }
  change (Z.of_nat 4 =? -1) with false. cbv beta iota.
  unfold bind at 1.
  destruct (write_all_any E fd body w2) as (r3 & w3 & k3 & Hrun3 & Hchan3 & _ & Hres3).
  { rewrite Hbody. unfold SSIZE_MAX. lia. }
  rewrite Hbody in Hrun3, Hres3.
  replace (Z.of_nat (4 * length payload)) with (size_mul_int num) in Hrun3
    by (rewrite size_mul_int_small; lia).
  fold body. rewrite Hrun3.
  assert (w_chan w3 = w_chan w ++ take (4 + k3) (hdr ++ body)) as Hc3.
  { rewrite Hchan3, Hchan2, Hc1, <- app_assoc. f_equal.
    rewrite (take_ge hdr 4) by lia.
    symmetry. apply take_app_add'. symmetry. exact Hhdr. }
  destruct Hres3 as [[-> ->]|[-> Hk3]].
  - assert ((Z.of_nat (4 * length payload) =? -1) = false) as -> by lia.
    unfold free, emit. eexists. eexists. exists (4 + 4 * length payload)%nat.
    split; [reflexivity|]. cbn [w_chan log set_trace].
    split; [exact Hc3|]. left. split; reflexivity.
  - change (-1 =? -1) with true. cbv beta iota.
    unfold handle_error, bind, free, eprint, emit, exit.
    eexists. eexists. exists (4 + k3)%nat. split; [reflexivity|].
    cbn [w_chan log set_trace]. split; [exact Hc3|].
    right. split; [reflexivity|lia].
Qed.

(** X13. Whatever the [write] and [read] calls of the pipe program
    return, a message is delivered whole or not at all. The producer,
    given a valid count and that many values, leaves on the stream a
    prefix of the encoded message, all of it when it returns and a proper
    prefix when it exits with [EXIT_FAILURE]. The consumer run on what
    the producer left prints either nothing or exactly the values the
    producer read, and when the producer failed the consumer prints
    nothing and exits with [EXIT_FAILURE]. *)
Theorem pipe_message_all_or_nothing :
  forall (E : env) (num : Z) (payload : list Z) (rest : list (option Z)) (w : world),
    1 <= num <= 256 ->
    Z.of_nat (length payload) = num ->
    Forall int_range payload ->
    w_stdin w = Some num :: map Some payload ++ rest ->
    w_chan w = [] ->
    exists rc wc rp wp (k : nat),
      Pipe.child_process E Pipe.fd_write w = (rc, wc)
      /\ w_chan wc = take k (int_to_bytes (e_big_endian E) num
                             ++ ints_to_bytes (e_big_endian E) payload)
      /\ ((rc = Ret tt /\ k = (4 + 4 * length payload)%nat)
          \/ (rc = Exit EXIT_FAILURE /\ (k < 4 + 4 * length payload)%nat))
      /\ Pipe.parent_process E Pipe.fd_read (set_trace [] wc) = (rp, wp)
      /\ (printed (w_trace wp) = [] \/ printed (w_trace wp) = payload)
      /\ (rc = Exit EXIT_FAILURE ->
          rp = Exit EXIT_FAILURE /\ printed (w_trace wp) = []).
Proof.
  intros E num payload rest w Hnum Hlen Hpay Hin Hempty.
  destruct (pipe_child_prefix E Pipe.fd_write w num payload rest Hnum Hlen Hin)
    as (rc & wc & k & Hrunc & Hchan & Hresc).
  rewrite Hempty in Hchan. cbn [app] in Hchan.
  set (hdr := int_to_bytes (e_big_endian E) num) in *.
  set (body := ints_to_bytes (e_big_endian E) payload) in *.
  assert (length hdr = 4%nat) as Hhdr by apply int_to_bytes_length.
  assert (length body = (4 * length payload)%nat) as Hbody by apply ints_to_bytes_length.
  assert (k <= 4 + 4 * length payload)%nat as Hk by (destruct Hresc as [[_ ->]|[_ H]]; lia).
  assert (length (w_chan wc) = k) as Hlenc
    by (rewrite Hchan, length_take_le; [reflexivity|rewrite length_app; lia]).
  destruct (pipe_parent_any E Pipe.fd_read (set_trace [] wc))
    as (rp & wp & Hrunp & Hresp).
  { cbn [w_chan set_trace]. lia. }
  cbn [w_chan w_trace set_trace printed omap app] in Hresp.
  exists rc, wc, rp, wp, k. split; [exact Hrunc|]. split; [exact Hchan|].
  split; [exact Hresc|]. split; [exact Hrunp|].
  destruct Hresp as [[-> Hnone]|(Hrp & n & Hcount & Hfit & Hprinted & _)].
  { split; [left; exact Hnone|]. intros _. split; [reflexivity|exact Hnone]. }
  rewrite Hlenc in Hfit.
  assert (take 4 (w_chan wc) = hdr) as Hhead.
  { rewrite Hchan, take_take. replace (4 `min` k)%nat with 4%nat by lia.
    apply take_app_length'. symmetry. exact Hhdr. }
  rewrite Hhead in Hcount. unfold hdr in Hcount.
  rewrite bytes_to_int_to_bytes in Hcount by (unfold int_range; lia).
  assert (n = length payload) as -> by lia.
  assert (k = (4 + 4 * length payload)%nat) as -> by lia.
  assert (w_chan wc = hdr ++ body) as Hall
    by (rewrite Hchan; apply take_ge; rewrite length_app; lia).
  rewrite Hall, drop_app_length' in Hprinted by (symmetry; exact Hhdr).
  unfold body in Hprinted. rewrite bytes_to_ints_to_bytes in Hprinted by exact Hpay.
  split; [right; exact Hprinted|].
  intros ->. destruct Hresc as [[Habs _]|[_ Hlt]]; [discriminate|lia].
Qed.

(** A run for X13: the count 1 and the value 7 are sent, and the kernel
    fails the fourth [write] call. *)
Lemma pipe_message_all_or_nothing_witness :
  let E := Env false (fun k _ => if (k <? 3)%nat then 2 else -1) (fun _ => true)
             4321 4321 5 (fun _ => 0) 0 0 0 0 0 0 3 0 PMapped in
  let w := Fixture.world_of [1; 7] in
  exists rc wc rp wp (k : nat),
    Pipe.child_process E Pipe.fd_write w = (rc, wc)
    /\ w_chan wc = take k (int_to_bytes (e_big_endian E) 1
                           ++ ints_to_bytes (e_big_endian E) [7])
    /\ ((rc = Ret tt /\ k = 8%nat) \/ (rc = Exit EXIT_FAILURE /\ (k < 8)%nat))
    /\ Pipe.parent_process E Pipe.fd_read (set_trace [] wc) = (rp, wp)
    /\ (printed (w_trace wp) = [] \/ printed (w_trace wp) = [7])
    /\ (rc = Exit EXIT_FAILURE ->
        rp = Exit EXIT_FAILURE /\ printed (w_trace wp) = []).
Proof.
  intros E w.
  apply (pipe_message_all_or_nothing E 1 [7] [] w).
  - lia.
  - reflexivity.
  - repeat constructor; vm_compute; discriminate.
  - reflexivity.
  - reflexivity.
Defined.

(** ** The pipe program with both roles in [main] *)

Lemma pipe_inline_child_ok E w num payload :
  kernel_ok E ->
  e_malloc E (size_mul_int num) = true ->
  1 <= num <= 256 ->
  Z.of_nat (length payload) = num ->
  w_stdin w = Some num :: map Some payload ->
  exists wc,
    PipeInline.child_branch E w = (Ret tt, wc)
    /\ w_chan wc = w_chan w ++ int_to_bytes (e_big_endian E) num
                            ++ ints_to_bytes (e_big_endian E) payload
    /\ w_seg wc = w_seg w /\ w_names wc = w_names w
    /\ printed (w_trace wc) = printed (w_trace w).
Proof.
  intros Hk Hmalloc Hnum Hlen Hin.
  unfold PipeInline.child_branch. unfold bind at 1. unfold sys_close at 1.
  unfold bind at 1, emit at 1, ret at 1. cbv beta iota.
  unfold bind at 1. unfold scanf_d at 1. cbn [w_stdin log set_trace]. rewrite Hin.
  assert (PipeInline.bad_count num = false) as ->
    by (unfold PipeInline.bad_count, PipeInline.BUFFER_SIZE, sizeof_int;
        change (1024 / 4) with 256; lia).
  unfold bind at 1. unfold malloc at 1. unfold bind at 1, emit at 1, ret at 1.
  rewrite Hmalloc. cbv beta iota. cbn [negb].
  unfold bind at 1.
  replace (Z.to_nat (to_size num)) with (length payload)
    by (unfold to_size, SIZE_MOD; rewrite Z.mod_small by lia; lia).
  match goal with
  | |- context [for_fold _ _ _ ?body _] =>
      rewrite (scan_loop body ltac:(scan_body) payload 0%nat _ _ [])
  end;
    [|cbn [w_stdin set_stdin log set_trace]; rewrite app_nil_r; reflexivity
     |rewrite length_replicate; lia].
  cbv beta iota.
  rewrite take_0, app_nil_l, drop_ge, app_nil_r by (rewrite length_replicate; lia).
  match goal with |- context [bind _ _ ?w0] => set (w1 := w0) end.
  assert (w_chan w1 = w_chan w /\ w_seg w1 = w_seg w /\ w_names w1 = w_names w
          /\ printed (w_trace w1) = printed (w_trace w)) as (Hc1 & Hs1 & Hn1 & Hp1).
  { subst w1. cbn [w_chan w_seg w_names w_trace set_stdin log set_trace]. repeat split.
    rewrite !printed_app. cbn. rewrite !app_nil_r. reflexivity. }
  clearbody w1.
  unfold bind at 1.
  destruct (write_all_ok E Pipe.fd_write (int_to_bytes (e_big_endian E) num) w1 Hk)
    as (w2 & Hrun2 & Hchan2 & Hio2).
  { rewrite int_to_bytes_length. unfold SSIZE_MAX. lia. }
  rewrite int_to_bytes_length in Hrun2. change (Z.of_nat 4) with sizeof_int in Hrun2.
  rewrite Hrun2. change (sizeof_int =? -1) with false. cbv beta iota.
  unfold bind at 1.
  destruct (write_all_ok E Pipe.fd_write (ints_to_bytes (e_big_endian E) payload) w2 Hk)
    as (w3 & Hrun3 & Hchan3 & Hio3).
  { rewrite ints_to_bytes_length. unfold SSIZE_MAX. lia. }
  rewrite ints_to_bytes_length in Hrun3.
  replace (Z.of_nat (4 * length payload)) with (size_mul_int num) in Hrun3
    by (rewrite size_mul_int_small; lia).
  rewrite Hrun3.
  assert ((size_mul_int num =? -1) = false) as ->
    by (rewrite size_mul_int_small; lia).
  exec. eexists. split; [reflexivity|].
  destruct Hio2 as (A2 & B2 & C2 & D2). destruct Hio3 as (A3 & B3 & C3 & D3).
  cbn [w_chan w_seg w_names w_trace log set_trace].
  rewrite Hchan3, Hchan2, Hc1, <- app_assoc. repeat split; try congruence.
  rewrite !printed_app. cbn. rewrite !app_nil_r. congruence.
Qed.

Lemma pipe_inline_parent_ok E w num payload rest :
  kernel_ok E ->
  e_malloc E (size_mul_int num) = true ->
  0 <= num < 2 ^ 29 ->
  Z.of_nat (length payload) = num ->
  Forall int_range payload ->
  w_chan w = int_to_bytes (e_big_endian E) num
             ++ ints_to_bytes (e_big_endian E) payload ++ rest ->
  exists wp,
    PipeInline.parent_branch E w = (Ret tt, wp)
    /\ printed (w_trace wp) = printed (w_trace w) ++ payload
    /\ w_chan wp = rest.
Proof.
  intros Hk Hmalloc Hnum Hlen Hpay Hchan.
  assert (int_range num) as Hrange by (unfold int_range; lia).
  unfold PipeInline.parent_branch. unfold bind at 1. unfold sys_close at 1.
  unfold bind at 1, emit at 1, ret at 1. cbv beta iota.
  set (w0 := log (EvClose Pipe.fd_write) w).
  assert (w_chan w0 = w_chan w /\ printed (w_trace w0) = printed (w_trace w))
    as (Hc0 & Hp0).
  { subst w0. split; [reflexivity|]. apply printed_log_quiet. reflexivity. }
  clearbody w0. rewrite <- Hc0 in Hchan.
  unfold bind at 1.
  destruct (read_all_ok E Pipe.fd_read 4 (replicate 4 0) w0 Hk)
    as (w2 & Hrun2 & Hchan2 & Hio2).
  { unfold SSIZE_MAX. lia. }
  { rewrite Hchan, length_app, int_to_bytes_length. lia. }
  { reflexivity. }
  change (Z.of_nat 4) with sizeof_int in Hrun2. rewrite Hrun2.
  rewrite Hchan in *.
  rewrite take_app_length' in * by (symmetry; apply int_to_bytes_length).
  rewrite drop_app_length' in Hchan2 by (symmetry; apply int_to_bytes_length).
  cbv beta iota zeta. cbn [fst snd].
  change (sizeof_int =? -1) with false. cbv beta iota.
  rewrite bytes_to_int_to_bytes by exact Hrange.
  unfold bind at 1. unfold malloc at 1. unfold bind at 1, emit at 1, ret at 1.
  rewrite Hmalloc. cbv beta iota. cbn [negb].
  match goal with |- context [bind _ _ ?w1] => set (w3 := w1) end.
  assert (w_chan w3 = ints_to_bytes (e_big_endian E) payload ++ rest
          /\ printed (w_trace w3) = printed (w_trace w)) as (Hc3 & Hp3).
  { subst w3. cbn [w_chan w_trace log set_trace]. split; [exact Hchan2|].
    rewrite printed_app. cbn. rewrite app_nil_r.
    destruct Hio2 as (_ & _ & _ & ->). exact Hp0. }
  clearbody w3.
  unfold bind at 1.
  assert (size_mul_int num = Z.of_nat (4 * length payload)) as Hsize
    by (rewrite size_mul_int_small; lia).
  rewrite Hsize.
  destruct (read_all_ok E Pipe.fd_read (4 * length payload)
              (replicate (Z.to_nat (Z.of_nat (4 * length payload))) 0) w3 Hk)
    as (w4 & Hrun4 & Hchan4 & Hio4).
  { unfold SSIZE_MAX. lia. }
  { rewrite Hc3, length_app, ints_to_bytes_length. lia. }
  { rewrite length_replicate. lia. }
  rewrite Hrun4. rewrite Hc3 in *.
  rewrite take_app_length' in * by (symmetry; apply ints_to_bytes_length).
  rewrite drop_app_length' in Hchan4 by (symmetry; apply ints_to_bytes_length).
  cbv beta iota. cbn [fst snd].
  assert ((Z.of_nat (4 * length payload) =? -1) = false) as -> by lia.
  unfold bind at 1.
  replace (Z.to_nat (to_size num)) with (length payload)
    by (unfold to_size, SIZE_MOD; rewrite Z.mod_small by lia; lia).
  pose proof (print_loop E payload Hpay (length payload) 0%nat w4 ltac:(lia)) as Hpl.
  change (Z.of_nat 0) with 0 in Hpl. rewrite Hpl.
  rewrite drop_0, firstn_all.
  exec. eexists. split; [reflexivity|].
  cbn [w_trace w_chan log set_trace]. split; [|exact Hchan4].
  rewrite !printed_app. cbn [printed omap].
  destruct Hio4 as (_ & _ & _ & ->). rewrite Hp3, printed_map_print.
  cbn. rewrite ?app_nil_r. reflexivity.
Qed.

Lemma pipe_inline_role_child E w :
  PipeInline.main_role E 0 w
  = bind (PipeInline.child_branch E) (fun _ => ret 0) (log (EvFork 0) w).
Proof. reflexivity. Qed.

Lemma pipe_inline_role_parent E pid w :
  0 < pid ->
  PipeInline.main_role E pid w
  = bind (PipeInline.parent_branch E) (fun _ => ret 0) (log (EvFork pid) w).
Proof.
  intros Hpid. unfold PipeInline.main_role. unfold bind at 1, emit at 1.
  destruct (Z.eqb_spec pid (-1)); [lia|]. destruct (Z.eqb_spec pid 0); [lia|].
  reflexivity.
Qed.

(** X14. One session of the pipe program whose roles are written out in
    [main]: for every count from 1 to 256 and that many [int] values
    typed at the terminal, when no read or write call fails and [malloc],
    [pipe] and [fork] succeed, the child returns 0 from [main], the
    parent prints exactly the values and returns 0 from [main], and the
    pipe is empty at the end. This holds whatever [close] and [wait]
    return: this copy of the program does not look at their results. *)
Theorem pipe_inline_session_round_trip :
  forall (E : env) (num : Z) (payload : list Z) (w : world),
    kernel_ok E ->
    e_malloc E (size_mul_int num) = true ->
    e_pipe E <> -1 ->
    0 < e_fork E ->
    1 <= num <= capacity_limit PipeInline.BUFFER_SIZE 0 ->
    Z.of_nat (length payload) = num ->
    Forall int_range payload ->
    w_stdin w = Some num :: map Some payload ->
    w_chan w = [] ->
    exists tc tp wp,
      PipeInline.session E w = Outcome (Some (Ret 0, tc)) (Ret 0, tp) wp
      /\ printed tc = printed (w_trace w)
      /\ printed tp = printed (w_trace w) ++ payload
      /\ w_chan wp = [].
Proof.
  intros E num payload w Hk Hmalloc Hpipe Hfork Hnum Hlen Hpay Hin Hempty.
  unfold capacity_limit, PipeInline.BUFFER_SIZE, sizeof_int in Hnum.
  change (1024 / 4 - 0) with 256 in Hnum.
  unfold PipeInline.session, session, PipeInline.main_setup.
  destruct (Z.eqb_spec (e_pipe E) (-1)) as [|_]; [contradiction|].
  unfold ret at 1. cbv beta iota.
  destruct (Z.eqb_spec (e_fork E) (-1)) as [|_]; [lia|].
  rewrite pipe_inline_role_child.
  destruct (pipe_inline_child_ok E (log (EvFork 0) w) num payload Hk Hmalloc Hnum Hlen Hin)
    as (wc & Hrunc & Hchanc & _ & _ & Hpc).
  unfold bind at 1. rewrite Hrunc. unfold ret at 1. cbv beta iota.
  rewrite pipe_inline_role_parent by exact Hfork.
  cbn [w_chan log set_trace] in Hchanc. rewrite Hempty in Hchanc. cbn [app] in Hchanc.
  destruct (pipe_inline_parent_ok E (log (EvFork (e_fork E)) (set_trace (w_trace w) wc))
              num payload [] Hk Hmalloc ltac:(lia) Hlen Hpay)
    as (wp & Hrunp & Hpp & Hchanp).
  { cbn [w_chan log set_trace]. rewrite Hchanc, app_nil_r. reflexivity. }
  unfold bind at 1. rewrite Hrunp. unfold ret at 1. cbv beta iota.
  eexists. eexists. eexists. split; [reflexivity|].
  split; [rewrite Hpc; apply printed_log_quiet; reflexivity|].
  split; [|exact Hchanp].
  rewrite Hpp. f_equal.
  cbn [w_trace log set_trace]. rewrite printed_app. cbn. apply app_nil_r.
Qed.

(** A run for X14 in which every [close] and the [wait] fail. *)
Lemma pipe_inline_session_round_trip_witness :
  let E := Env false (fun _ _ => 3) (fun _ => true) 4321 (-1) 5
             (fun _ => -1) 0 0 0 0 0 0 3 0 PMapped in
  exists tc tp wp,
    PipeInline.session E (Fixture.world_of [2; 7; -8])
      = Outcome (Some (Ret 0, tc)) (Ret 0, tp) wp
    /\ printed tc = printed (w_trace (Fixture.world_of [2; 7; -8]))
    /\ printed tp = printed (w_trace (Fixture.world_of [2; 7; -8])) ++ [7; -8]
    /\ w_chan wp = [].
Proof.
  intros E.
  apply (pipe_inline_session_round_trip E 2 [7; -8] (Fixture.world_of [2; 7; -8])).
  - intros k len Hlen. cbn. lia.
  - reflexivity.
  - cbn. discriminate.
  - cbn. lia.
  - vm_compute. split; discriminate.
  - reflexivity.
  - repeat constructor; vm_compute; discriminate.
  - reflexivity.
  - reflexivity.
Defined.

(** ** One session of the FIFO program *)

Lemma fifo_setup_ok E w :
  e_mkfifo E <> -1 \/ e_errno E = EEXIST ->
  exists w1,
    Fifo.main_setup E w = (Ret tt, w1)
    /\ w_stdin w1 = w_stdin w /\ w_chan w1 = w_chan w
    /\ printed (w_trace w1) = printed (w_trace w).
Proof.
  intros Hmk. unfold Fifo.main_setup, bind, Fifo.mkfifo. cbv zeta.
  destruct (Z.eqb_spec (e_mkfifo E) (-1)) as [Hm|Hm].
  - destruct Hmk as [Hmk|Herr]; [contradiction|].
    change (-1 =? -1) with true. cbv beta iota. rewrite Herr.
    change (negb (EEXIST =? EEXIST)) with false. cbv beta iota.
    eexists. split; [reflexivity|]. split; [reflexivity|]. split; [reflexivity|].
    apply printed_log_quiet. reflexivity.
  - destruct (Z.eqb_spec (e_mkfifo E) (-1)) as [|_]; [contradiction|].
    eexists. split; [reflexivity|]. split; [reflexivity|]. split; [reflexivity|].
    cbn [w_trace set_names]. apply printed_log_quiet. reflexivity.
Qed.

Lemma fifo_role_child E w :
  Fifo.main_role E 0 w
  = bind (Fifo.child_process E) (fun _ => ret EXIT_SUCCESS) (log (EvFork 0) w).
Proof. reflexivity. Qed.

Lemma fifo_role_parent E pid w :
  0 < pid ->
  Fifo.main_role E pid w
  = bind (Fifo.parent_process E) (fun _ => ret EXIT_SUCCESS) (log (EvFork pid) w).
Proof.
  intros Hpid. unfold Fifo.main_role. unfold bind at 1, emit at 1.
  destruct (Z.eqb_spec pid (-1)); [lia|]. destruct (Z.eqb_spec pid 0); [lia|].
  reflexivity.
Qed.

Lemma fifo_session_ok :
  forall (E : env) (num : Z) (payload : list Z) (w : world),
    kernel_ok E ->
    e_malloc E (size_mul_int num) = true ->
    e_mkfifo E <> -1 \/ e_errno E = EEXIST ->
    0 < e_fork E ->
    e_open E <> -1 ->
    1 <= num <= capacity_limit Fifo.BUFFER_SIZE 0 ->
    Z.of_nat (length payload) = num ->
    Forall int_range payload ->
    w_stdin w = Some num :: map Some payload ->
    w_chan w = [] ->
    exists tc tp wp,
      Fifo.session E w
        = Outcome (Some (Ret EXIT_SUCCESS, tc)) (Ret EXIT_SUCCESS, tp) wp
      /\ printed tc = printed (w_trace w)
      /\ printed tp = printed (w_trace w) ++ payload
      /\ w_chan wp = []
      /\ (e_unlink E = 0 -> Fifo.FIFO_PATH ∉ w_names wp).
Proof.
  intros E num payload w Hk Hmalloc Hmk Hfork Hopen Hnum Hlen Hpay Hin Hempty.
  unfold capacity_limit, Fifo.BUFFER_SIZE, sizeof_int in Hnum.
  change (1024 / 4 - 0) with 256 in Hnum.
  unfold Fifo.session, session.
  destruct (fifo_setup_ok E w Hmk) as (w1 & Hsetup & Hin1 & Hc1 & Hp1).
  rewrite Hsetup.
  destruct (Z.eqb_spec (e_fork E) (-1)) as [|_]; [lia|].
  rewrite fifo_role_child.
  destruct (fifo_child_ok E (log (EvFork 0) w1) num payload Hk Hopen Hmalloc Hnum Hlen)
    as (wc & Hrunc & Hchanc & _ & _ & Hpc).
  { cbn [w_stdin log set_trace]. rewrite Hin1. exact Hin. }
  unfold bind at 1. rewrite Hrunc. unfold ret at 1. cbv beta iota.
  rewrite fifo_role_parent by exact Hfork.
  cbn [w_chan log set_trace] in Hchanc. rewrite Hc1, Hempty in Hchanc.
  cbn [app] in Hchanc.
  destruct (fifo_parent_ok E (log (EvFork (e_fork E)) (set_trace (w_trace w1) wc))
              num payload [] Hk Hopen Hmalloc ltac:(lia) Hlen Hpay)
    as (wp & Hrunp & Hpp & Hchanp & Hname).
  { cbn [w_chan log set_trace]. rewrite Hchanc, app_nil_r. reflexivity. }
  unfold bind at 1. rewrite Hrunp. unfold ret at 1. cbv beta iota.
  eexists. eexists. eexists. split; [reflexivity|].
  split; [rewrite Hpc, printed_log_quiet by reflexivity; exact Hp1|].
  split; [|split; [exact Hchanp|exact Hname]].
  rewrite Hpp. f_equal.
  cbn [w_trace log set_trace]. rewrite printed_app, Hp1. cbn. apply app_nil_r.
Qed.

(** X15. One session of the FIFO program: for every count from 1 to 256
    and that many [int] values typed at the terminal, when [mkfifo]
    succeeds or fails with [EEXIST], no read or write call fails and
    [fork], [open] and [malloc] succeed, the child returns
    [EXIT_SUCCESS] from [main] without printing, the parent prints
    exactly the values and returns [EXIT_SUCCESS] from [main], the FIFO
    is empty at the end, and when [unlink] succeeds its name is gone,
    whether this run created it or found it. *)
Theorem fifo_session_round_trip :
  forall (E : env) (num : Z) (payload : list Z) (w : world),
    kernel_ok E ->
    e_malloc E (size_mul_int num) = true ->
    e_mkfifo E <> -1 \/ e_errno E = EEXIST ->
    0 < e_fork E ->
    e_open E <> -1 ->
    1 <= num <= capacity_limit Fifo.BUFFER_SIZE 0 ->
    Z.of_nat (length payload) = num ->
    Forall int_range payload ->
    w_stdin w = Some num :: map Some payload ->
    w_chan w = [] ->
    exists tc tp wp,
      Fifo.session E w
        = Outcome (Some (Ret EXIT_SUCCESS, tc)) (Ret EXIT_SUCCESS, tp) wp
      /\ printed tc = printed (w_trace w)
      /\ printed tp = printed (w_trace w) ++ payload
      /\ w_chan wp = []
      /\ (e_unlink E = 0 -> Fifo.FIFO_PATH ∉ w_names wp).
Proof.
  intros E num payload w Hk Hmalloc Hmk Hfork Hopen Hnum Hlen Hpay Hin Hempty.
  exact (fifo_session_ok E num payload w Hk Hmalloc Hmk Hfork Hopen Hnum Hlen Hpay
           Hin Hempty).
Qed.

(** A run for X15 in which the FIFO is there already. *)
Lemma fifo_session_round_trip_witness :
  let E := Fixture.env_mkfifo EEXIST in
  let w := World [Some 2; Some 7; Some (-8)] [] [] 0 {[ Fifo.FIFO_PATH ]} [] in
  exists tc tp wp,
    Fifo.session E w
      = Outcome (Some (Ret EXIT_SUCCESS, tc)) (Ret EXIT_SUCCESS, tp) wp
    /\ printed tc = printed (w_trace w)
    /\ printed tp = printed (w_trace w) ++ [7; -8]
    /\ w_chan wp = []
    /\ (e_unlink E = 0 -> Fifo.FIFO_PATH ∉ w_names wp).
Proof.
  intros E w.
  apply (fifo_session_round_trip E 2 [7; -8] w).
  - intros k len Hlen. cbn. lia.
  - reflexivity.
  - right. reflexivity.
  - cbn. lia.
  - cbn. discriminate.
  - vm_compute. split; discriminate.
  - reflexivity.
  - repeat constructor; vm_compute; discriminate.
  - reflexivity.
  - reflexivity.
Defined.

(** ** C9: creation of the FIFO, and the session on the entry that exists *)

(** Whichever role a process takes after the fork, the first thing it
    does is to open the path of the FIFO. *)
Lemma fifo_open_first E (k : Z -> M unit) w0 :
  (forall fd, steps (grows any_event) (k fd)) ->
  exists evs,
    w_trace (snd (bind (bind (Fifo.sys_open E) k) (fun _ => ret EXIT_SUCCESS) w0))
    = w_trace w0 ++ EvOpen Fifo.FIFO_PATH (e_open E) :: evs.
Proof.
  intros Hk.
  assert (steps (grows any_event)
            (bind (k (e_open E)) (fun _ => ret EXIT_SUCCESS))) as Hst
    by (refine (steps_bind _ _ _ _ _); [apply Hk|intros ?; refine (steps_ret _ _)]).
  destruct (Hst (log (EvOpen Fifo.FIFO_PATH (e_open E)) w0)) as (evs & Ht & _).
  exists evs. cbn [w_trace log set_trace] in Ht. rewrite <- app_assoc in Ht.
  exact Ht.
Qed.

Lemma fifo_role_opens E pid w :
  pid <> -1 ->
  exists evs,
    w_trace (snd (Fifo.main_role E pid w))
    = w_trace w ++ EvFork pid :: EvOpen Fifo.FIFO_PATH (e_open E) :: evs.
Proof.
  intros Hpid. unfold Fifo.main_role. unfold bind at 1, emit at 1.
  destruct (Z.eqb_spec pid (-1)) as [|_]; [contradiction|].
  destruct (pid =? 0).
  - unfold Fifo.child_process.
    match goal with
    | |- context [bind (bind (Fifo.sys_open E) ?k) _ ?w0] =>
        destruct (fifo_open_first E k w0) as (evs & Ht)
    end.
    { intros fd. steps_tac. }
    exists evs. rewrite Ht. cbn [w_trace log set_trace].
    rewrite <- app_assoc. reflexivity.
  - unfold Fifo.parent_process.
    match goal with
    | |- context [bind (bind (Fifo.sys_open E) ?k) _ ?w0] =>
        destruct (fifo_open_first E k w0) as (evs & Ht)
    end.
    { intros fd. steps_tac. }
    exists evs. rewrite Ht. cbn [w_trace log set_trace].
    rewrite <- app_assoc. reflexivity.
Qed.

(** C9. When [mkfifo] fails in the FIFO program: if [errno] is [EEXIST]
    the failure is passed over -- the setup ends normally, nothing is
    printed and nothing is added to the namespace, and [main] goes on to
    [fork] and the role of the process. The session then runs on the
    entry that exists: after the fork the child and the parent each open
    the path of the FIFO before anything else, and when no read or write
    call fails and [fork], [open] and [malloc] succeed, the count and the
    values typed at the terminal pass through the FIFO, the parent prints
    exactly the values, both processes return [EXIT_SUCCESS] and the
    FIFO is empty at the end. With any other [errno] the program reports
    the error and exits with [EXIT_FAILURE] without reaching [fork], and
    the session has no child. *)
Theorem fifo_mkfifo_eexist_tolerated :
  forall (E : env) (w : world),
    e_mkfifo E = -1 ->
    let w1 := log (EvMkfifo Fifo.FIFO_PATH (-1)) w in
    (e_errno E = EEXIST ->
       Fifo.main_setup E w = (Ret tt, w1)
       /\ Fifo.main E w = Fifo.main_role E (e_fork E) w1
       /\ (exists evs, w_trace (snd (Fifo.main E w))
                       = w_trace w ++ EvMkfifo Fifo.FIFO_PATH (-1)
                                   :: EvFork (e_fork E) :: evs)
       /\ (e_fork E <> -1 -> o_child (Fifo.session E w) <> None)
       /\ (e_fork E <> -1 ->
           exists rc rp evc evp wp,
             Fifo.session E w
             = Outcome
                 (Some (rc, w_trace w1 ++ EvFork 0
                                       :: EvOpen Fifo.FIFO_PATH (e_open E) :: evc))
                 (rp, w_trace w1 ++ EvFork (e_fork E)
                                 :: EvOpen Fifo.FIFO_PATH (e_open E) :: evp)
                 wp)
       /\ (forall (num : Z) (payload : list Z),
             kernel_ok E ->
             e_malloc E (size_mul_int num) = true ->
             0 < e_fork E ->
             e_open E <> -1 ->
             1 <= num <= capacity_limit Fifo.BUFFER_SIZE 0 ->
             Z.of_nat (length payload) = num ->
             Forall int_range payload ->
             w_stdin w = Some num :: map Some payload ->
             w_chan w = [] ->
             exists tc tp wp,
               Fifo.session E w
               = Outcome (Some (Ret EXIT_SUCCESS, tc)) (Ret EXIT_SUCCESS, tp) wp
               /\ printed tc = printed (w_trace w)
               /\ printed tp = printed (w_trace w) ++ payload
               /\ w_chan wp = []))
    /\ (e_errno E <> EEXIST ->
         Fifo.main E w = (Exit EXIT_FAILURE, log (EvStderr "mkfifo") w1)
         /\ Fifo.session E w
            = Outcome None (Exit EXIT_FAILURE, w_trace (log (EvStderr "mkfifo") w1))
                (log (EvStderr "mkfifo") w1)).
Proof.
  intros E w Hmk w1. split.
  - intros Herr.
    assert (Fifo.main_setup E w = (Ret tt, w1)) as Hsetup.
    { unfold Fifo.main_setup, bind, Fifo.mkfifo. rewrite Hmk, Herr. reflexivity. }
    split; [exact Hsetup|].
    assert (Fifo.main E w = Fifo.main_role E (e_fork E) w1) as Hmain.
    { unfold Fifo.main, bind at 1. rewrite Hsetup. reflexivity. }
    split; [exact Hmain|]. split; [|split; [|split]].
    + rewrite Hmain. destruct (fifo_role_trace E (e_fork E) w1) as [evs Ht].
      exists evs. rewrite Ht. subst w1. cbn [w_trace log set_trace].
      rewrite <- app_assoc. reflexivity.
    + intros Hfork. unfold Fifo.session, Proc.session. rewrite Hsetup.
      destruct (Z.eqb_spec (e_fork E) (-1)) as [Heq|_]; [contradiction|].
      destruct (Fifo.main_role E 0 w1) as [rc wc].
      destruct (Fifo.main_role E (e_fork E) (set_trace _ _)) as [rp wp].
      cbn [o_child]. discriminate.
    + intros Hfork. unfold Fifo.session, Proc.session. rewrite Hsetup.
      destruct (Z.eqb_spec (e_fork E) (-1)) as [Heq|_]; [contradiction|].
      destruct (fifo_role_opens E 0 w1 ltac:(discriminate)) as (evc & Htc).
      destruct (Fifo.main_role E 0 w1) as [rc wc]. cbn [snd] in Htc.
      destruct (fifo_role_opens E (e_fork E) (set_trace (w_trace w1) wc) Hfork)
        as (evp & Htp).
      destruct (Fifo.main_role E (e_fork E) (set_trace (w_trace w1) wc)) as [rp wp].
      cbn [snd w_trace set_trace] in Htp.
      exists rc, rp, evc, evp, wp. rewrite Htc, Htp. reflexivity.
    + intros num payload Hk Hmalloc Hfork Hopen Hnum Hlen Hpay Hin Hempty.
      destruct (fifo_session_ok E num payload w Hk Hmalloc (or_intror Herr) Hfork
                  Hopen Hnum Hlen Hpay Hin Hempty)
        as (tc & tp & wp & Hrun & Hpc & Hpp & Hchan & _).
      exists tc, tp, wp. split; [exact Hrun|]. split; [exact Hpc|].
      split; [exact Hpp|exact Hchan].
  - intros Herr.
    assert (Fifo.main_setup E w = (Exit EXIT_FAILURE, log (EvStderr "mkfifo") w1)) as Hsetup.
    { unfold Fifo.main_setup, bind, Fifo.mkfifo. rewrite Hmk.
      destruct (Z.eqb_spec (e_errno E) EEXIST) as [Heq|_]; [contradiction|].
      reflexivity. }
    split.
    + unfold Fifo.main, bind at 1. rewrite Hsetup. reflexivity.
    + unfold Fifo.session, Proc.session. rewrite Hsetup. reflexivity.
Qed.

(** Runs for C9. [mkfifo] fails with [EEXIST]: [main] goes on to the
    fork, both roles open the FIFO, and the count 1 and the value 42
    typed at the terminal reach the parent, which prints 42. [mkfifo]
    fails with [ENOSPC] (28): [main] exits before the fork. *)
Lemma fifo_mkfifo_eexist_tolerated_witness :
  (exists evs, w_trace (snd (Fifo.main (Fixture.env_mkfifo EEXIST) (Fixture.world_of [1; 42])))
               = [] ++ EvMkfifo Fifo.FIFO_PATH (-1) :: EvFork 4321 :: evs)
  /\ (exists rc rp evc evp wp,
        Fifo.session (Fixture.env_mkfifo EEXIST) (Fixture.world_of [1; 42])
        = Outcome
            (Some (rc, [EvMkfifo Fifo.FIFO_PATH (-1)] ++ EvFork 0
                         :: EvOpen Fifo.FIFO_PATH 5 :: evc))
            (rp, [EvMkfifo Fifo.FIFO_PATH (-1)] ++ EvFork 4321
                   :: EvOpen Fifo.FIFO_PATH 5 :: evp)
            wp)
  /\ (exists tc tp wp,
        Fifo.session (Fixture.env_mkfifo EEXIST) (Fixture.world_of [1; 42])
        = Outcome (Some (Ret EXIT_SUCCESS, tc)) (Ret EXIT_SUCCESS, tp) wp
        /\ printed tc = []
        /\ printed tp = [] ++ [42]
        /\ w_chan wp = [])
  /\ Fifo.main (Fixture.env_mkfifo 28) (Fixture.world_of [1; 42])
     = (Exit EXIT_FAILURE,
        log (EvStderr "mkfifo")
          (log (EvMkfifo Fifo.FIFO_PATH (-1)) (Fixture.world_of [1; 42]))).
Proof.
  destruct (proj1 (fifo_mkfifo_eexist_tolerated (Fixture.env_mkfifo EEXIST)
                     (Fixture.world_of [1; 42]) eq_refl) eq_refl)
    as (_ & _ & Htrace & _ & Hopens & Hmsg).
  split; [exact Htrace|]. split; [|split].
  - apply Hopens. cbn. discriminate.
  - apply (Hmsg 1 [42]).
    + intros k len Hlen. cbn. lia.
    + reflexivity.
    + cbn. lia.
    + cbn. discriminate.
    + vm_compute. split; discriminate.
    + reflexivity.
    + repeat constructor; vm_compute; discriminate.
    + reflexivity.
    + reflexivity.
  - apply (proj2 (fifo_mkfifo_eexist_tolerated (Fixture.env_mkfifo 28)
                    (Fixture.world_of [1; 42]) eq_refl)).
    intros Heq. vm_compute in Heq. discriminate Heq.
Defined.

(** ** One session of the pipe program *)

Lemma pipe_role_child E w :
  to_int (e_close E Pipe.fd_read) <> -1 ->
  Pipe.main_role E 0 w
  = bind (Pipe.child_process E Pipe.fd_write)
      (fun _ => bind (sys_close E Pipe.fd_write)
                  (fun r => bind (check_result r "close") (fun _ => ret 0)))
      (log (EvClose Pipe.fd_read) (log (EvFork 0) w)).
Proof.
  intros Hclose. unfold Pipe.main_role. unfold bind at 1, emit at 1.
  unfold bind at 1. unfold check_result at 1.
  change (to_int 0 =? -1) with false. unfold ret at 1. cbv beta iota.
  change (0 =? 0) with true. cbv beta iota.
  unfold bind at 1. unfold sys_close at 1. unfold bind at 1, emit at 1, ret at 1.
  unfold bind at 1. unfold check_result at 1.
  destruct (Z.eqb_spec (to_int (e_close E Pipe.fd_read)) (-1)); [contradiction|].
  reflexivity.
Qed.

Lemma pipe_role_parent E pid w :
  0 < pid < 2 ^ 31 ->
  to_int (e_close E Pipe.fd_write) <> -1 ->
  Pipe.main_role E pid w
  = bind (Pipe.parent_process E Pipe.fd_read)
      (fun _ => bind (sys_close E Pipe.fd_read)
                  (fun r => bind (check_result r "close") (fun _ => ret 0)))
      (log (EvClose Pipe.fd_write) (log (EvFork pid) w)).
Proof.
  intros Hpid Hclose. unfold Pipe.main_role. unfold bind at 1, emit at 1.
  unfold bind at 1. unfold check_result at 1.
  rewrite to_int_small by lia.
  destruct (Z.eqb_spec pid (-1)); [lia|]. unfold ret at 1. cbv beta iota.
  destruct (Z.eqb_spec pid 0); [lia|].
  unfold bind at 1. unfold sys_close at 1. unfold bind at 1, emit at 1, ret at 1.
  unfold bind at 1. unfold check_result at 1.
  destruct (Z.eqb_spec (to_int (e_close E Pipe.fd_write)) (-1)); [contradiction|].
  reflexivity.
Qed.

(** X16. One session of the pipe program: for every count from 1 to 256
    and that many [int] values typed at the terminal, when no read or
    write call fails and [pipe], [fork], [malloc] and every [close]
    succeed, the child returns 0 from [main] without printing, the parent
    prints exactly the values, and the pipe is empty at the end. The
    parent returns 0 from [main] when [wait] succeeds; when [wait] returns
    -1 it exits with [EXIT_FAILURE], after the values have been
    printed. *)
Theorem pipe_session_round_trip :
  forall (E : env) (num : Z) (payload : list Z) (w : world),
    kernel_ok E ->
    e_malloc E (size_mul_int num) = true ->
    to_int (e_pipe E) <> -1 ->
    0 < e_fork E < 2 ^ 31 ->
    to_int (e_close E Pipe.fd_read) <> -1 ->
    to_int (e_close E Pipe.fd_write) <> -1 ->
    1 <= num <= capacity_limit Pipe.BUFFER_SIZE 0 ->
    Z.of_nat (length payload) = num ->
    Forall int_range payload ->
    w_stdin w = Some num :: map Some payload ->
    w_chan w = [] ->
    exists tc tp wp,
      Pipe.session E w
        = Outcome (Some (Ret 0, tc))
            (if to_int (e_wait E) =? -1 then Exit EXIT_FAILURE else Ret 0, tp) wp
      /\ printed tc = printed (w_trace w)
      /\ printed tp = printed (w_trace w) ++ payload
      /\ w_chan wp = [].
Proof.
  intros E num payload w Hk Hmalloc Hpipe Hfork Hcr Hcw Hnum Hlen Hpay Hin Hempty.
  unfold capacity_limit, Pipe.BUFFER_SIZE, sizeof_int in Hnum.
  change (1024 / 4 - 0) with 256 in Hnum.
  unfold Pipe.session, session, Pipe.main_setup, check_result.
  destruct (Z.eqb_spec (to_int (e_pipe E)) (-1)) as [|_]; [contradiction|].
  unfold ret at 1. cbv beta iota.
  destruct (Z.eqb_spec (e_fork E) (-1)) as [|_]; [lia|].
  rewrite pipe_role_child by exact Hcr.
  destruct (pipe_child_ok E Pipe.fd_write
              (log (EvClose Pipe.fd_read) (log (EvFork 0) w)) num payload
              Hk Hmalloc Hnum Hlen Hin)
    as (wc & Hrunc & Hchanc & _ & _ & Hpc).
  unfold bind at 1. rewrite Hrunc.
  unfold bind at 1. unfold sys_close at 1. unfold bind at 1, emit at 1, ret at 1.
  unfold bind at 1. unfold check_result at 1.
  destruct (Z.eqb_spec (to_int (e_close E Pipe.fd_write)) (-1)) as [|_]; [contradiction|].
  unfold ret at 1. cbv beta iota. unfold ret at 1.
  rewrite pipe_role_parent by assumption.
  cbn [w_chan log set_trace] in Hchanc. rewrite Hempty in Hchanc. cbn [app] in Hchanc.
  match goal with |- context [bind _ _ ?w0] => set (w2 := w0) end.
  destruct (pipe_parent_ok E Pipe.fd_read w2 num payload [] Hk Hmalloc ltac:(lia) Hlen Hpay)
    as (wp & Hrunp & Hpp & Hchanp).
  { subst w2. cbn [w_chan log set_trace]. rewrite Hchanc, app_nil_r. reflexivity. }
  assert (printed (w_trace w2) = printed (w_trace w)) as Hp2.
  { subst w2. cbn [w_trace log set_trace]. rewrite !printed_app. cbn.
    rewrite !app_nil_r. reflexivity. }
  clearbody w2.
  unfold bind at 1. rewrite Hrunp.
  assert (printed (w_trace (log (EvClose Pipe.fd_write) wc)) = printed (w_trace w)) as Hpc'.
  { rewrite printed_log_quiet by reflexivity. rewrite Hpc.
    cbn [w_trace log set_trace]. rewrite !printed_app. cbn.
    rewrite !app_nil_r. reflexivity. }
  destruct (to_int (e_wait E) =? -1).
  - eexists. eexists. eexists. split; [reflexivity|].
    split; [exact Hpc'|]. split; [|exact Hchanp]. rewrite Hpp, Hp2. reflexivity.
  - unfold bind at 1. unfold sys_close at 1. unfold bind at 1, emit at 1, ret at 1.
    unfold bind at 1. unfold check_result at 1.
    destruct (Z.eqb_spec (to_int (e_close E Pipe.fd_read)) (-1)) as [|_]; [contradiction|].
    unfold ret at 1. cbv beta iota. unfold ret at 1.
    eexists. eexists. eexists. split; [reflexivity|].
    split; [exact Hpc'|]. split; [|exact Hchanp].
    rewrite printed_log_quiet by reflexivity. rewrite Hpp, Hp2. reflexivity.
Qed.

(** A run for X16 in which [wait] returns -1. *)
Lemma pipe_session_round_trip_witness :
  let E := Fixture.env_ok 3 (-1) in
  let w := Fixture.world_of [2; 7; -8] in
  exists tc tp wp,
    Pipe.session E w
      = Outcome (Some (Ret 0, tc))
          (if to_int (e_wait E) =? -1 then Exit EXIT_FAILURE else Ret 0, tp) wp
    /\ printed tc = printed (w_trace w)
    /\ printed tp = printed (w_trace w) ++ [7; -8]
    /\ w_chan wp = [].
Proof.
  intros E w.
  apply (pipe_session_round_trip E 2 [7; -8] w).
  - intros k len Hlen. cbn. lia.
  - reflexivity.
  - vm_compute. discriminate.
  - cbn. lia.
  - vm_compute. discriminate.
  - vm_compute. discriminate.
  - vm_compute. split; discriminate.
  - reflexivity.
  - repeat constructor; vm_compute; discriminate.
  - reflexivity.
  - reflexivity.
Defined.

(** ** The producers of the stream on an input that gives out *)

(** The loop that reads the payload, when the input ends before it. *)
Lemma scan_loop_short (body : Z -> list Z -> M (list Z)) :
  (forall i arr w v rest,
      w_stdin w = Some v :: rest ->
      body i arr w = (Ret (<[Z.to_nat i := v]> arr), set_stdin rest w)) ->
  (forall i arr w,
      scanf_fails (w_stdin w) ->
      exists w', body i arr w = (Exit EXIT_FAILURE, w')
                 /\ same_transport w w'
                 /\ grows (fun e => negb (is_transfer e)) w w') ->
  forall vals (n : nat) i arr w rest,
    w_stdin w = map Some vals ++ rest ->
    (length vals < n)%nat ->
    scanf_fails rest ->
    exists w',
      for_fold n i arr body w = (Exit EXIT_FAILURE, w')
      /\ same_transport w w'
      /\ grows (fun e => negb (is_transfer e)) w w'.
Proof.
  intros Hok Hfail. induction vals as [|v vals IH]; intros n i arr w rest Hin Hn Hrest.
  - destruct n as [|n]; [cbn in Hn; lia|]. cbn [for_fold]. cbn [map app] in Hin.
    destruct (Hfail i arr w) as (w' & Hrun & Hsame & Hgrow).
    { rewrite Hin. exact Hrest. }
    exists w'. unfold bind. rewrite Hrun. split; [reflexivity|]. split; assumption.
  - destruct n as [|n]; [cbn in Hn; lia|]. cbn [for_fold]. cbn [map app] in Hin.
    unfold bind at 1. rewrite (Hok _ _ _ _ _ Hin).
    destruct (IH n (i + 1) (<[Z.to_nat i := v]> arr) (set_stdin (map Some vals ++ rest) w) rest)
      as (w' & Hrun & Hsame & Hgrow).
    { reflexivity. }
    { cbn [length] in Hn. lia. }
    { exact Hrest. }
    exists w'. split; [exact Hrun|]. split; [exact Hsame|exact Hgrow].
Qed.

Ltac fail_body :=
  let Hf := fresh "Hf" in
  intros ? ? ? Hf; unfold bind at 1; rewrite (scanf_d_fails _ Hf);
  exec; split_ifs; eexists; solve_quiet.

Lemma pipe_child_short E fd w num vals rest :
  Pipe.bad_count num = false ->
  w_stdin w = Some num :: map Some vals ++ rest ->
  Z.of_nat (length vals) < num ->
  scanf_fails rest ->
  exists w',
    Pipe.child_process E fd w = (Exit EXIT_FAILURE, w')
    /\ same_transport w w'
    /\ grows (fun e => negb (is_transfer e)) w w'.
Proof.
  intros Hbad Hin Hlt Hrest.
  assert (1 <= num <= 256) as Hnum.
  { unfold Pipe.bad_count, Pipe.BUFFER_SIZE, sizeof_int in Hbad.
    change (1024 / 4) with 256 in Hbad. lia. }
  unfold Pipe.child_process. unfold bind at 1. unfold scanf_d at 1. rewrite Hin, Hbad.
  unfold bind at 1. unfold malloc at 1. unfold bind at 1, emit at 1, ret at 1.
  unfold bind at 1. unfold Pipe.check_pointer at 1.
  destruct (e_malloc E (size_mul_int num)).
  2:{ exec. eexists. solve_quiet. }
  unfold ret at 1. cbv beta iota. unfold bind at 1.
  match goal with
  | |- context [for_fold ?n ?i ?arr ?body ?w0] =>
      destruct (scan_loop_short body ltac:(scan_body) ltac:(fail_body)
                  vals n i arr w0 rest)
        as (w' & Hrun & Hsame & Hgrow)
  end.
  { reflexivity. }
  { unfold to_size, SIZE_MOD. rewrite Z.mod_small by lia. lia. }
  { exact Hrest. }
  rewrite Hrun. exists w'. split; [reflexivity|].
  split; [exact Hsame|].
  etransitivity; [|exact Hgrow]. solve_grows.
Qed.

Lemma pipe_inline_child_short E w num vals rest :
  PipeInline.bad_count num = false ->
  w_stdin w = Some num :: map Some vals ++ rest ->
  Z.of_nat (length vals) < num ->
  scanf_fails rest ->
  exists w',
    PipeInline.child_branch E w = (Exit EXIT_FAILURE, w')
    /\ same_transport w w'
    /\ grows (fun e => negb (is_transfer e)) w w'.
Proof.
  intros Hbad Hin Hlt Hrest.
  assert (1 <= num <= 256) as Hnum.
  { unfold PipeInline.bad_count, PipeInline.BUFFER_SIZE, sizeof_int in Hbad.
    change (1024 / 4) with 256 in Hbad. lia. }
  unfold PipeInline.child_branch. unfold bind at 1. unfold sys_close at 1.
  unfold bind at 1, emit at 1, ret at 1. cbv beta iota.
  unfold bind at 1. unfold scanf_d at 1. cbn [w_stdin log set_trace]. rewrite Hin, Hbad.
  unfold bind at 1. unfold malloc at 1. unfold bind at 1, emit at 1, ret at 1.
  destruct (e_malloc E (size_mul_int num)); cbn [negb].
  2:{ exec. eexists. solve_quiet. }
  unfold bind at 1.
  match goal with
  | |- context [for_fold ?n ?i ?arr ?body ?w0] =>
      destruct (scan_loop_short body ltac:(scan_body) ltac:(fail_body)
                  vals n i arr w0 rest)
        as (w' & Hrun & Hsame & Hgrow)
  end.
  { reflexivity. }
  { unfold to_size, SIZE_MOD. rewrite Z.mod_small by lia. lia. }
  { exact Hrest. }
  rewrite Hrun. exists w'. split; [reflexivity|].
  split; [exact Hsame|].
  etransitivity; [|exact Hgrow]. solve_grows.
Qed.

Lemma fifo_child_short E w num vals rest :
  Fifo.bad_count num = false ->
  w_stdin w = Some num :: map Some vals ++ rest ->
  Z.of_nat (length vals) < num ->
  scanf_fails rest ->
  exists w',
    Fifo.child_process E w = (Exit EXIT_FAILURE, w')
    /\ same_transport w w'
    /\ grows (fun e => negb (is_transfer e)) w w'.
Proof.
  intros Hbad Hin Hlt Hrest.
  assert (1 <= num <= 256) as Hnum.
  { unfold Fifo.bad_count, Fifo.BUFFER_SIZE, sizeof_int in Hbad.
    change (1024 / 4) with 256 in Hbad. lia. }
  unfold Fifo.child_process. unfold bind at 1. unfold Fifo.sys_open at 1.
  unfold bind at 1, emit at 1, ret at 1. cbv beta iota.
  destruct (e_open E =? -1).
  { exec. eexists. solve_quiet. }
  unfold bind at 1. unfold scanf_d at 1. cbn [w_stdin log set_trace]. rewrite Hin, Hbad.
  unfold bind at 1. unfold malloc at 1. unfold bind at 1, emit at 1, ret at 1.
  unfold bind at 1. unfold Fifo.check_pointer at 1.
  destruct (e_malloc E (size_mul_int num)).
  2:{ exec. eexists. solve_quiet. }
  unfold ret at 1. cbv beta iota. unfold bind at 1.
  match goal with
  | |- context [for_fold ?n ?i ?arr ?body ?w0] =>
      destruct (scan_loop_short body ltac:(scan_body) ltac:(fail_body)
                  vals n i arr w0 rest)
        as (w' & Hrun & Hsame & Hgrow)
  end.
  { reflexivity. }
  { unfold to_size, SIZE_MOD. rewrite Z.mod_small by lia. lia. }
  { exact Hrest. }
  rewrite Hrun. exists w'. split; [reflexivity|].
  split; [exact Hsame|].
  etransitivity; [|exact Hgrow]. solve_grows.
Qed.

(** X17. When the input of a producer of the pipe or FIFO programs gives
    out after a valid count and fewer values than the count announces,
    the producer exits with [EXIT_FAILURE] and has written nothing: it
    has issued no [write] call and the stream is as it was, whatever the
    other calls return. (The producer of the shared-memory program has
    by then stored the count and the values read.) *)
Theorem stream_producers_write_nothing_on_short_input :
  forall (E : env) (write_fd : Z) (w : world) (num : Z) (vals : list Z)
         (rest : list (option Z)),
    1 <= num <= 256 ->
    w_stdin w = Some num :: map Some vals ++ rest ->
    Z.of_nat (length vals) < num ->
    scanf_fails rest ->
    (exists w', Pipe.child_process E write_fd w = (Exit EXIT_FAILURE, w')
                /\ same_transport w w'
                /\ grows (fun e => negb (is_transfer e)) w w')
    /\ (exists w', PipeInline.child_branch E w = (Exit EXIT_FAILURE, w')
                   /\ same_transport w w'
                   /\ grows (fun e => negb (is_transfer e)) w w')
    /\ (exists w', Fifo.child_process E w = (Exit EXIT_FAILURE, w')
                   /\ same_transport w w'
                   /\ grows (fun e => negb (is_transfer e)) w w').
Proof.
  intros E write_fd w num vals rest Hnum Hin Hlt Hrest.
  assert (Pipe.bad_count num = false /\ PipeInline.bad_count num = false
          /\ Fifo.bad_count num = false) as (Hp & Hi & Hf).
  { unfold Pipe.bad_count, PipeInline.bad_count, Fifo.bad_count,
      Pipe.BUFFER_SIZE, PipeInline.BUFFER_SIZE, Fifo.BUFFER_SIZE, sizeof_int.
    change (1024 / 4) with 256. repeat split; lia. }
  split; [|split].
  - exact (pipe_child_short E write_fd w num vals rest Hp Hin Hlt Hrest).
  - exact (pipe_inline_child_short E w num vals rest Hi Hin Hlt Hrest).
  - exact (fifo_child_short E w num vals rest Hf Hin Hlt Hrest).
Qed.

(** A run for X17: the count 3, then the value 10, then the end of the
    input. *)
Lemma stream_producers_write_nothing_on_short_input_witness :
  let E := Fixture.env_ok 1 0 in
  let w := Fixture.world_of [3; 10] in
  (exists w', Pipe.child_process E 4 w = (Exit EXIT_FAILURE, w')
              /\ same_transport w w'
              /\ grows (fun e => negb (is_transfer e)) w w')
  /\ (exists w', PipeInline.child_branch E w = (Exit EXIT_FAILURE, w')
                 /\ same_transport w w'
                 /\ grows (fun e => negb (is_transfer e)) w w')
  /\ (exists w', Fifo.child_process E w = (Exit EXIT_FAILURE, w')
                 /\ same_transport w w'
                 /\ grows (fun e => negb (is_transfer e)) w w').
Proof.
  intros E w.
  apply (stream_producers_write_nothing_on_short_input E 4 w 3 [10] []).
  - lia.
  - reflexivity.
  - cbn. lia.
  - exact I.
Defined.

(** ** The whole FIFO program *)

(** X18. In a run of [main] of the FIFO program on a stream of fewer
    than 2^31 bytes, once the setup has passed ([mkfifo] succeeded or
    failed with [EEXIST]) the name of the FIFO is removed exactly once by
    the process that created the session -- by [main] itself when [fork]
    fails, by the parent otherwise, on each of its paths -- and never by
    the child; when [mkfifo] fails for another reason nothing is
    removed. *)
Theorem fifo_main_unlinks_once :
  forall (E : env) (w : world),
    Z.of_nat (length (w_chan w)) < 2 ^ 31 ->
    exists evs,
      w_trace (snd (Fifo.main E w)) = w_trace w ++ evs
      /\ unlinks evs
         = (if ((e_mkfifo E =? -1) && negb (e_errno E =? EEXIST)) || (e_fork E =? 0)
            then [] else [EvUnlink Fifo.FIFO_PATH]).
Proof.
  intros E w Hshort. unfold Fifo.main. unfold bind at 1.
  unfold Fifo.main_setup. unfold bind at 1. unfold Fifo.mkfifo at 1. cbv zeta.
  set (w0 := log (EvMkfifo Fifo.FIFO_PATH (e_mkfifo E)) w).
  assert (forall w1,
             w_trace w1 = w_trace w0 -> w_chan w1 = w_chan w ->
             exists evs,
               w_trace (snd (Fifo.main_role E (e_fork E) w1)) = w_trace w ++ evs
               /\ unlinks evs
                  = (if e_fork E =? 0 then [] else [EvUnlink Fifo.FIFO_PATH])) as Hrole.
  { intros w1 Ht1 Hc1. unfold Fifo.main_role. unfold bind at 1, emit at 1.
    destruct (Z.eqb_spec (e_fork E) (-1)) as [Hk|Hk].
    - rewrite Hk. cbn [Z.eqb]. unfold bind at 1. unfold eprint at 1, emit at 1.
      destruct (fifo_cleanup_effect E (log (EvStderr "fork") (log (EvFork (-1)) w1)))
        as (evc & Hrun & Ht & Hr & _).
      unfold bind at 1. rewrite Hrun. cbn [snd exit].
      exists ([EvMkfifo Fifo.FIFO_PATH (e_mkfifo E); EvFork (-1); EvStderr "fork"] ++ evc).
      split; [rewrite Ht; cbn [w_trace log set_trace]; rewrite Ht1; subst w0;
              cbn [w_trace log set_trace]; rewrite <- !app_assoc; reflexivity|].
      rewrite <- unlinks_releases, releases_app, Hr. reflexivity.
    - destruct (Z.eqb_spec (e_fork E) 0) as [Hz|Hz].
      + assert (steps (grows (fun e => negb (is_unlink e)))
                  (bind (Fifo.child_process E) (fun _ => ret EXIT_SUCCESS))) as Hst
          by (steps_tac; apply fifo_child_no_unlink).
        destruct (Hst (log (EvFork (e_fork E)) w1)) as (evs & Ht & Hall).
        exists ([EvMkfifo Fifo.FIFO_PATH (e_mkfifo E); EvFork (e_fork E)] ++ evs).
        split; [rewrite Ht; cbn [w_trace log set_trace]; rewrite Ht1; subst w0;
                cbn [w_trace log set_trace]; rewrite <- !app_assoc; reflexivity|].
        rewrite unlinks_app, (unlinks_none evs Hall). reflexivity.
      + destruct (fifo_parent_any E (log (EvFork (e_fork E)) w1))
          as (r & w' & evs & Hrun & Ht & Hr & _).
        { cbn [w_chan log set_trace]. rewrite Hc1. exact Hshort. }
        unfold bind at 1. rewrite Hrun.
        exists ([EvMkfifo Fifo.FIFO_PATH (e_mkfifo E); EvFork (e_fork E)] ++ evs).
        split.
        * assert (w_trace w' = w_trace w
                               ++ [EvMkfifo Fifo.FIFO_PATH (e_mkfifo E); EvFork (e_fork E)]
                               ++ evs) as Ht'.
          { rewrite Ht. cbn [w_trace log set_trace]. rewrite Ht1. subst w0.
            cbn [w_trace log set_trace]. rewrite <- !app_assoc. reflexivity. }
          destruct r; cbn [snd ret]; exact Ht'.
        * rewrite <- unlinks_releases, releases_app, Hr.
          destruct (e_open E =? -1); reflexivity. }
  destruct (e_mkfifo E =? -1) eqn:Hm; cbn [andb orb].
  - change (-1 =? -1) with true. cbv beta iota.
    destruct (e_errno E =? EEXIST); cbn [negb orb].
    + unfold ret at 1. cbv beta iota. apply Hrole; reflexivity.
    + unfold handle_error, bind, eprint, emit, exit. cbn [snd].
      exists [EvMkfifo Fifo.FIFO_PATH (e_mkfifo E); EvStderr "mkfifo"].
      split; [subst w0; cbn [w_trace log set_trace]; rewrite <- !app_assoc;
              reflexivity|reflexivity].
  - rewrite Hm. unfold ret at 1. cbv beta iota. apply Hrole; reflexivity.
Qed.

(** A run for X18: [fork] fails. *)
Lemma fifo_main_unlinks_once_witness :
  let E := Env false (fun _ _ => 1) (fun _ => true) (-1) 4321 5
             (fun _ => 0) 0 0 0 0 0 0 3 0 PMapped in
  Fifo.main E (Fixture.world_of [])
    = (Exit EXIT_FAILURE,
       World [] [] [] 0 ∅
         [EvMkfifo Fifo.FIFO_PATH 0; EvFork (-1); EvStderr "fork";
          EvUnlink Fifo.FIFO_PATH])
  /\ exists evs,
      w_trace (snd (Fifo.main E (Fixture.world_of [])))
        = w_trace (Fixture.world_of []) ++ evs
      /\ unlinks evs
         = (if ((e_mkfifo E =? -1) && negb (e_errno E =? EEXIST)) || (e_fork E =? 0)
            then [] else [EvUnlink Fifo.FIFO_PATH]).
Proof.
  intros E. split; [vm_compute; reflexivity|].
  apply (fifo_main_unlinks_once E (Fixture.world_of [])).
  vm_compute. reflexivity.
Defined.

(** ** The result of a transfer passed to [check_result] *)

Lemma to_int_mod4 x : to_int x mod 4 = x mod 4.
Proof.
  unfold to_int, INT_MOD.
  assert ((x mod 2 ^ 32) mod 4 = x mod 4) as Hm.
  { apply Z.mod_mod_divide. exists (2 ^ 30). reflexivity. }
  destruct (x mod 2 ^ 32 <? 2 ^ 31); [exact Hm|].
  replace (x mod 2 ^ 32 - 2 ^ 32) with (x mod 2 ^ 32 + (- 2 ^ 30) * 4) by lia.
  rewrite Z.mod_add by lia. exact Hm.
Qed.

Lemma to_ssize_mod4 x : to_ssize x mod 4 = x mod 4.
Proof.
  unfold to_ssize, SIZE_MOD.
  assert ((x mod 2 ^ 64) mod 4 = x mod 4) as Hm.
  { apply Z.mod_mod_divide. exists (2 ^ 62). reflexivity. }
  destruct (x mod 2 ^ 64 <? 2 ^ 63); [exact Hm|].
  replace (x mod 2 ^ 64 - 2 ^ 64) with (x mod 2 ^ 64 + (- 2 ^ 62) * 4) by lia.
  rewrite Z.mod_add by lia. exact Hm.
Qed.

Lemma size_mul_int_mod4 num : size_mul_int num mod 4 = 0.
Proof.
  unfold size_mul_int, SIZE_MOD, sizeof_int.
  rewrite Z.mod_mod_divide by (exists (2 ^ 62); reflexivity).
  apply Z.mod_mul. lia.
Qed.

(** X19. The consumer of the pipe program passes the [ssize_t] result
    of [read_all] to [check_result], whose parameter is an [int] compared
    with -1. The conversion never turns a completed transfer into a
    failure: the byte counts the consumer asks for, [sizeof(int)] and
    [num * sizeof(int)] for any [num], are multiples of 4, so the value
    [check_result] sees is not -1 and it returns; on the result -1 it
    reports and exits with [EXIT_FAILURE]. (A result that is -1 modulo
    2^32, which no transfer of the program gives, would be taken for a
    failure.) *)
Theorem check_result_keeps_transfer_results :
  forall (num : Z) (msg : string) (w : world),
    check_result (to_ssize (size_mul_int num)) msg w = (Ret tt, w)
    /\ check_result (to_ssize sizeof_int) msg w = (Ret tt, w)
    /\ check_result (-1) msg w = (Exit EXIT_FAILURE, log (EvStderr msg) w)
    /\ (forall k : Z,
          check_result (k * INT_MOD - 1) msg w
          = (Exit EXIT_FAILURE, log (EvStderr msg) w)).
Proof.
  intros num msg w. split; [|split; [reflexivity|split; [reflexivity|]]].
  - unfold check_result.
    destruct (Z.eqb_spec (to_int (to_ssize (size_mul_int num))) (-1)) as [Heq|_];
      [|reflexivity].
    exfalso.
    pose proof (to_int_mod4 (to_ssize (size_mul_int num))) as Hm.
    rewrite to_ssize_mod4, size_mul_int_mod4, Heq in Hm. discriminate.
  - intros k. unfold check_result.
    assert (to_int (k * INT_MOD - 1) = -1) as ->; [|reflexivity].
    unfold to_int, INT_MOD.
    replace (k * 2 ^ 32 - 1) with (2 ^ 32 - 1 + (k - 1) * 2 ^ 32) by lia.
    rewrite Z.mod_add by lia. reflexivity.
Qed.

(** ** One session of the shared-memory program *)

(** X20. One session of the shared-memory program, for every count from
    1 to 255 and that many [int] values typed at the terminal, when the setup
    and [fork] succeed and [wait] returns what POSIX lets it return (the
    pid of the child, or -1; in any case not 0): the child stores the
    count and the values in the segment and returns 0 from [main]; the
    parent takes the result of [wait] for a failure and exits with
    [EXIT_FAILURE] without a single load from the segment and without
    printing anything, after it has removed the name. The message stays
    in the segment, unread. *)
Theorem shm_session_message_never_read :
  forall (E : env) (num : Z) (payload : list Z) (w : world),
    e_shm_open E <> -1 ->
    e_ftruncate E <> -1 ->
    e_mmap E = PMapped ->
    0 < e_fork E ->
    e_wait E <> 0 ->
    1 <= num <= capacity_limit Shm.BUFFER_SIZE 1 ->
    Z.of_nat (length payload) = num ->
    Forall int_range payload ->
    w_stdin w = Some num :: map Some payload ->
    exists tc tp wp evs,
      Shm.session E w = Outcome (Some (Ret 0, tc)) (Exit EXIT_FAILURE, tp) wp
      /\ take (1 + length payload) (w_seg wp) = num :: payload
      /\ tp = w_trace w ++ evs
      /\ Forall (fun e => is_load e = false) evs
      /\ printed evs = []
      /\ (e_shm_unlink E = 0 -> Shm.SHM_NAME ∉ w_names wp).
Proof.
  intros E num payload w Hopen Htrunc Hmap Hfork Hwait Hnum Hlen _ Hin.
  unfold capacity_limit, Shm.BUFFER_SIZE, sizeof_int in Hnum.
  change (1024 / 4 - 1) with 255 in Hnum.
  unfold Shm.session, session. rewrite shm_setup_run. cbv zeta.
  destruct (Z.eqb_spec (e_shm_open E) (-1)) as [|_]; [contradiction|].
  destruct (Z.eqb_spec (e_ftruncate E) (-1)) as [|_]; [contradiction|].
  rewrite Hmap. cbn [fst snd].
  destruct (Z.eqb_spec (e_fork E) (-1)) as [|_]; [lia|].
  match goal with |- context [Shm.main_role _ _ _ 0 ?w0] => set (w2 := w0) end.
  assert (Z.of_nat (length (w_seg w2)) = 256) as Hlen2
    by (subst w2; cbn [w_seg set_seg]; rewrite length_resize; reflexivity).
  assert (w_trace w2 = w_trace w /\ w_stdin w2 = w_stdin w) as [Ht2 Hin2]
    by (split; reflexivity).
  clearbody w2.
  unfold Shm.main_role at 1. unfold bind at 1, emit at 1.
  change (0 =? -1) with false. change (0 =? 0) with true. cbv beta iota.
  destruct (shm_child_ok E (e_shm_open E) (log (EvFork 0) w2) num payload Hnum Hlen)
    as (wc & Hrunc & Hsegc & _ & Hnamec & _).
  { cbn [w_stdin log set_trace]. rewrite Hin2. exact Hin. }
  { exact Hlen2. }
  unfold bind at 1. rewrite Hrunc. unfold ret at 1. cbv beta iota.
  unfold Shm.main_role. unfold bind at 1, emit at 1.
  destruct (Z.eqb_spec (e_fork E) (-1)) as [|_]; [lia|].
  destruct (Z.eqb_spec (e_fork E) 0) as [|_]; [lia|].
  set (w3 := log (EvFork (e_fork E)) (set_trace (w_trace w2) wc)).
  cbn [w_seg log set_trace] in Hsegc.
  assert (w_seg w3 = num :: payload ++ drop (1 + length payload) (w_seg w2)) as Hseg3
    by exact Hsegc.
  assert (w_trace w3 = w_trace w ++ [EvFork (e_fork E)]) as Ht3
    by (subst w3; cbn [w_trace log set_trace]; rewrite Ht2; reflexivity).
  clearbody w3.
  destruct (shm_parent_stops_unless_wait_is_zero E PMapped (e_shm_open E) w3 Hwait)
    as (wp & Hrunp & evs & Htp & Hall).
  destruct (shm_parent_total E (e_shm_open E) w3)
    as (r & w' & evs' & Hrun' & _ & _ & _ & Hsegp & Hnamep).
  { rewrite Hseg3. cbn [length]. rewrite length_app, length_drop. lia. }
  rewrite Hrunp in Hrun'. injection Hrun' as _ <-.
  unfold bind at 1. rewrite Hrunp.
  eexists. eexists. eexists. exists (EvFork (e_fork E) :: evs).
  split; [reflexivity|].
  split; [rewrite Hsegp, Hseg3;
          apply (take_app_length' (num :: payload)); reflexivity|].
  split; [rewrite Htp, Ht3, <- app_assoc; reflexivity|].
  split; [constructor; [reflexivity|apply no_loads_unused; exact Hall]|].
  split; [change (EvFork (e_fork E) :: evs) with ([EvFork (e_fork E)] ++ evs);
          rewrite printed_app, (printed_unused evs Hall); reflexivity|].
  intros Hu. rewrite Hnamep, Hu. apply name_removed.
Qed.

(** A run for X20: the child types the count 2 and the values 7 and -8;
    [wait] returns the pid of the child. *)
Lemma shm_session_message_never_read_witness :
  let E := Fixture.env_ok 1 4321 in
  let w := Fixture.world_of [2; 7; -8] in
  exists tc tp wp evs,
    Shm.session E w = Outcome (Some (Ret 0, tc)) (Exit EXIT_FAILURE, tp) wp
    /\ take 3 (w_seg wp) = [2; 7; -8]
    /\ tp = w_trace w ++ evs
    /\ Forall (fun e => is_load e = false) evs
    /\ printed evs = []
    /\ (e_shm_unlink E = 0 -> Shm.SHM_NAME ∉ w_names wp).
Proof.
  intros E w.
  apply (shm_session_message_never_read E 2 [7; -8] w).
  - cbn. discriminate.
  - cbn. discriminate.
  - reflexivity.
  - cbn. lia.
  - cbn. discriminate.
  - vm_compute. split; discriminate.
  - reflexivity.
  - repeat constructor; vm_compute; discriminate.
  - reflexivity.
Defined.

(** ** The FIFO program, whatever the kernel does *)

Lemma write_all_any_trace E fd buf w :
  Z.of_nat (length buf) <= SSIZE_MAX ->
  exists r w' (k : nat) evs,
    write_all E fd buf (Z.of_nat (length buf)) w = (Ret r, w')
    /\ w_chan w' = w_chan w ++ take k buf
    /\ w_trace w' = w_trace w ++ evs
    /\ releases evs = []
    /\ ((r = Z.of_nat (length buf) /\ k = length buf)
        \/ (r = -1 /\ (k < length buf)%nat)).
Proof.
  intros Hsz.
  destruct (write_all_any E fd buf w Hsz) as (r & w' & k & Hrun & Hchan & _ & Hres).
  assert (steps (grows (fun e => negb (is_release e)))
            (write_all E fd buf (Z.of_nat (length buf)))) as Hst
    by (apply grows_write_all; intros; reflexivity).
  destruct (grows_run _ _ _ _ _ Hst Hrun) as (evs & Ht & Hall).
  exists r, w', k, evs. split; [exact Hrun|]. split; [exact Hchan|].
  split; [exact Ht|]. split; [apply releases_none; exact Hall|exact Hres].
Qed.

Lemma fifo_child_prefix E w num payload rest :
  e_open E <> -1 ->
  1 <= num <= 256 ->
  Z.of_nat (length payload) = num ->
  w_stdin w = Some num :: map Some payload ++ rest ->
  exists r w' (k : nat) evs,
    Fifo.child_process E w = (r, w')
    /\ w_chan w' = w_chan w ++ take k (int_to_bytes (e_big_endian E) num
                                       ++ ints_to_bytes (e_big_endian E) payload)
    /\ ((r = Ret tt /\ k = (4 + 4 * length payload)%nat)
        \/ (r = Exit EXIT_FAILURE /\ (k < 4 + 4 * length payload)%nat))
    /\ w_trace w' = w_trace w ++ evs
    /\ releases evs
       = (if e_malloc E (size_mul_int num) then [EvClose (e_open E)] else []).
Proof.
  intros Hopen Hnum Hlen Hin.
  set (hdr := int_to_bytes (e_big_endian E) num).
  set (body := ints_to_bytes (e_big_endian E) payload).
  assert (length hdr = 4%nat) as Hhdr by apply int_to_bytes_length.
  assert (length body = (4 * length payload)%nat) as Hbody by apply ints_to_bytes_length.
  unfold Fifo.child_process. unfold bind at 1. unfold Fifo.sys_open at 1.
  unfold bind at 1, emit at 1, ret at 1. cbv beta iota.
  set (fd := e_open E) in *.
  destruct (Z.eqb_spec fd (-1)) as [|_]; [contradiction|].
  unfold bind at 1. unfold scanf_d at 1. cbn [w_stdin log set_trace]. rewrite Hin.
  assert (Fifo.bad_count num = false) as ->
    by (unfold Fifo.bad_count, Fifo.BUFFER_SIZE, sizeof_int;
        change (1024 / 4) with 256; lia).
  unfold bind at 1. unfold malloc at 1. unfold bind at 1, emit at 1, ret at 1.
  unfold bind at 1. unfold Fifo.check_pointer at 1.
  set (B := size_mul_int num).
  destruct (e_malloc E B).
  2:{ unfold handle_error, bind, eprint, emit, exit.
      eexists. eexists. exists 0%nat. eexists. split; [reflexivity|].
      split; [rewrite take_0, app_nil_r; reflexivity|].
      split; [right; split; [reflexivity|lia]|].
      cbn [w_trace log set_trace set_stdin]. rewrite <- !app_assoc.
      split; reflexivity. }
  unfold ret at 1. cbv beta iota.
  unfold bind at 1.
  replace (Z.to_nat (to_size num)) with (length payload)
    by (unfold to_size, SIZE_MOD; rewrite Z.mod_small by lia; lia).
  match goal with
  | |- context [for_fold _ _ _ ?body _] =>
      rewrite (scan_loop body ltac:(scan_body) payload 0%nat _ _ rest)
  end;
    [|cbn [w_stdin set_stdin log set_trace]; reflexivity
     |rewrite length_replicate; lia].
  cbv beta iota zeta.
  rewrite take_0, app_nil_l, drop_ge, app_nil_r by (rewrite length_replicate; lia).
  match goal with |- context [bind _ _ ?w0] => set (w1 := w0) end.
  assert (w_chan w1 = w_chan w
          /\ w_trace w1 = w_trace w ++ [EvOpen Fifo.FIFO_PATH fd; EvMalloc B])
    as (Hc1 & Ht1).
  { subst w1. cbn [w_chan w_trace set_stdin log set_trace].
    rewrite <- !app_assoc. split; reflexivity. }
  clearbody w1.
  unfold bind at 1.
  destruct (write_all_any_trace E fd hdr w1)
    as (r2 & w2 & k2 & ev2 & Hrun2 & Hchan2 & Ht2 & Hr2 & Hres2).
  { rewrite Hhdr. unfold SSIZE_MAX. lia. }
  rewrite Hhdr in Hrun2, Hres2. change (Z.of_nat 4) with sizeof_int in Hrun2.
  fold hdr. rewrite Hrun2.
  destruct Hres2 as [[-> ->]|[-> Hk2]].
  2:{ change (-1 =? -1) with true. cbv beta iota.
      unfold bind at 1. unfold eprint at 1, emit at 1.
      unfold bind at 1. unfold free at 1, emit at 1.
      destruct (fifo_close_effect E fd (log EvFree (log (EvStderr "write_all") w2)))
        as (evc & Hrunc & Htc & Hrc & _ & Hcc & _).
      unfold bind at 1. rewrite Hrunc. unfold exit.
      eexists. eexists. exists k2.
      exists ([EvOpen Fifo.FIFO_PATH fd; EvMalloc B] ++ ev2
              ++ [EvStderr "write_all"; EvFree] ++ evc).
      split; [reflexivity|].
      split; [rewrite Hcc; cbn [w_chan log set_trace];
              rewrite Hchan2, Hc1, take_app_le by lia; reflexivity|].
      split; [right; split; [reflexivity|lia]|].
      split; [rewrite Htc; cbn [w_trace log set_trace]; rewrite Ht2, Ht1, <- !app_assoc;
              reflexivity|].
      rewrite !releases_app, Hr2, Hrc. reflexivity. }
  change (Z.of_nat 4 =? -1) with false. cbv beta iota.
  unfold bind at 1.
  destruct (write_all_any_trace E fd body w2)
    as (r3 & w3 & k3 & ev3 & Hrun3 & Hchan3 & Ht3 & Hr3 & Hres3).
  { rewrite Hbody. unfold SSIZE_MAX. lia. }
  rewrite Hbody in Hrun3, Hres3.
  replace (Z.of_nat (4 * length payload)) with B in Hrun3
    by (subst B; rewrite size_mul_int_small; lia).
  fold body. rewrite Hrun3.
  assert (w_chan w3 = w_chan w ++ take (4 + k3) (hdr ++ body)) as Hc3.
  { rewrite Hchan3, Hchan2, Hc1, <- app_assoc. f_equal.
    rewrite (take_ge hdr 4) by lia.
    symmetry. apply take_app_add'. symmetry. exact Hhdr. }
  assert (w_trace w3 = w_trace w ++ [EvOpen Fifo.FIFO_PATH fd; EvMalloc B] ++ ev2 ++ ev3)
    as Ht3' by (rewrite Ht3, Ht2, Ht1, <- !app_assoc; reflexivity).
  destruct Hres3 as [[-> ->]|[-> Hk3]].
  - assert ((Z.of_nat (4 * length payload) =? -1) = false) as -> by lia.
    unfold bind at 1. unfold free at 1, emit at 1.
    destruct (fifo_close_effect E fd (log EvFree w3))
      as (evc & Hrunc & Htc & Hrc & _ & Hcc & _).
    rewrite Hrunc.
    eexists. eexists. exists (4 + 4 * length payload)%nat.
    exists ([EvOpen Fifo.FIFO_PATH fd; EvMalloc B] ++ ev2 ++ ev3 ++ [EvFree] ++ evc).
    split; [reflexivity|].
    split; [rewrite Hcc; exact Hc3|].
    split; [left; split; reflexivity|].
    split; [rewrite Htc; cbn [w_trace log set_trace]; rewrite Ht3', <- !app_assoc;
            reflexivity|].
    rewrite !releases_app, Hr2, Hr3, Hrc. reflexivity.
  - change (-1 =? -1) with true. cbv beta iota.
    unfold bind at 1. unfold eprint at 1, emit at 1.
    unfold bind at 1. unfold free at 1, emit at 1.
    destruct (fifo_close_effect E fd (log EvFree (log (EvStderr "write_all") w3)))
      as (evc & Hrunc & Htc & Hrc & _ & Hcc & _).
    unfold bind at 1. rewrite Hrunc. unfold exit.
    eexists. eexists. exists (4 + k3)%nat.
    exists ([EvOpen Fifo.FIFO_PATH fd; EvMalloc B] ++ ev2 ++ ev3
            ++ [EvStderr "write_all"; EvFree] ++ evc).
    split; [reflexivity|].
    split; [rewrite Hcc; exact Hc3|].
    split; [right; split; [reflexivity|lia]|].
    split; [rewrite Htc; cbn [w_trace log set_trace]; rewrite Ht3', <- !app_assoc;
            reflexivity|].
    rewrite !releases_app, Hr2, Hr3, Hrc. reflexivity.
Qed.

(** X21. In the FIFO program a message is delivered whole or not at all,
    whatever the [write] and [read] calls return. The producer, once
    [open] has succeeded and given a valid count and that many values,
    leaves on the stream a prefix of the encoded message, all of it when
    it returns and a proper prefix when it exits with [EXIT_FAILURE]; on
    each of these paths it has closed its descriptor exactly once, except
    after a failed [malloc], where it exits without closing; it never
    removes the name. The consumer run on what the producer left prints
    either nothing or exactly the values the producer read, and when the
    producer failed the consumer prints nothing and exits with
    [EXIT_FAILURE]. *)
Theorem fifo_message_all_or_nothing :
  forall (E : env) (num : Z) (payload : list Z) (rest : list (option Z)) (w : world),
    e_open E <> -1 ->
    1 <= num <= 256 ->
    Z.of_nat (length payload) = num ->
    Forall int_range payload ->
    w_stdin w = Some num :: map Some payload ++ rest ->
    w_chan w = [] ->
    exists rc wc rp wp (k : nat) evc,
      Fifo.child_process E w = (rc, wc)
      /\ w_chan wc = take k (int_to_bytes (e_big_endian E) num
                             ++ ints_to_bytes (e_big_endian E) payload)
      /\ ((rc = Ret tt /\ k = (4 + 4 * length payload)%nat)
          \/ (rc = Exit EXIT_FAILURE /\ (k < 4 + 4 * length payload)%nat))
      /\ w_trace wc = w_trace w ++ evc
      /\ releases evc
         = (if e_malloc E (size_mul_int num) then [EvClose (e_open E)] else [])
      /\ Fifo.parent_process E (set_trace [] wc) = (rp, wp)
      /\ (printed (w_trace wp) = [] \/ printed (w_trace wp) = payload)
      /\ (rc = Exit EXIT_FAILURE ->
          rp = Exit EXIT_FAILURE /\ printed (w_trace wp) = []).
Proof.
  intros E num payload rest w Hopen Hnum Hlen Hpay Hin Hempty.
  destruct (fifo_child_prefix E w num payload rest Hopen Hnum Hlen Hin)
    as (rc & wc & k & evc & Hrunc & Hchan & Hresc & Htc & Hrc).
  rewrite Hempty in Hchan. cbn [app] in Hchan.
  set (hdr := int_to_bytes (e_big_endian E) num) in *.
  set (body := ints_to_bytes (e_big_endian E) payload) in *.
  assert (length hdr = 4%nat) as Hhdr by apply int_to_bytes_length.
  assert (length body = (4 * length payload)%nat) as Hbody by apply ints_to_bytes_length.
  assert (k <= 4 + 4 * length payload)%nat as Hk by (destruct Hresc as [[_ ->]|[_ H]]; lia).
  assert (length (w_chan wc) = k) as Hlenc
    by (rewrite Hchan, length_take_le; [reflexivity|rewrite length_app; lia]).
  destruct (fifo_parent_any E (set_trace [] wc))
    as (rp & wp & evp & Hrunp & Htp & _ & _ & Hresp).
  { cbn [w_chan set_trace]. lia. }
  cbn [w_chan w_trace set_trace app] in Htp, Hresp.
  exists rc, wc, rp, wp, k, evc. split; [exact Hrunc|]. split; [exact Hchan|].
  split; [exact Hresc|]. split; [exact Htc|]. split; [exact Hrc|].
  split; [exact Hrunp|]. rewrite Htp.
  destruct Hresp as [[-> Hnone]|(-> & n & Hcount & Hfit & Hprinted & _)].
  { split; [left; exact Hnone|]. intros _. split; [reflexivity|exact Hnone]. }
  rewrite Hlenc in Hfit.
  assert (take 4 (w_chan wc) = hdr) as Hhead.
  { rewrite Hchan, take_take. replace (4 `min` k)%nat with 4%nat by lia.
    apply take_app_length'. symmetry. exact Hhdr. }
  rewrite Hhead in Hcount. unfold hdr in Hcount.
  rewrite bytes_to_int_to_bytes in Hcount by (unfold int_range; lia).
  assert (n = length payload) as -> by lia.
  assert (k = (4 + 4 * length payload)%nat) as -> by lia.
  assert (w_chan wc = hdr ++ body) as Hall
    by (rewrite Hchan; apply take_ge; rewrite length_app; lia).
  rewrite Hall, drop_app_length' in Hprinted by (symmetry; exact Hhdr).
  unfold body in Hprinted. rewrite bytes_to_ints_to_bytes in Hprinted by exact Hpay.
  split; [right; exact Hprinted|].
  intros ->. destruct Hresc as [[Habs _]|[_ Hlt]]; [discriminate|lia].
Qed.

(** A run for X21: the count 1 and the value 7 are sent, and the kernel
    fails the fourth [write] call. *)
Lemma fifo_message_all_or_nothing_witness :
  let E := Env false (fun k _ => if (k <? 3)%nat then 2 else -1) (fun _ => true)
             4321 4321 5 (fun _ => 0) 0 0 0 0 0 0 3 0 PMapped in
  let w := Fixture.world_of [1; 7] in
  exists rc wc rp wp (k : nat) evc,
    Fifo.child_process E w = (rc, wc)
    /\ w_chan wc = take k (int_to_bytes (e_big_endian E) 1
                           ++ ints_to_bytes (e_big_endian E) [7])
    /\ ((rc = Ret tt /\ k = 8%nat) \/ (rc = Exit EXIT_FAILURE /\ (k < 8)%nat))
    /\ w_trace wc = w_trace w ++ evc
    /\ releases evc
       = (if e_malloc E (size_mul_int 1) then [EvClose (e_open E)] else [])
    /\ Fifo.parent_process E (set_trace [] wc) = (rp, wp)
    /\ (printed (w_trace wp) = [] \/ printed (w_trace wp) = [7])
    /\ (rc = Exit EXIT_FAILURE ->
        rp = Exit EXIT_FAILURE /\ printed (w_trace wp) = []).
Proof.
  intros E w.
  apply (fifo_message_all_or_nothing E 1 [7] [] w).
  - cbn. discriminate.
  - lia.
  - reflexivity.
  - repeat constructor; vm_compute; discriminate.
  - reflexivity.
  - reflexivity.
Defined.
